(** * simon: job queue, transcript parser, recorder, pipeline handlers,
    classifier, formatter and artifact extractor

  A shallow embedding of the parts of the [simon] package that the
  specification's properties are about, followed by the properties.

  Conventions of the embedding.
  - A Python [str] is a Rocq [string]; [len] is [String.length], so the
    embedding speaks about text whose characters are single bytes (ASCII).
  - Timestamps are instants on a discrete time line ([Z]); [now] is passed
    explicitly to every operation that reads the clock. A [datetime] read
    from a transcript also says whether it carries a time zone, since a
    naive and an aware [datetime] do not compare.
  - A table is the list of its rows; a primary key generated by [uuid4] is
    drawn from the counter [next_uuid] of the database, and rendered by
    [str] as its decimal numeral.
  - Library code the package calls ([json.loads], [hashlib.md5],
    [datetime.fromisoformat], the LLM client, the file system) is a field
    of the record [Env], over which every statement quantifies.
  - A handler either returns a new database or raises; [Raise] carries the
    exception message. *)

From Stdlib Require Import ZArith QArith String Ascii List Lia Bool.
From Stdlib Require Import DecimalString DecimalN Permutation Sorted.
From stdpp Require Import base list strings gmap.
Import ListNotations.
Open Scope Z_scope.

(* ===================================================================== *)
(** * Python string primitives                                            *)
(* ===================================================================== *)

Module Py.

(** [s[:n]] *)
Fixpoint take (n : nat) (s : string) : string :=
  match n, s with
  | O, _ => EmptyString
  | S _, EmptyString => EmptyString
  | S n', String c s' => String c (take n' s')
  end.

(** [s[n:]] *)
Fixpoint drop (n : nat) (s : string) : string :=
  match n, s with
  | O, _ => s
  | S _, EmptyString => EmptyString
  | S n', String c s' => drop n' s'
  end.

(** [str.isspace] on one character (the ASCII range) *)
Definition is_space (c : ascii) : bool :=
  let n := nat_of_ascii c in
  ((9 <=? n) && (n <=? 13) || (28 <=? n) && (n <=? 32))%nat.

Fixpoint lstrip (s : string) : string :=
  match s with
  | EmptyString => EmptyString
  | String c s' => if is_space c then lstrip s' else s
  end.

Fixpoint rstrip (s : string) : string :=
  match s with
  | EmptyString => EmptyString
  | String c s' =>
      match rstrip s' with
      | EmptyString => if is_space c then EmptyString else String c EmptyString
      | r => String c r
      end
  end.

(** [s.strip()] *)
Definition strip (s : string) : string := rstrip (lstrip s).

(** [s.startswith(p)] *)
Fixpoint startswith (p s : string) : bool :=
  match p, s with
  | EmptyString, _ => true
  | String _ _, EmptyString => false
  | String a p', String b s' => Ascii.eqb a b && startswith p' s'
  end.

Definition is_upper (c : ascii) : bool :=
  let n := nat_of_ascii c in ((65 <=? n) && (n <=? 90))%nat.
Definition is_lower (c : ascii) : bool :=
  let n := nat_of_ascii c in ((97 <=? n) && (n <=? 122))%nat.
Definition is_digit (c : ascii) : bool :=
  let n := nat_of_ascii c in ((48 <=? n) && (n <=? 57))%nat.
Definition is_alpha (c : ascii) : bool := is_upper c || is_lower c.
(** [c.isalnum()] *)
Definition isalnum (c : ascii) : bool := is_alpha c || is_digit c.
(** the class [\w] of [re] *)
Definition is_word (c : ascii) : bool :=
  isalnum c || Ascii.eqb c "_"%char.

Definition lower_char (c : ascii) : ascii :=
  if is_upper c then ascii_of_nat (nat_of_ascii c + 32) else c.
Definition upper_char (c : ascii) : ascii :=
  if is_lower c then ascii_of_nat (nat_of_ascii c - 32) else c.

(** [s.lower()] *)
Fixpoint lower (s : string) : string :=
  match s with
  | EmptyString => EmptyString
  | String c s' => String (lower_char c) (lower s')
  end.

(** [s.title()]: a letter that follows a letter is lowered, any other
    letter is raised. *)
Fixpoint title_from (prev_cased : bool) (s : string) : string :=
  match s with
  | EmptyString => EmptyString
  | String c s' =>
      String (if prev_cased then lower_char c else upper_char c)
             (title_from (is_alpha c) s')
  end.
Definition title (s : string) : string := title_from false s.

(** [sep.join(parts)] *)
Fixpoint join (sep : string) (parts : list string) : string :=
  match parts with
  | [] => EmptyString
  | [p] => p
  | p :: rest => p +:+ sep +:+ join sep rest
  end.

(** [s.split("\n")], accumulating the current piece in [cur]. *)
Fixpoint split_from (sep : ascii) (cur : string) (s : string) : list string :=
  match s with
  | EmptyString => [cur]
  | String c s' =>
      if Ascii.eqb c sep then cur :: split_from sep EmptyString s'
      else split_from sep (cur +:+ String c EmptyString) s'
  end.
Definition split (sep : ascii) (s : string) : list string :=
  split_from sep EmptyString s.

Definition nl : string := String (ascii_of_nat 10) EmptyString.

(** [str(n)] for a non-negative integer *)
Definition str_of_N (n : N) : string :=
  NilEmpty.string_of_uint (N.to_uint n).
Definition str_of_nat (n : nat) : string := str_of_N (N.of_nat n).

(** truthiness of a [str] *)
Definition truthy (s : string) : bool :=
  match s with EmptyString => false | _ => true end.

(** truthiness of an [Optional[str]] *)
Definition otruthy (o : option string) : bool :=
  match o with Some s => truthy s | None => false end.

Definition len (s : string) : nat := String.length s.

(** [c * n] for a one-character string [c] *)
Fixpoint replicate (c : ascii) (n : nat) : string :=
  match n with
  | O => EmptyString
  | S n' => String c (replicate c n')
  end.

End Py.

(* ===================================================================== *)
(** * storage/models.py                                                   *)
(* ===================================================================== *)

Module Models.

(** [uuid.UUID]: primary keys; [str(u)] and [uuid.UUID(s)]. *)
Definition UUID := N.
Definition uuid_str (u : UUID) : string := Py.str_of_N u.
Definition uuid_parse (s : string) : option UUID :=
  match NilEmpty.uint_of_string s with
  | Some d => Some (N.of_uint d)
  | None => None
  end.

(** The five values the check constraint on [focus_jobs.status] allows. *)
Inductive JobStatus := Queued | Processing | Retry | Done | Failed.

Definition status_eqb (a b : JobStatus) : bool :=
  match a, b with
  | Queued, Queued | Processing, Processing | Retry, Retry
  | Done, Done | Failed, Failed => true
  | _, _ => false
  end.

Record FocusJob := mkJob {
  job_id : UUID;
  kind : string;
  dedupe_key : option string;
  payload : list (string * string);
  status : JobStatus;
  priority : Z;
  attempts : N;
  max_attempts : Z;
  locked_until : option Z;
  error_message : option string;
  created_at : Z;
  updated_at : Z
}.

Record AgentSession := mkSession {
  sess_id : UUID;
  session_id : string;
  transcript_path : option string;
  workspace_path : option string;
  session_title : option string;
  session_summary : option string;
  sess_started_at : option Z;
  last_activity_at : option Z;
  project_id : option UUID;
  turn_count : Z;
  is_processed : bool
}.

Record AgentTurn := mkTurn {
  turn_id : UUID;
  turn_session : UUID;
  turn_number : nat;
  user_message : option string;
  assistant_summary : option string;
  turn_title : option string;
  content_hash : string;
  model_name : option string;
  tool_names : list string;
  started_at : option Z;
  ended_at : option Z
}.

Record AgentTurnContent := mkContent {
  content_turn : UUID;
  raw_jsonl : string;
  assistant_text : option string;
  content_size : nat
}.

Record Project := mkProject {
  proj_id : UUID;
  proj_name : string;
  slug : string;
  proj_active : bool
}.

Record DB := mkDB {
  jobs : list FocusJob;
  sessions : list AgentSession;
  turns : list AgentTurn;
  contents : list AgentTurnContent;
  projects : list Project;
  next_uuid : UUID
}.

Definition empty_db : DB := mkDB [] [] [] [] [] 0%N.

(** The next [n] results of [uuid4] when the counter stands at [u]. *)
Fixpoint fresh_ids (u : UUID) (n : nat) : list UUID :=
  match n with
  | O => []
  | S n' => u :: fresh_ids (N.succ u) n'
  end.

(** [uuid.uuid4()] *)
Definition uuid4 (db : DB) : UUID * DB :=
  (next_uuid db,
   mkDB (jobs db) (sessions db) (turns db) (contents db) (projects db)
        (N.succ (next_uuid db))).

Definition with_jobs (db : DB) (js : list FocusJob) : DB :=
  mkDB js (sessions db) (turns db) (contents db) (projects db) (next_uuid db).
Definition with_sessions (db : DB) (ss : list AgentSession) : DB :=
  mkDB (jobs db) ss (turns db) (contents db) (projects db) (next_uuid db).
Definition with_turns (db : DB) (ts : list AgentTurn) : DB :=
  mkDB (jobs db) (sessions db) ts (contents db) (projects db) (next_uuid db).
Definition with_contents (db : DB) (cs : list AgentTurnContent) : DB :=
  mkDB (jobs db) (sessions db) (turns db) cs (projects db) (next_uuid db).

End Models.

(* ===================================================================== *)
(** * storage/jobs.py                                                     *)
(* ===================================================================== *)

Module Jobs.
Import Models.

(** [session.get(FocusJob, job_id)] *)
Definition get_job (db : DB) (jid : UUID) : option FocusJob :=
  find (fun j => N.eqb (job_id j) jid) (jobs db).

(** [UPDATE focus_jobs SET ... WHERE id = jid] *)
Definition update_job (f : FocusJob -> FocusJob) (jid : UUID) (db : DB) : DB :=
  with_jobs db (map (fun j => if N.eqb (job_id j) jid then f j else j) (jobs db)).

Definition has_dedupe_key (k : string) (j : FocusJob) : bool :=
  match dedupe_key j with
  | Some k' => String.eqb k k'
  | None => false
  end.

(** The values of an [Integer] column; the driver raises on an [int]
    outside them. *)
Definition int32 (z : Z) : Prop := -2147483648 <= z <= 2147483647.

(** [enqueue_job], for a [priority] and a [max_attempts] that their
    [Integer] columns take: the handlers and the hook pass literals
    between 5 and 30 and leave [max_attempts] at its default. *)
Definition enqueue_job (db : DB) (now : Z) (kind : string)
    (payload : list (string * string)) (dedupe_key : option string)
    (priority : Z) (max_attempts : Z) : DB * option FocusJob :=
  let (jid, db1) := uuid4 db in
  if Py.otruthy dedupe_key then
    let k := default EmptyString dedupe_key in
    if existsb (has_dedupe_key k) (jobs db1) then (db1, None)
    else
      let job := mkJob jid kind (Some k) payload Queued priority 0%N
                       max_attempts None None now now in
      (with_jobs db1 (jobs db1 ++ [job]), Some job)
  else
    let job := mkJob jid kind None payload Queued priority 0%N
                     max_attempts None None now now in
    (with_jobs db1 (jobs db1 ++ [job]), Some job).

(** The [WHERE] clause of the sub-select of [claim_job]; the kind filter
    is added under [if kinds:], so neither [None] nor an empty list
    filters. *)
Definition claimable (now : Z) (kinds : option (list string))
    (j : FocusJob) : bool :=
  (status_eqb (status j) Queued || status_eqb (status j) Retry)
  && match locked_until j with
     | None => true
     | Some t => t <? now
     end
  && match kinds with
     | Some (k :: ks) => existsb (String.eqb (kind j)) (k :: ks)
     | _ => true
     end.

(** [ORDER BY priority ASC, created_at ASC] *)
Definition job_before (a b : FocusJob) : bool :=
  (priority a <? priority b)
  || ((priority a =? priority b) && (created_at a <=? created_at b)).

(** [... LIMIT 1] *)
Fixpoint first_in_order (l : list FocusJob) : option FocusJob :=
  match l with
  | [] => None
  | j :: l' =>
      match first_in_order l' with
      | None => Some j
      | Some m => if job_before j m then Some j else Some m
      end
  end.

Definition mark_claimed (now lease_seconds : Z) (j : FocusJob) : FocusJob :=
  mkJob (job_id j) (kind j) (dedupe_key j) (payload j) Processing
        (priority j) (N.succ (attempts j)) (max_attempts j)
        (Some (now + lease_seconds)) (error_message j) (created_at j) now.

Definition claim_job (db : DB) (now : Z) (kinds : option (list string))
    (lease_seconds : Z) : DB * option FocusJob :=
  match first_in_order (List.filter (claimable now kinds) (jobs db)) with
  | None => (db, None)
  | Some sel =>
      let db' := update_job (mark_claimed now lease_seconds) (job_id sel) db in
      (db', get_job db' (job_id sel))
  end.

Definition mark_done (now : Z) (j : FocusJob) : FocusJob :=
  mkJob (job_id j) (kind j) (dedupe_key j) (payload j) Done
        (priority j) (attempts j) (max_attempts j)
        (locked_until j) (error_message j) (created_at j) now.

Definition complete_job (db : DB) (now : Z) (jid : UUID) : DB :=
  update_job (mark_done now) jid db.

Definition backoff_seconds (attempts : N) : Z :=
  Z.min (2 ^ Z.of_N attempts * 30) 3600.

Definition mark_retry (now : Z) (msg : string) (backoff : Z)
    (j : FocusJob) : FocusJob :=
  mkJob (job_id j) (kind j) (dedupe_key j) (payload j) Retry
        (priority j) (attempts j) (max_attempts j)
        (Some (now + backoff)) (Some msg) (created_at j) now.

Definition mark_failed (now : Z) (msg : string) (j : FocusJob) : FocusJob :=
  mkJob (job_id j) (kind j) (dedupe_key j) (payload j) Failed
        (priority j) (attempts j) (max_attempts j)
        (locked_until j) (Some msg) (created_at j) now.

Definition fail_job (db : DB) (now : Z) (jid : UUID)
    (error_message : string) : DB :=
  match get_job db jid with
  | None => db
  | Some job =>
      if Z.of_N (attempts job) <? max_attempts job then
        update_job (mark_retry now error_message
                      (backoff_seconds (attempts job))) jid db
      else
        update_job (mark_failed now error_message) jid db
  end.

Definition lease_expired (now : Z) (j : FocusJob) : bool :=
  status_eqb (status j) Processing
  && match locked_until j with
     | Some t => t <? now
     | None => false
     end.

Definition mark_expired (now : Z) (j : FocusJob) : FocusJob :=
  mkJob (job_id j) (kind j) (dedupe_key j) (payload j) Retry
        (priority j) (attempts j) (max_attempts j)
        None (error_message j) (created_at j) now.

Definition expire_stale_leases (db : DB) (now : Z) : DB * nat :=
  (with_jobs db
     (map (fun j => if lease_expired now j then mark_expired now j else j)
          (jobs db)),
   List.length (List.filter (lease_expired now) (jobs db))).

(** ** The contract of [claim_job], in the specification's words *)

(** "whose kind is in the allowed set, if given" *)
Definition in_allowed_set (kinds : option (list string)) (j : FocusJob) : Prop :=
  match kinds with
  | Some ks => In (kind j) ks
  | None => True
  end.

(** the same, where an empty list counts as no filter *)
Definition in_nonempty_allowed_set (kinds : option (list string))
    (j : FocusJob) : Prop :=
  match kinds with
  | Some (k :: ks) => In (kind j) (k :: ks)
  | _ => True
  end.

(** "status in {queued, retry} whose locked_until is null or in the past" *)
Definition candidate (kind_ok : FocusJob -> Prop) (now : Z)
    (j : FocusJob) : Prop :=
  (status j = Queued \/ status j = Retry)
  /\ (locked_until j = None \/ exists t, locked_until j = Some t /\ t < now)
  /\ kind_ok j.

(** "(priority ascending, created_at ascending)" *)
Definition order_le (a b : FocusJob) : Prop :=
  priority a < priority b
  \/ (priority a = priority b /\ created_at a <= created_at b).

(** [r] is [j] after "status=processing, locked_until=now()+lease_seconds,
    attempts=attempts+1", every other column but [updated_at] kept. *)
Definition claimed_from (now lease_seconds : Z) (j r : FocusJob) : Prop :=
  status r = Processing
  /\ locked_until r = Some (now + lease_seconds)
  /\ attempts r = N.succ (attempts j)
  /\ job_id r = job_id j /\ kind r = kind j /\ dedupe_key r = dedupe_key j
  /\ payload r = payload j /\ priority r = priority j
  /\ max_attempts r = max_attempts j /\ error_message r = error_message j
  /\ created_at r = created_at j.

Definition claim_contract (kind_ok : FocusJob -> Prop) (db : DB) (now : Z)
    (kinds : option (list string)) (lease_seconds : Z) : Prop :=
  match claim_job db now kinds lease_seconds with
  | (db', Some r) =>
      exists j before after,
        jobs db = before ++ j :: after
        /\ candidate kind_ok now j
        /\ (forall j', In j' (jobs db) -> candidate kind_ok now j' -> order_le j j')
        /\ claimed_from now lease_seconds j r
        /\ jobs db' = before ++ r :: after
  | (db', None) =>
      db' = db /\ forall j, In j (jobs db) -> ~ candidate kind_ok now j
  end.

(** "terminal statuses (done, failed)" *)
Definition terminal (j : FocusJob) : Prop :=
  status j = Done \/ status j = Failed.

(** The status of the job [jid], if it is in the table. *)
Definition status_of (db : DB) (jid : UUID) : option JobStatus :=
  option_map status (get_job db jid).

(** "no queue operation (enqueue, claim, complete, fail,
    expire_stale_leases) ever changes its status again" *)
Definition terminal_statuses_final (db : DB) : Prop :=
  forall j, In j (jobs db) -> terminal j ->
    forall now jid msg k p dk prio ma kinds lease,
      status_of (fst (enqueue_job db now k p dk prio ma)) (job_id j)
      = Some (status j)
      /\ status_of (fst (claim_job db now kinds lease)) (job_id j)
         = Some (status j)
      /\ status_of (complete_job db now jid) (job_id j) = Some (status j)
      /\ status_of (fail_job db now jid msg) (job_id j) = Some (status j)
      /\ status_of (fst (expire_stale_leases db now)) (job_id j)
         = Some (status j).

(** The primary key of [focus_jobs]. *)
Definition jobs_pk (db : DB) : Prop := List.NoDup (map job_id (jobs db)).

(** ** Sample rows *)

Definition sample_job (jid : UUID) (k : string) (st : JobStatus)
    (prio : Z) (att : N) (created : Z) : FocusJob :=
  mkJob jid k None [] st prio att 10 None None created created.

Definition db_one_queued : DB :=
  with_jobs empty_db [sample_job 0%N "turn_summary" Queued 15 0%N 7].

Definition db_three : DB :=
  with_jobs empty_db
    [ sample_job 0%N "session_summary" Queued 25 0%N 1;
      sample_job 1%N "turn_summary" Retry 15 1%N 5;
      sample_job 2%N "turn_summary" Queued 15 0%N 3;
      sample_job 3%N "entity_extract" Done 5 1%N 0;
      sample_job 4%N "entity_extract" Failed 5 10%N 0 ].

End Jobs.

(* ===================================================================== *)
(** * JSON values, exceptions, and the world outside the package          *)
(* ===================================================================== *)

Module Json.

(** What [json.loads] returns. A [dict] is the list of its items. *)
#[warnings="-register-all"]
Inductive json :=
| JNull
| JBool (b : bool)
| JInt (z : Z)
| JFloat (q : Q)
| JStr (s : string)
| JArr (l : list json)
| JObj (m : list (string * json)).

(** [bool(v)] *)
Definition truthy (v : json) : bool :=
  match v with
  | JNull => false
  | JBool b => b
  | JInt z => negb (z =? 0)
  | JFloat q => negb (Qeq_bool q 0)
  | JStr s => Py.truthy s
  | JArr l => match l with [] => false | _ => true end
  | JObj m => match m with [] => false | _ => true end
  end.

Fixpoint lookup (k : string) (m : list (string * json)) : option json :=
  match m with
  | [] => None
  | (k', v) :: m' => if String.eqb k k' then Some v else lookup k m'
  end.

(** [d.get(k, dflt)] on a dict [d] *)
Definition dict_get (k : string) (dflt : json) (m : list (string * json)) : json :=
  match lookup k m with
  | Some v => v
  | None => dflt
  end.

Definition num_of (v : json) : option Q :=
  match v with
  | JBool b => Some (if b then 1%Q else 0%Q)
  | JInt z => Some (inject_Z z)
  | JFloat q => Some q
  | _ => None
  end.

(** [a == b]: numbers and booleans compare by value, lists element-wise,
    dicts item by item whatever the order. *)
Fixpoint eqb (a b : json) {struct a} : bool :=
  match a, b with
  | JNull, JNull => true
  | JStr s, JStr t => String.eqb s t
  | JArr l, JArr l' =>
      (fix go (l l' : list json) : bool :=
         match l, l' with
         | [], [] => true
         | x :: xs, y :: ys => eqb x y && go xs ys
         | _, _ => false
         end) l l'
  | JObj m, JObj m' =>
      Nat.eqb (List.length m) (List.length m')
      && (fix go (m : list (string * json)) : bool :=
            match m with
            | [] => true
            | (k, v) :: r =>
                match lookup k m' with
                | Some v' => eqb v v'
                | None => false
                end && go r
            end) m
  | _, _ =>
      match num_of a, num_of b with
      | Some p, Some q => Qeq_bool p q
      | _, _ => false
      end
  end.

(** [v in l] *)
Definition mem (v : json) (l : list json) : bool := existsb (eqb v) l.

Definition is_str (v : json) (s : string) : bool := eqb v (JStr s).

End Json.

Module Exc.

(** The outcome of a call: a value, or an exception that propagates. *)
Inductive Result (A : Type) :=
| OK (a : A)
| Raise (exc : string).
Arguments OK {A} a.
Arguments Raise {A} exc.

Definition bind {A B : Type} (r : Result A) (k : A -> Result B) : Result B :=
  match r with
  | OK a => k a
  | Raise e => Raise e
  end.

End Exc.

Notation "'let*' x ':=' r 'in' k" := (Exc.bind r (fun x => k))
  (at level 10, x name, r at level 100, k at level 200).
Notation "'let*' ' p ':=' r 'in' k" :=
  (Exc.bind r (fun x => match x with p => k end))
  (at level 10, p pattern, r at level 100, k at level 200).

Module World.
Import Json Exc.

(** The state file of [project_state.py], as [_read_state] returns it. *)
Record ProjectState := mkProjectState {
  state_global : option string;
  state_workspaces : list (string * string)
}.

(** A [datetime]: its instant, and whether it is aware (it carries a
    time zone) or naive. *)
Record datetime := mkDatetime {
  instant : Z;
  tz_aware : bool
}.

(** Everything the package reads from outside itself. *)
Record Env := mkEnv {
  (** the lines of the file at a path, when [path.exists()] *)
  read_lines : string -> option (list string);
  (** [json.loads]; [None] is [JSONDecodeError] *)
  json_loads : string -> option json;
  (** [hashlib.md5(s.encode()).hexdigest()] *)
  md5_hexdigest : string -> string;
  (** [datetime.fromisoformat]; [None] is [ValueError] *)
  fromisoformat : string -> option datetime;
  (** the project-state file *)
  project_state : ProjectState;
  (** [settings.anthropic.api_key] *)
  api_key : string;
  (** [client.messages.create(...).content[0].text] for a user content
      string; an exception of the client is [Raise] *)
  messages_create : string -> Result string;
  (** [str(v)] of a value that is not a [str] *)
  py_str : json -> string
}.

End World.

(* ===================================================================== *)
(** * ingestion/claude_code.py                                            *)
(* ===================================================================== *)

Module Parser.
Import Json Exc World.

(** A message collected by the first pass. *)
Record Message := mkMessage {
  role : json;
  content : json;
  text : string;
  timestamp : json;
  model : json;
  raw_line : string
}.

(** A turn under construction. *)
Record Pending := mkPending {
  p_user_message : string;
  p_assistant_texts : list string;
  p_tool_names : list json;
  p_model_name : json;
  p_started_at : json;
  p_ended_at : json;
  p_raw_lines : list string
}.

(** A finalized turn dict. *)
Record Turn := mkTurn {
  turn_number : nat;
  user_message : string;
  assistant_text : string;
  tool_names : list json;
  model_name : json;
  started_at : json;
  ended_at : json;
  raw_jsonl : string;
  content_hash : string
}.

(** The text blocks of a content list, in order; a text that is not a
    [str] makes [join] raise. *)
Fixpoint text_parts (blocks : list json) : Result (list string) :=
  match blocks with
  | [] => OK []
  | JObj b :: rest =>
      if is_str (dict_get "type" JNull b) "text" then
        match dict_get "text" (JStr "") b with
        | JStr t => let* ts := text_parts rest in OK (t :: ts)
        | _ => Raise "TypeError"
        end
      else text_parts rest
  | _ :: rest => text_parts rest
  end.

Definition _extract_text_content (content : json) : Result string :=
  match content with
  | JStr s => OK s
  | JArr blocks => let* ts := text_parts blocks in OK (Py.join Py.nl ts)
  | _ => OK EmptyString
  end.

Fixpoint tool_names_from (blocks : list json) (tools : list json) : list json :=
  match blocks with
  | [] => tools
  | JObj b :: rest =>
      if is_str (dict_get "type" JNull b) "tool_use" then
        let name := dict_get "name" (JStr "") b in
        if truthy name && negb (mem name tools)
        then tool_names_from rest (tools ++ [name])
        else tool_names_from rest tools
      else tool_names_from rest tools
  | _ :: rest => tool_names_from rest tools
  end.

Definition _extract_tool_names (content : json) : list json :=
  match content with
  | JArr blocks => tool_names_from blocks []
  | _ => []
  end.

Definition compute_content_hash (env : Env) (content : string) : string :=
  md5_hexdigest env content.

Definition _finalize_turn (env : Env) (turn : Pending) (index : nat) : Turn :=
  let raw_jsonl := Py.join Py.nl (p_raw_lines turn) in
  let assistant_text := Py.join Py.nl (p_assistant_texts turn) in
  mkTurn index (p_user_message turn) assistant_text (p_tool_names turn)
         (p_model_name turn) (p_started_at turn) (p_ended_at turn)
         raw_jsonl (compute_content_hash env raw_jsonl).

Definition is_command_text (t : string) : bool :=
  Py.truthy t
  && (Py.startswith "<command-name>" (Py.strip t)
      || Py.startswith "<local-command" (Py.strip t)).

(** First pass: the messages of the file, in order. *)
Fixpoint collect_messages (env : Env) (lines : list string)
    : Result (list Message) :=
  match lines with
  | [] => OK []
  | raw :: rest =>
      let line := Py.strip raw in
      if negb (Py.truthy line) then collect_messages env rest
      else
        match json_loads env line with
        | None => collect_messages env rest
        | Some (JObj obj) =>
            let msg_type := dict_get "type" JNull obj in
            if negb (is_str msg_type "user" || is_str msg_type "assistant")
            then collect_messages env rest
            else if truthy (dict_get "isSidechain" JNull obj)
                    || truthy (dict_get "isMeta" JNull obj)
            then collect_messages env rest
            else
              match dict_get "message" (JObj []) obj with
              | JObj message =>
                  let role := dict_get "role" (JStr "") message in
                  let content := dict_get "content" (JStr "") message in
                  let* text_content := _extract_text_content content in
                  if is_command_text text_content
                  then collect_messages env rest
                  else
                    let* ms := collect_messages env rest in
                    OK (mkMessage role content text_content
                          (dict_get "timestamp" (JStr "") obj)
                          (dict_get "model" (JStr "") message)
                          line :: ms)
              | _ => collect_messages env rest
              end
        | Some _ => Raise "AttributeError"
        end
  end.

(** [if current_turn and current_turn.get("user_message"): finalize, append] *)
Definition flush_turn (env : Env) (turns : list Turn)
    (current_turn : option Pending) : list Turn :=
  match current_turn with
  | Some t =>
      if Py.truthy (p_user_message t)
      then turns ++ [_finalize_turn env t (List.length turns)]
      else turns
  | None => turns
  end.

Definition add_tools (tools : list json) (current : list json) : list json :=
  fold_left (fun acc t => if mem t acc then acc else acc ++ [t]) tools current.

Definition append_assistant (msg : Message) (t : Pending) : Pending :=
  mkPending (p_user_message t)
    (if Py.truthy (text msg) then p_assistant_texts t ++ [text msg]
     else p_assistant_texts t)
    (add_tools (_extract_tool_names (content msg)) (p_tool_names t))
    (if truthy (model msg) && negb (truthy (p_model_name t))
     then model msg else p_model_name t)
    (p_started_at t)
    (if truthy (timestamp msg) then timestamp msg else p_ended_at t)
    (p_raw_lines t ++ [raw_line msg]).

(** One iteration of the second pass. *)
Definition group_step (env : Env) (st : list Turn * option Pending)
    (msg : Message) : list Turn * option Pending :=
  let (turns, current_turn) := st in
  if is_str (role msg) "user" then
    (flush_turn env turns current_turn,
     Some (mkPending (text msg) [] [] JNull (timestamp msg) (timestamp msg)
                     [raw_line msg]))
  else if is_str (role msg) "assistant" then
    match current_turn with
    | Some t => (turns, Some (append_assistant msg t))
    | None => (turns, None)
    end
  else (turns, current_turn).

(** Second pass: group into turns. *)
Definition group_turns (env : Env) (messages : list Message) : list Turn :=
  let (turns, current_turn) := fold_left (group_step env) messages ([], None) in
  flush_turn env turns current_turn.

Definition parse_lines (env : Env) (lines : list string) : Result (list Turn) :=
  let* messages := collect_messages env lines in
  OK (group_turns env messages).

(** [parse_session_into_turns(path)] *)
Definition parse_session_into_turns (env : Env) (path : string)
    : Result (list Turn) :=
  match read_lines env path with
  | None => OK []
  | Some lines => parse_lines env lines
  end.

(** A record that does not open a turn. *)
Definition not_user (m : Message) : Prop := is_str (role m) "user" = false.

(** What is left of the message list is empty or starts with a user record. *)
Definition at_turn_start (msgs : list Message) : Prop :=
  match msgs with
  | [] => True
  | m :: _ => is_str (role m) "user" = true
  end.

(** The invariant of the list of finalized turns. *)
Definition numbered (ts : list Turn) : Prop :=
  Forall (fun t => user_message t <> EmptyString) ts
  /\ map turn_number ts = seq 0 (List.length ts).

End Parser.

(* ===================================================================== *)
(** * context/artifact_extractor.py                                       *)
(* ===================================================================== *)

Module Artifacts.
Import Json Exc World.

Record Artifact := mkArtifact {
  artifact_type : string;
  artifact_value : json;
  artifact_metadata : list (string * json)
}.

Record TurnArtifacts := mkTurnArtifacts {
  artifacts : list Artifact;
  files_read : list json;
  files_written : list json;
  files_edited : list json;
  commands_run : list json;
  errors_encountered : list string;
  tool_call_count : nat
}.

Definition no_artifacts : TurnArtifacts := mkTurnArtifacts [] [] [] [] [] [] 0.

(** [v[:n]]: a [str] or a list can be sliced, anything else raises. *)
Definition slice (n : nat) (v : json) : Result json :=
  match v with
  | JStr s => OK (JStr (Py.take n s))
  | JArr l => OK (JArr (firstn n l))
  | _ => Raise "TypeError"
  end.

(** [a or b] *)
Definition or_else (a b : json) : json := if truthy a then a else b.

(** [str(v)] inside an f-string *)
Definition format (env : Env) (v : json) : string :=
  match v with
  | JStr s => s
  | _ => py_str env v
  end.

(** A key of [_TOOL_TYPE_MAP.get] must be hashable. *)
Definition hashable (v : json) : bool :=
  match v with
  | JArr _ | JObj _ => false
  | _ => true
  end.

Definition emit (a : Artifact) (r : TurnArtifacts) : TurnArtifacts :=
  mkTurnArtifacts (artifacts r ++ [a]) (files_read r) (files_written r)
    (files_edited r) (commands_run r) (errors_encountered r)
    (tool_call_count r).

Definition count_call (r : TurnArtifacts) : TurnArtifacts :=
  mkTurnArtifacts (artifacts r) (files_read r) (files_written r)
    (files_edited r) (commands_run r) (errors_encountered r)
    (S (tool_call_count r)).

Definition add_file_read (p : json) (r : TurnArtifacts) : TurnArtifacts :=
  mkTurnArtifacts (artifacts r) (files_read r ++ [p]) (files_written r)
    (files_edited r) (commands_run r) (errors_encountered r)
    (tool_call_count r).

Definition add_file_written (p : json) (r : TurnArtifacts) : TurnArtifacts :=
  mkTurnArtifacts (artifacts r) (files_read r) (files_written r ++ [p])
    (files_edited r) (commands_run r) (errors_encountered r)
    (tool_call_count r).

Definition add_file_edited (p : json) (r : TurnArtifacts) : TurnArtifacts :=
  mkTurnArtifacts (artifacts r) (files_read r) (files_written r)
    (files_edited r ++ [p]) (commands_run r) (errors_encountered r)
    (tool_call_count r).

Definition add_command (c : json) (r : TurnArtifacts) : TurnArtifacts :=
  mkTurnArtifacts (artifacts r) (files_read r) (files_written r)
    (files_edited r) (commands_run r ++ [c]) (errors_encountered r)
    (tool_call_count r).

Definition add_error (e : string) (r : TurnArtifacts) : TurnArtifacts :=
  mkTurnArtifacts (artifacts r) (files_read r) (files_written r)
    (files_edited r) (commands_run r) (errors_encountered r ++ [e])
    (tool_call_count r).

Definition _process_tool_use (env : Env) (block : list (string * json))
    (result : TurnArtifacts) : Result TurnArtifacts :=
  let tool_name := dict_get "name" (JStr "") block in
  let tool_input :=
    match dict_get "input" (JObj []) block with
    | JObj i => i
    | _ => []
    end in
  let result := count_call result in
  if negb (hashable tool_name) then Raise "TypeError"
  else if is_str tool_name "Read" then
    let path := dict_get "file_path" (JStr "") tool_input in
    if truthy path then
      OK (emit (mkArtifact "file_read" path [("tool", tool_name)]%string)
               (add_file_read path result))
    else OK result
  else if is_str tool_name "Glob" || is_str tool_name "Grep" then
    let pattern := dict_get "pattern" (JStr "") tool_input in
    let path := dict_get "path" (JStr "") tool_input in
    OK (emit (mkArtifact "file_read" (or_else pattern path)
                [("tool", tool_name); ("pattern", pattern); ("path", path)]%string)
             result)
  else if is_str tool_name "Write" then
    let path := dict_get "file_path" (JStr "") tool_input in
    if truthy path then
      OK (emit (mkArtifact "file_write" path [("tool", tool_name)]%string)
               (add_file_written path result))
    else OK result
  else if is_str tool_name "Edit" || is_str tool_name "NotebookEdit" then
    let path := or_else (dict_get "file_path" (JStr "") tool_input)
                        (dict_get "notebook_path" (JStr "") tool_input) in
    if truthy path then
      let* old := slice 100 (or_else (dict_get "old_string" (JStr "") tool_input)
                                     (JStr "")) in
      OK (emit (mkArtifact "file_edit" path
                  [("tool", tool_name); ("old_string", old)]%string)
               (add_file_edited path result))
    else OK result
  else if is_str tool_name "Bash" then
    let command := dict_get "command" (JStr "") tool_input in
    if truthy command then
      let* value := slice 500 command in
      OK (emit (mkArtifact "command" value [("tool", tool_name)]%string)
               (add_command command result))
    else OK result
  else if is_str tool_name "Task" then
    let* prompt := slice 200 (dict_get "prompt" (JStr "") tool_input) in
    OK (emit (mkArtifact "tool_call" (JStr ("Task: " +:+ format env prompt))
                [("tool", tool_name);
                 ("subagent_type", dict_get "subagent_type" (JStr "") tool_input)]%string)
             result)
  else
    OK (emit (mkArtifact "tool_call" tool_name
                [("tool", tool_name);
                 ("input_keys", JArr (map JStr (firstn 10 (map fst tool_input))))]%string)
             result).

(** The comprehension of [_process_tool_result]; [join] raises on a text
    that is not a [str]. *)
Fixpoint result_text_parts (blocks : list json) : Result (list string) :=
  match blocks with
  | [] => OK []
  | JObj b :: rest =>
      if is_str (dict_get "type" JNull b) "text" then
        match dict_get "text" (JStr "") b with
        | JStr t => let* ts := result_text_parts rest in OK (t :: ts)
        | _ => Raise "TypeError"
        end
      else result_text_parts rest
  | JArr _ :: rest | JNull :: rest | JBool _ :: rest | JInt _ :: rest
  | JFloat _ :: rest | JStr _ :: rest => result_text_parts rest
  end.

Definition _process_tool_result (block : list (string * json))
    (result : TurnArtifacts) : Result TurnArtifacts :=
  let is_error := dict_get "is_error" (JBool false) block in
  if negb (truthy is_error) then OK result
  else
    let* content :=
      match dict_get "content" (JStr "") block with
      | JArr l => let* ts := result_text_parts l in OK (JStr (Py.join Py.nl ts))
      | v => OK v
      end in
    match content with
    | JStr s =>
        if Py.truthy (Py.strip s) then
          let error_msg := Py.take 500 (Py.strip s) in
          OK (emit (mkArtifact "error" (JStr error_msg) [])
                   (add_error error_msg result))
        else OK result
    | _ => OK result
    end.

Fixpoint process_blocks (env : Env) (blocks : list json)
    (result : TurnArtifacts) : Result TurnArtifacts :=
  match blocks with
  | [] => OK result
  | JObj block :: rest =>
      let block_type := dict_get "type" (JStr "") block in
      if is_str block_type "tool_use" then
        let* r := _process_tool_use env block result in
        process_blocks env rest r
      else if is_str block_type "tool_result" then
        let* r := _process_tool_result block result in
        process_blocks env rest r
      else process_blocks env rest result
  | JArr _ :: rest | JNull :: rest | JBool _ :: rest | JInt _ :: rest
  | JFloat _ :: rest | JStr _ :: rest => process_blocks env rest result
  end.

Fixpoint process_lines (env : Env) (lines : list string)
    (result : TurnArtifacts) : Result TurnArtifacts :=
  match lines with
  | [] => OK result
  | raw :: rest =>
      let line := Py.strip raw in
      if negb (Py.truthy line) then process_lines env rest result
      else
        match json_loads env line with
        | None => process_lines env rest result
        | Some (JObj obj) =>
            match dict_get "message" (JObj []) obj with
            | JObj message =>
                match dict_get "content" JNull message with
                | JArr blocks =>
                    let* r := process_blocks env blocks result in
                    process_lines env rest r
                | _ => process_lines env rest result
                end
            | _ => process_lines env rest result
            end
        | Some _ => Raise "AttributeError"
        end
  end.

Definition extract_artifacts (env : Env) (raw_jsonl : string)
    : Result TurnArtifacts :=
  if negb (Py.truthy raw_jsonl) then OK no_artifacts
  else process_lines env (Py.split (ascii_of_nat 10) raw_jsonl) no_artifacts.

(** A [tool_use] block of the turn with name Bash and command [c]. *)
Definition bash_block_in (env : Env) (raw_jsonl : string) (c : string) : Prop :=
  exists raw obj message blocks block input,
    In raw (Py.split (ascii_of_nat 10) raw_jsonl)
    /\ Py.truthy (Py.strip raw) = true
    /\ json_loads env (Py.strip raw) = Some (JObj obj)
    /\ dict_get "message" (JObj []) obj = JObj message
    /\ dict_get "content" JNull message = JArr blocks
    /\ In (JObj block) blocks
    /\ dict_get "type" (JStr "") block = JStr "tool_use"
    /\ dict_get "name" (JStr "") block = JStr "Bash"
    /\ dict_get "input" (JObj []) block = JObj input
    /\ dict_get "command" (JStr "") input = JStr c.

Definition command_artifact (c : string) : Artifact :=
  mkArtifact "command" (JStr (Py.take 500 c)) [("tool", JStr "Bash")]%string.

(** "the command truncated to 500 chars is added to commands_run and a
    command artifact is emitted" *)
Definition stated_bash_recorded (env : Env) (raw_jsonl : string) : Prop :=
  forall c r,
    bash_block_in env raw_jsonl c ->
    c <> EmptyString ->
    extract_artifacts env raw_jsonl = OK r ->
    In (JStr (Py.take 500 c)) (commands_run r)
    /\ In (command_artifact c) (artifacts r).

(** Processing only ever appends to the command list and the artifacts. *)
Definition grows (r r' : TurnArtifacts) : Prop :=
  incl (commands_run r) (commands_run r')
  /\ incl (artifacts r) (artifacts r').

End Artifacts.

(* ===================================================================== *)
(** * context/project_state.py and context/classifier.py                  *)
(* ===================================================================== *)

Module ProjectStateStore.
Import World.

Fixpoint workspace_slug (w : string) (m : list (string * string))
    : option string :=
  match m with
  | [] => None
  | (k, v) :: m' => if String.eqb w k then Some v else workspace_slug w m'
  end.

Definition get_active_project (env : Env) (workspace : option string)
    : option string :=
  let state := project_state env in
  let ws_slug :=
    if Py.otruthy workspace
    then workspace_slug (default EmptyString workspace) (state_workspaces state)
    else None in
  if Py.otruthy ws_slug then ws_slug else state_global state.

End ProjectStateStore.

Module Classifier.
Import World ProjectStateStore.

Definition _CODE_PATTERNS : list string :=
  ["bug"; "fix"; "error"; "refactor"; "test"; "function"; "class"; "module";
   "import"; "file"; "code"; "implement"; "build"; "compile"; "lint";
   "deploy"]%string.
Definition _EMAIL_PATTERNS : list string :=
  ["email"; "reply"; "send"; "draft"; "inbox"; "gmail"; "message";
   "forward"]%string.
Definition _TASK_PATTERNS : list string :=
  ["task"; "todo"; "priority"; "deadline"; "sprint"; "kanban"; "backlog";
   "assign"; "commit"; "milestone"]%string.
Definition _META_PATTERNS : list string :=
  ["focus"; "vault"; "sync"; "config"; "setup"; "hook"; "daemon";
   "worker"]%string.

(** The classification; [file_paths], which [classify] fills from
    [extract_file_paths_from_text] and which plays no part in the
    confidence, is left out. *)
Record PromptClassification := mkClassification {
  project_slugs : list string;
  person_names : list string;
  query_type : string;
  workspace_project : option string;
  explicit_project : option string;
  confidence : Q
}.

Definition no_classification : PromptClassification :=
  mkClassification [] [] "general" None None 0.

(** The entities [load_entities] read: (slug, name) and (name, email). *)
Record PromptClassifier := mkClassifier {
  _projects : list (string * string);
  _people : list (string * option string)
}.

Definition is_word_opt (c : option ascii) : bool :=
  match c with
  | Some a => Py.is_word a
  | None => false
  end.

(** [\b] between the characters [before] and [after] *)
Definition boundary (before after : option ascii) : bool :=
  xorb (is_word_opt before) (is_word_opt after).

Definition head_char (s : string) : option ascii :=
  match s with
  | EmptyString => None
  | String c _ => Some c
  end.

Fixpoint last_char (dflt : option ascii) (s : string) : option ascii :=
  match s with
  | EmptyString => dflt
  | String c s' => last_char (Some c) s'
  end.

(** [re.search(prefix + re.escape(pattern) + suffix, text)], scanning
    [text] from the character after [prev]. *)
Fixpoint search_from (prefix suffix : bool) (pattern : string)
    (prev : option ascii) (text : string) : bool :=
  (Py.startswith pattern text
   && (negb prefix || boundary prev (head_char text))
   && (negb suffix
       || boundary (last_char prev pattern)
                   (head_char (Py.drop (String.length pattern) text))))
  || match text with
     | EmptyString => false
     | String c text' => search_from prefix suffix pattern (Some c) text'
     end.

Definition _word_match (pattern text : string) : bool :=
  let prefix :=
    match head_char pattern with
    | Some c => Py.isalnum c
    | None => false
    end in
  let suffix :=
    match last_char None pattern with
    | Some c => Py.isalnum c
    | None => false
    end in
  search_from prefix suffix pattern None text.

(** [re.compile(r'\b(w1|w2|...)\b', re.IGNORECASE).search(prompt)] *)
Definition pattern_search (words : list string) (prompt : string) : bool :=
  existsb (fun w => search_from true true w None (Py.lower prompt)) words.

Definition _detect_query_type (prompt : string) : string :=
  if pattern_search _CODE_PATTERNS prompt then "code"
  else if pattern_search _EMAIL_PATTERNS prompt then "email"
  else if pattern_search _TASK_PATTERNS prompt then "task"
  else if pattern_search _META_PATTERNS prompt then "meta"
  else "general".

(** [max(a, b)] *)
Definition qmax (a b : Q) : Q := if Qle_bool b a then a else b.
(** [a < b] *)
Definition qlt (a b : Q) : bool := negb (Qle_bool b a).

Definition _compute_confidence (classification : PromptClassification) : Q :=
  let score := 0%Q in
  let score :=
    if Py.otruthy (explicit_project classification)
    then qmax score (9 # 10) else score in
  let score :=
    match project_slugs classification with
    | [] => score
    | _ => qmax score (8 # 10)
    end in
  let score :=
    match person_names classification with
    | [] => score
    | _ => qmax score (7 # 10)
    end in
  let score :=
    if Py.otruthy (workspace_project classification) && qlt score (5 # 10)
    then (5 # 10)%Q else score in
  let score :=
    if negb (String.eqb (query_type classification) "general")
       && qlt score (3 # 10)
    then (3 # 10)%Q else score in
  if Qeq_bool score 0 then (1 # 10)%Q else score.

(** [x not in l], then [l.append(x)] *)
Definition add_unique (x : string) (l : list string) : list string :=
  if existsb (String.eqb x) l then l else l ++ [x].

(** [Path(cwd).name]: the last component that is neither empty nor a dot. *)
Definition path_name (cwd : string) : string :=
  List.last
    (List.filter (fun p => negb (String.eqb p "" || String.eqb p "."))
                 (Py.split "/"%char cwd))
    EmptyString.

Definition match_projects (projects : list (string * string))
    (prompt_lower : string) (slugs : list string) : list string :=
  fold_left
    (fun acc p =>
       let '(slug, name) := p in
       if _word_match slug prompt_lower then add_unique slug acc
       else if Py.truthy name && _word_match (Py.lower name) prompt_lower
       then add_unique slug acc
       else acc)
    projects slugs.

Definition match_people (people : list (string * option string))
    (prompt_lower : string) : list string :=
  fold_left
    (fun acc p =>
       let name := fst p in
       if (2 <? String.length name)%nat
          && _word_match (Py.lower name) prompt_lower
       then add_unique name acc
       else acc)
    people [].

Definition classify (env : Env) (self : PromptClassifier) (prompt : string)
    (cwd : option string) : PromptClassification :=
  if negb (Py.truthy prompt) || (String.length (Py.strip prompt) <? 3)%nat
  then no_classification
  else
    let prompt_lower := Py.lower prompt in
    let explicit := get_active_project env cwd in
    let explicit_project :=
      if Py.otruthy explicit then explicit else None in
    let slugs :=
      if Py.otruthy explicit then [default EmptyString explicit] else [] in
    let workspace_project :=
      if Py.otruthy cwd
      then Some (Py.lower (path_name (default EmptyString cwd)))
      else None in
    let slugs := match_projects (_projects self) prompt_lower slugs in
    let people := match_people (_people self) prompt_lower in
    let result :=
      mkClassification slugs people (_detect_query_type prompt)
        workspace_project explicit_project 0 in
    mkClassification slugs people (query_type result) workspace_project
      explicit_project (_compute_confidence result).

(** "no project slug matched, no person name matched, no workspace project
    is set, no explicit project is set, and query_type = general" *)
Definition nothing_matched (r : PromptClassification) : Prop :=
  project_slugs r = [] /\ person_names r = []
  /\ Py.otruthy (workspace_project r) = false
  /\ explicit_project r = None
  /\ query_type r = "general"%string.

Definition short_prompt (prompt : string) : Prop :=
  prompt = EmptyString \/ (String.length (Py.strip prompt) < 3)%nat.

(** The claim about the confidence, for a comparison [below] with 0.1. *)
Definition confidence_contract (below : Q -> Q -> Prop)
    (r : PromptClassification) : Prop :=
  (0 <= confidence r)%Q /\ (confidence r <= 1)%Q
  /\ (below (confidence r) (1 # 10) <-> nothing_matched r).

Definition no_entities : PromptClassifier := mkClassifier [] [].

Definition apollo_classifier : PromptClassifier :=
  mkClassifier [("apollo", "Apollo Program")]%string
               [("Alice Nguyen", None)]%string.

End Classifier.

(* ===================================================================== *)
(** * context/formatter.py                                                *)
(* ===================================================================== *)

Module Formatter.

(** [retriever.ContextBlock]; the relevance score, a float in the source,
    is a rational here: only its order is used. *)
Record ContextBlock := mkBlock {
  source_type : string;
  source_id : string;
  title : string;
  content : string;
  relevance_score : Q
}.

Definition _TYPE_LABELS : list (string * string) :=
  [("conversation", "Conv"); ("task", "Task"); ("email", "Email");
   ("commitment", "Commitment"); ("person", "Person"); ("sprint", "Sprint");
   ("file_context", "File"); ("error", "Error"); ("skill", "Skill")]%string.

Fixpoint label_of (k : string) (m : list (string * string)) : option string :=
  match m with
  | [] => None
  | (k', v) :: m' => if String.eqb k k' then Some v else label_of k m'
  end.

Definition _format_single_block (block : ContextBlock) : string :=
  let label :=
    match label_of (source_type block) _TYPE_LABELS with
    | Some l => l
    | None => Py.title (source_type block)
    end in
  "[" +:+ label +:+ "] " +:+ content block.

Definition _estimate_tokens (text : string) : Z :=
  Z.max 1 (Z.of_nat (Py.len text) / 4).

(** [sorted(blocks, key=relevance_score, reverse=True)]: stable, so
    blocks of equal relevance keep their order. *)
Fixpoint insert_desc (x : ContextBlock) (l : list ContextBlock)
    : list ContextBlock :=
  match l with
  | [] => [x]
  | y :: l' =>
      if Qle_bool (relevance_score y) (relevance_score x)
      then x :: y :: l'
      else y :: insert_desc x l'
  end.

Definition sorted_desc (blocks : list ContextBlock) : list ContextBlock :=
  fold_right insert_desc [] blocks.

Definition header : string := "## Focus Context" +:+ Py.nl +:+ Py.nl.

(** The overflow note, as line 71 of the source file holds it: where a
    dash is meant, the literal has the three characters U+00E2, U+20AC and
    U+201D (the bytes of a dash read in another encoding and stored
    again), which are the eight bytes c3 a2 e2 82 ac e2 80 9d here. *)
Definition overflow_note (overflow : nat) : string :=
  Py.nl +:+ Py.nl +:+ "(+" +:+ Py.str_of_nat overflow
  +:+ " more â€” run `focus search` for details)".

(** The variables of the loop. *)
Record Loop := mkLoop {
  remaining : Z;
  formatted_parts : list string;
  included : nat;
  overflow : nat
}.

Definition loop_body (st : Loop) (block : ContextBlock) : Loop :=
  let formatted := _format_single_block block in
  let tokens := _estimate_tokens formatted in
  if tokens <=? remaining st then
    mkLoop (remaining st - tokens) (formatted_parts st ++ [formatted])
           (S (included st)) (overflow st)
  else
    mkLoop (remaining st) (formatted_parts st) (included st)
           (S (overflow st)).

Definition format_context_blocks (blocks : list ContextBlock)
    (max_tokens : Z) : string :=
  match blocks with
  | [] => EmptyString
  | _ =>
      let sorted_blocks := sorted_desc blocks in
      let header_tokens := _estimate_tokens header in
      let st := fold_left loop_body sorted_blocks
                  (mkLoop (max_tokens - header_tokens) [] 0 0) in
      match formatted_parts st with
      | [] => EmptyString
      | _ =>
          let result := header +:+ Py.join Py.nl (formatted_parts st) in
          if (0 <? overflow st)%nat
          then result +:+ overflow_note (overflow st)
          else result
      end
  end.

(** ** The formatter in the specification's words *)

Definition cost (b : ContextBlock) : Z :=
  Z.max 1 (Z.of_nat (String.length (_format_single_block b)) / 4).

(** What the loop keeps: every block that fits what is left at its turn. *)
Fixpoint greedy_fit (budget : Z) (bs : list ContextBlock)
    : list ContextBlock :=
  match bs with
  | [] => []
  | b :: rest =>
      if cost b <=? budget then b :: greedy_fit (budget - cost b) rest
      else greedy_fit budget rest
  end.

(** A note with a given dash and given quotes around [focus search]. *)
Definition note_text (dash quote : string) (n : nat) : string :=
  Py.nl +:+ Py.nl +:+ "(+" +:+ Py.str_of_nat n
  +:+ " more " +:+ dash +:+ " run " +:+ quote +:+ "focus search" +:+ quote
  +:+ " for details)".

(** The dash U+2014 and the characters the source file has in its place. *)
Definition em_dash : string := "—".
Definition source_dash : string := "â€”".

(** The suffix as the specification spells it: a dash, single quotes. *)
Definition stated_note (n : nat) : string := note_text em_dash "'" n.

(** The output for the blocks [kept] out of [total] blocks. *)
Definition render (note : nat -> string) (total : nat)
    (kept : list ContextBlock) : string :=
  match kept with
  | [] => EmptyString
  | _ =>
      let body := header +:+ Py.join Py.nl (map _format_single_block kept) in
      if (List.length kept <? total)%nat
      then body +:+ note (total - List.length kept)%nat
      else body
  end.

Definition header_cost : Z := Z.max 1 (Z.of_nat (String.length header) / 4).

(** The claim: the blocks kept as the loop keeps them (the specification
    asks that a block is included if any single block fits), the note as
    the specification spells it. *)
Definition stated_format (blocks : list ContextBlock) (max_tokens : Z) : string :=
  render stated_note (List.length blocks)
    (greedy_fit (max_tokens - header_cost) (sorted_desc blocks)).

Definition by_relevance_desc (a b : ContextBlock) : Prop :=
  (relevance_score b <= relevance_score a)%Q.

Fixpoint total_cost (bs : list ContextBlock) : Z :=
  match bs with
  | [] => 0
  | b :: rest => cost b + total_cost rest
  end.

(** ** Sample blocks *)

Definition big_block : ContextBlock :=
  mkBlock "task" "t-1" "big" (Py.replicate "x" 400) (9 # 10).

Definition small_block : ContextBlock :=
  mkBlock "skill" "s-1" "small" "b" (5 # 10).

End Formatter.

(* ===================================================================== *)
(** * context/recorder.py                                                 *)
(* ===================================================================== *)

Module Recorder.
Import Json Exc World Models.

(** The summary dict [record_session] returns. *)
Record Summary := mkSummary {
  sum_session_id : string;
  turns_recorded : nat;
  turns_skipped : nat;
  error : option string
}.

(** [ts.replace("Z", "+00:00")] *)
Fixpoint replace_Z (s : string) : string :=
  match s with
  | EmptyString => EmptyString
  | String c s' =>
      if Ascii.eqb c "Z" then "+00:00" +:+ replace_Z s'
      else String c (replace_Z s')
  end.

(** [_parse_timestamp]: a falsy value gives [None]; a [str] is parsed,
    [ValueError] giving [None]; any other value has no [replace]. *)
Definition _parse_timestamp (env : Env) (ts : json)
    : Result (option datetime) :=
  if negb (truthy ts) then OK None
  else
    match ts with
    | JStr s => OK (fromisoformat env (replace_Z s))
    | _ => Raise "AttributeError"
    end.

(** What the driver accepts for a [Text] column. *)
Definition db_text (v : json) : Result (option string) :=
  match v with
  | JNull => OK None
  | JStr s => OK (Some s)
  | _ => Raise "DataError"
  end.

(** What the driver accepts for an [ARRAY(String)] column. *)
Fixpoint db_text_array (l : list json) : Result (list string) :=
  match l with
  | [] => OK []
  | JStr s :: rest => let* ss := db_text_array rest in OK (s :: ss)
  | _ :: rest => Raise "DataError"
  end.

(** [select(AgentSession).where(AgentSession.session_id == session_id)] *)
Definition find_session (db : DB) (sid : string) : option AgentSession :=
  find (fun s => String.eqb (session_id s) sid) (sessions db).

(** [{t.content_hash for t in agent_session.turns}] *)
Definition hashes_of (db : DB) (agent_session : UUID) : gset string :=
  list_to_set
    (map content_hash
       (List.filter (fun t => N.eqb (turn_session t) agent_session) (turns db))).

(** The unique constraint on [(session_id, turn_number)]. *)
Definition turn_number_taken (db : DB) (agent_session : UUID) (n : nat) : bool :=
  existsb (fun t => N.eqb (turn_session t) agent_session
                    && Nat.eqb (turn_number t) n)
          (turns db).

(** The loop over the parsed turns. *)
Fixpoint record_turns (env : Env) (agent_session : UUID)
    (existing_hashes : gset string) (parsed : list Parser.Turn) (db : DB)
    (recorded skipped : nat) : Result (DB * nat * nat) :=
  match parsed with
  | [] => OK (db, recorded, skipped)
  | turn_data :: rest =>
      if bool_decide (Parser.content_hash turn_data ∈ existing_hashes) then
        record_turns env agent_session existing_hashes rest db
                     recorded (S skipped)
      else
        let* started := _parse_timestamp env (Parser.started_at turn_data) in
        let* ended := _parse_timestamp env (Parser.ended_at turn_data) in
        let (tid, db1) := uuid4 db in
        let* model := db_text (Parser.model_name turn_data) in
        let* tools := db_text_array (Parser.tool_names turn_data) in
        if turn_number_taken db1 agent_session (Parser.turn_number turn_data)
        then Raise "IntegrityError"
        else
          let turn :=
            mkTurn tid agent_session (Parser.turn_number turn_data)
                   (Some (Parser.user_message turn_data)) None None
                   (Parser.content_hash turn_data) model tools
                   (option_map instant started) (option_map instant ended) in
          let content :=
            mkContent tid (Parser.raw_jsonl turn_data)
                      (Some (Parser.assistant_text turn_data))
                      (String.length (Parser.raw_jsonl turn_data)) in
          let db2 := with_turns db1 (turns db1 ++ [turn]) in
          let db3 := with_contents db2 (contents db2 ++ [content]) in
          record_turns env agent_session existing_hashes rest db3
                       (S recorded) skipped
  end.

(** [[_parse_timestamp(t.get("started_at")) for t in turns]], the [None]s
    dropped. *)
Fixpoint valid_timestamps (env : Env) (parsed : list Parser.Turn)
    : Result (list datetime) :=
  match parsed with
  | [] => OK []
  | t :: rest =>
      let* ts := _parse_timestamp env (Parser.started_at t) in
      let* tss := valid_timestamps env rest in
      OK (match ts with Some z => z :: tss | None => tss end)
  end.

(** [min] and [max] compare the elements with each other, and a naive
    and an aware [datetime] do not compare ([TypeError]): the elements
    compare when all are of the kind of the first. *)
Definition comparable (l : list datetime) : bool :=
  match l with
  | [] => true
  | d :: l' => forallb (fun x => Bool.eqb (tz_aware x) (tz_aware d)) l'
  end.

Definition list_min (z : Z) (l : list Z) : Z := fold_left Z.min l z.
Definition list_max (z : Z) (l : list Z) : Z := fold_left Z.max l z.

Definition update_metadata (valid : list Z) (count : Z) (path : string)
    (s : AgentSession) : AgentSession :=
  mkSession (sess_id s) (session_id s) (Some path) (workspace_path s)
    (session_title s) (session_summary s)
    (match valid with
     | [] => sess_started_at s
     | z :: l =>
         match sess_started_at s with
         | Some t => Some t
         | None => Some (list_min z l)
         end
     end)
    (match valid with
     | [] => last_activity_at s
     | z :: l => Some (list_max z l)
     end)
    (project_id s) count (is_processed s).

Definition update_session (f : AgentSession -> AgentSession) (sid : UUID)
    (db : DB) : DB :=
  with_sessions db
    (map (fun s => if N.eqb (sess_id s) sid then f s else s) (sessions db)).

Definition record_session (env : Env) (db : DB) (session_id : string)
    (transcript_path : string) (workspace_path : string)
    : Result (DB * Summary) :=
  match read_lines env transcript_path with
  | None => OK (db, mkSummary session_id 0 0 (Some "file_not_found"%string))
  | Some _ =>
      let* parsed := Parser.parse_session_into_turns env transcript_path in
      match parsed with
      | [] => OK (db, mkSummary session_id 0 0 None)
      | _ =>
          let '(agent_session, existing_hashes, db1) :=
            match find_session db session_id with
            | None =>
                let (sid, db0) := uuid4 db in
                let s := mkSession sid session_id (Some transcript_path)
                           (Some workspace_path) None None None None None
                           0 false in
                (sid, (∅ : gset string),
                 with_sessions db0 (sessions db0 ++ [s]))
            | Some s => (sess_id s, hashes_of db (sess_id s), db)
            end in
          let* '(db2, turns_recorded, turns_skipped) :=
            record_turns env agent_session existing_hashes parsed db1 0 0 in
          let* valid := valid_timestamps env parsed in
          (* [max(valid_timestamps)] is called whenever the list is not
             empty, [min] only for a session without [started_at] *)
          if negb (comparable valid) then Raise "TypeError"
          else
            let count :=
              Z.of_nat (size existing_hashes) + Z.of_nat turns_recorded in
            OK (update_session
                  (update_metadata (map instant valid) count transcript_path)
                  agent_session db2,
                mkSummary session_id turns_recorded turns_skipped None)
      end
  end.

(** ** Conditions on the database and on the transcript *)

(** [uuid4] returns ids that are not in use: every id in the tables was
    drawn before. *)
Definition db_wf (db : DB) : Prop :=
  Forall (fun s => (sess_id s < next_uuid db)%N) (sessions db)
  /\ Forall (fun t => (turn_id t < next_uuid db)%N
                      /\ (turn_session t < next_uuid db)%N) (turns db).

(** A fresh session: no row of [agent_sessions] has this session id. *)
Definition fresh_session (db : DB) (sid : string) : Prop :=
  find_session db sid = None.

Definition text_or_null (v : json) : bool :=
  match v with
  | JNull | JStr _ => true
  | _ => false
  end.

Definition text_or_falsy (v : json) : bool :=
  match v with
  | JStr _ => true
  | _ => negb (truthy v)
  end.

Definition is_text (v : json) : bool :=
  match v with
  | JStr _ => true
  | _ => false
  end.

(** The records follow the transcript format: model and tool names are
    strings, timestamps are strings (or absent). *)
Definition well_typed (t : Parser.Turn) : Prop :=
  text_or_null (Parser.model_name t) = true
  /\ forallb is_text (Parser.tool_names t) = true
  /\ text_or_falsy (Parser.started_at t) = true
  /\ text_or_falsy (Parser.ended_at t) = true.

(** The start time of the turn, where it parses, carries a time zone
    ([aware] is [true]), as the timestamps of the transcript format do
    (they end in [Z]), or carries none ([aware] is [false]). *)
Definition zone_is (env : Env) (aware : bool) (t : Parser.Turn) : bool :=
  match _parse_timestamp env (Parser.started_at t) with
  | OK (Some d) => Bool.eqb (tz_aware d) aware
  | _ => true
  end.

(** The start times that parse all carry a time zone, or none does. *)
Definition same_zone (env : Env) (parsed : list Parser.Turn) : Prop :=
  exists aware, forallb (zone_is env aware) parsed = true.

End Recorder.

(* ===================================================================== *)
(** * context/worker.py                                                   *)
(* ===================================================================== *)

Module Worker.
Import Json Exc World Models.

(** [payload[k]] *)
Fixpoint payload_get (k : string) (p : list (string * string)) : option string :=
  match p with
  | [] => None
  | (k', v) :: p' => if String.eqb k k' then Some v else payload_get k p'
  end.

Definition _link_session_to_project (env : Env) (db : DB)
    (session_id workspace_path : string) : DB :=
  let dir_name := Py.lower (Classifier.path_name workspace_path) in
  if negb (Py.truthy dir_name) then db
  else
    let explicit_slug :=
      ProjectStateStore.get_active_project env (Some workspace_path) in
    let search_slug :=
      if Py.otruthy explicit_slug then default EmptyString explicit_slug
      else dir_name in
    match find (fun p => String.eqb (slug p) search_slug && proj_active p)
               (projects db) with
    | None => db
    | Some project =>
        match Recorder.find_session db session_id with
        | None => db
        | Some agent_session =>
            match project_id agent_session with
            | Some _ => db
            | None =>
                Recorder.update_session
                  (fun s =>
                     mkSession (sess_id s) (Models.session_id s)
                       (transcript_path s) (Models.workspace_path s)
                       (session_title s) (session_summary s)
                       (sess_started_at s) (last_activity_at s)
                       (Some (proj_id project)) (turn_count s)
                       (is_processed s))
                  (sess_id agent_session) db
            end
        end
    end.

(** The three [enqueue_job] calls of the loop body. *)
Definition enqueue_children (now : Z) (db : DB) (turn : AgentTurn) : DB :=
  let tid := uuid_str (turn_id turn) in
  let db := fst (Jobs.enqueue_job db now "turn_summary" [("turn_id", tid)]%string
                   (Some ("turn_summary:" +:+ tid)) 15 10) in
  let db := fst (Jobs.enqueue_job db now "entity_extract" [("turn_id", tid)]%string
                   (Some ("entity_extract:" +:+ tid)) 20 10) in
  fst (Jobs.enqueue_job db now "artifact_extract" [("turn_id", tid)]%string
         (Some ("artifact_extract:" +:+ tid)) 18 10).

(** [select(AgentTurn).where(session_id == sid).where(assistant_summary IS NULL)] *)
Definition unsummarized_turns (db : DB) (sid : UUID) : list AgentTurn :=
  List.filter
    (fun t => N.eqb (turn_session t) sid
              && match assistant_summary t with None => true | Some _ => false end)
    (turns db).

Definition process_session_job (env : Env) (db : DB) (now : Z)
    (job : FocusJob) : Result DB :=
  match payload_get "session_id" (payload job) with
  | None => Raise "KeyError"
  | Some session_id =>
      match payload_get "transcript_path" (payload job) with
      | None => Raise "KeyError"
      | Some transcript_path =>
          let workspace_path :=
            default EmptyString (payload_get "workspace_path" (payload job)) in
          let* '(db, result) :=
            Recorder.record_session env db session_id transcript_path
                                    workspace_path in
          if Py.otruthy (Recorder.error result)
          then Raise "RuntimeError"
          else
            let db :=
              if Py.truthy workspace_path
              then _link_session_to_project env db session_id workspace_path
              else db in
            if (0 <? Recorder.turns_recorded result)%nat then
              match Recorder.find_session db session_id with
              | None => OK db
              | Some agent_session =>
                  let turns := unsummarized_turns db (sess_id agent_session) in
                  let db := fold_left (enqueue_children now) turns db in
                  OK (fst (Jobs.enqueue_job db now "session_summary"
                             [("session_id", session_id)]%string
                             (Some ("session_summary:" +:+ session_id)) 25 10))
              end
            else OK db
      end
  end.

(** One line of the model's answer. *)
Definition read_answer_line (acc : string * string) (line : string)
    : string * string :=
  if Py.startswith "TITLE:" line then (Py.strip (Py.drop 6 line), snd acc)
  else if Py.startswith "SUMMARY:" line then (fst acc, Py.strip (Py.drop 8 line))
  else acc.

(** [_llm_summarize_turn]; the second component lists the contents sent
    to [client.messages.create]. *)
Definition _llm_summarize_turn (env : Env) (user_message : string)
    : Result (string * string) * list string :=
  if negb (Py.truthy (api_key env)) then (Raise "RuntimeError", [])
  else
    let sent := Py.take 1000 user_message in
    match messages_create env sent with
    | Raise e => (Raise e, [sent])
    | OK text =>
        let '(title, summary) :=
          fold_left read_answer_line
                    (Py.split (ascii_of_nat 10) (Py.strip text))
                    (EmptyString, EmptyString) in
        (OK (if Py.truthy title then title else Py.take 80 user_message,
             if Py.truthy summary then summary else Py.take 200 user_message),
         [sent])
    end.

(** [session.get(AgentTurn, turn_id)] *)
Definition get_turn (db : DB) (tid : UUID) : option AgentTurn :=
  find (fun t => N.eqb (turn_id t) tid) (turns db).

Definition summarized (title summary : string) (t : AgentTurn) : AgentTurn :=
  mkTurn (turn_id t) (turn_session t) (turn_number t) (user_message t)
         (Some summary) (Some title) (content_hash t) (model_name t)
         (tool_names t) (started_at t) (ended_at t).

Definition update_turn (f : AgentTurn -> AgentTurn) (tid : UUID) (db : DB) : DB :=
  with_turns db
    (map (fun t => if N.eqb (turn_id t) tid then f t else t) (turns db)).

Definition process_turn_summary_job (env : Env) (db : DB) (job : FocusJob)
    : Result (DB * list string) :=
  match payload_get "turn_id" (payload job) with
  | None => Raise "KeyError"
  | Some s =>
      match uuid_parse s with
      | None => Raise "ValueError"
      | Some tid =>
          match get_turn db tid with
          | None => OK (db, [])
          | Some turn =>
              if Py.otruthy (assistant_summary turn) then OK (db, [])
              else
                let user_msg :=
                  Py.take 200
                    (if Py.otruthy (user_message turn)
                     then default EmptyString (user_message turn)
                     else EmptyString) in
                if (String.length user_msg <? 50)%nat then
                  OK (update_turn
                        (summarized
                           (if Py.truthy user_msg then Py.take 80 user_msg
                            else "Short exchange")
                           user_msg)
                        tid db,
                      [])
                else
                  match _llm_summarize_turn env user_msg with
                  | (OK (title, summary), calls) =>
                      OK (update_turn (summarized title summary) tid db, calls)
                  | (Raise _, calls) =>
                      OK (update_turn
                            (summarized (Py.take 80 user_msg)
                                        (Py.take 200 user_msg))
                            tid db,
                          calls)
                  end
          end
      end
  end.

(** ** The handlers in the specification's words *)







Definition job_for_turn (tid : UUID) : FocusJob :=
  mkJob 0%N "turn_summary" (Some ("turn_summary:" +:+ uuid_str tid))
        [("turn_id", uuid_str tid)]%string Processing 15 1%N 10 None None 0 0.

Definition job_for_session (sid path workspace : string) : FocusJob :=
  mkJob 0%N "session_process" None
        [("session_id", sid); ("transcript_path", path);
         ("workspace_path", workspace)]%string
        Processing 5 1%N 10 None None 0 0.

(** The dedupe keys and kinds the fan-out uses for a turn. *)
Definition child_jobs_of (tid : UUID) : list (string * option string * Z) :=
  [("turn_summary", Some ("turn_summary:" +:+ uuid_str tid), 15);
   ("entity_extract", Some ("entity_extract:" +:+ uuid_str tid), 20);
   ("artifact_extract", Some ("artifact_extract:" +:+ uuid_str tid), 18)]%string.

Definition job_summary (j : FocusJob) : string * option string * Z :=
  (kind j, dedupe_key j, priority j).

Definition session_summary_job (sid : string) : string * option string * Z :=
  ("session_summary", Some ("session_summary:" +:+ sid), 25)%string.

(** A job with the dedupe key [k] is in the queue. *)
Definition has_key (k : option string) (db : DB) : Prop :=
  In k (map dedupe_key (jobs db)).

(** A turn of the session [sid] that still lacks [assistant_summary]. *)
Definition lacks_summary (db : DB) (sid : string) (t : AgentTurn) : Prop :=
  In t (turns db)
  /\ assistant_summary t = None
  /\ exists s, Recorder.find_session db sid = Some s
               /\ turn_session t = sess_id s.

(** After the handler, the child jobs of every turn still lacking a
    summary, and the session summary job, are in the queue. *)
Definition fanned_out (db' : DB) (sid : string) : Prop :=
  (forall t c, lacks_summary db' sid t -> In c (child_jobs_of (turn_id t)) ->
               has_key (snd (fst c)) db')
  /\ has_key (snd (fst (session_summary_job sid))) db'.

(** The payload of a session_process job. *)
Definition names_session (job : FocusJob) (sid path wpath : string) : Prop :=
  payload_get "session_id" (payload job) = Some sid
  /\ payload_get "transcript_path" (payload job) = Some path
  /\ default EmptyString (payload_get "workspace_path" (payload job)) = wpath.

(** The claim about [session_process]: every successful run fans out. *)
Definition stated_fan_out (env : Env) (db : DB) (now : Z) (job : FocusJob)
    (sid : string) : Prop :=
  forall db', process_session_job env db now job = OK db' -> fanned_out db' sid.

End Worker.

(** ** A sample world and transcript *)

Module Sample.
Import Json Exc World.

Definition user_line (ts body : string) : json :=
  JObj [("type", JStr "user"); ("timestamp", JStr ts);
        ("message", JObj [("role", JStr "user"); ("content", JStr body)])]%string.

Definition assistant_line (ts : string) (blocks : list json) : json :=
  JObj [("type", JStr "assistant"); ("timestamp", JStr ts);
        ("message", JObj [("role", JStr "assistant"); ("model", JStr "m-1");
                          ("content", JArr blocks)])]%string.

Definition text_block (t : string) : json :=
  JObj [("type", JStr "text"); ("text", JStr t)]%string.

Definition bash_block (cmd : string) : json :=
  JObj [("type", JStr "tool_use"); ("name", JStr "Bash");
        ("input", JObj [("command", JStr cmd)])]%string.

(** A shell command of 501 characters. *)
Definition long_command : string := Py.replicate "x" 501.

(** A decoder that knows seven lines. *)
Definition sample_loads (s : string) : option json :=
  if String.eqb s "u1" then Some (user_line "t1" "please fix the build")
  else if String.eqb s "b9"
       then Some (assistant_line "t7" [bash_block long_command])
  else if String.eqb s "a1"
       then Some (assistant_line "t2" [text_block "done"; bash_block "make"])
  else if String.eqb s "u0" then Some (user_line "t3" "")
  else if String.eqb s "a0" then Some (assistant_line "t4" [text_block "lost"])
  else if String.eqb s "u2"
       then Some (user_line "t5"
         "second question: how do we roll the deploy back on friday?")
  else if String.eqb s "a2" then Some (assistant_line "t6" [text_block "so"])
  else None.

Definition sample_clock (s : string) : option datetime :=
  if String.eqb s "t1" then Some (mkDatetime 1 true)
  else if String.eqb s "t5" then Some (mkDatetime 5 true)
  else None.

Definition sample_lines : list string :=
  ["a2"; "u1"; "a1"; ""; "{broken"; "u0"; "a0"; "u2"; "a2"]%string.

Definition sample_env : Env :=
  mkEnv (fun p => if String.eqb p "/t/s.jsonl" then Some sample_lines else None)
        sample_loads
        (fun s => s)
        sample_clock
        (mkProjectState None [])
        EmptyString
        (fun _ => Raise "offline")
        (fun _ => "?"%string).

(** The same world, where the timestamp of the second user record was
    written without a time zone. *)
Definition mixed_env : Env :=
  mkEnv (read_lines sample_env) sample_loads (fun s => s)
        (fun s => if String.eqb s "t5" then Some (mkDatetime 5 false)
                  else sample_clock s)
        (mkProjectState None []) EmptyString
        (fun _ => Raise "offline") (fun _ => "?"%string).

(** The same world with an API key and a model that answers. *)
Definition llm_env : Env :=
  mkEnv (read_lines sample_env) sample_loads (fun s => s) sample_clock
        (mkProjectState None []) "sk-1"
        (fun _ => OK ("TITLE: Roll back" +:+ Py.nl
                       +:+ "SUMMARY: How to roll the deploy back"))
        (fun _ => "?"%string).

(** A user message of 300 characters. *)
Definition long_message : string := Py.replicate "m" 300.

Definition turn_row (tid : Models.UUID) (msg summary : option string)
    : Models.AgentTurn :=
  Models.mkTurn tid 0%N (N.to_nat tid) msg summary None "h" None [] None None.

Definition db_turns : Models.DB :=
  Models.with_turns Models.empty_db
    [ turn_row 10%N (Some long_message) None;
      turn_row 11%N (Some EmptyString) None;
      turn_row 12%N (Some "fix it"%string) (Some "old"%string);
      turn_row 13%N (Some "fix it"%string) None ].

(** The turns of the sample transcript. *)
Definition sample_turns : list Parser.Turn :=
  match Parser.parse_lines sample_env sample_lines with
  | OK ts => ts
  | Raise _ => []
  end.

(** The database after [simon record] stored the sample transcript
    directly, without going through the queue. *)
Definition db_recorded : Models.DB :=
  match Recorder.record_session sample_env Models.empty_db "S" "/t/s.jsonl" "/w" with
  | OK (db, _) => db
  | Raise _ => Models.empty_db
  end.

End Sample.

(* ===================================================================== *)
(** * storage/jobs.py, continued: statistics and sequences of operations  *)
(* ===================================================================== *)

Module Queue.
Import Models Jobs.

Definition all_statuses : list JobStatus :=
  [Queued; Processing; Retry; Done; Failed].

Definition count_status (db : DB) (s : JobStatus) : nat :=
  List.length (List.filter (fun j => status_eqb (status j) s) (jobs db)).

(** [get_job_stats]: [SELECT status, count( * ) ... GROUP BY status], one
    item per status that occurs. *)
Definition get_job_stats (db : DB) : list (JobStatus * nat) :=
  List.filter (fun p => (0 <? snd p)%nat)
              (map (fun s => (s, count_status db s)) all_statuses).

(** One call of an operation of the queue, with its arguments. *)
Inductive Op :=
| Enqueue (kind : string) (payload : list (string * string))
          (dedupe_key : option string) (priority max_attempts : Z)
| Claim (kinds : option (list string)) (lease_seconds : Z)
| Complete (jid : UUID)
| Fail (jid : UUID) (error_message : string)
| Expire.

(** The database after the call made at time [now]. *)
Definition run (db : DB) (now : Z) (op : Op) : DB :=
  match op with
  | Enqueue k p dk prio ma => fst (enqueue_job db now k p dk prio ma)
  | Claim kinds lease => fst (claim_job db now kinds lease)
  | Complete jid => complete_job db now jid
  | Fail jid msg => fail_job db now jid msg
  | Expire => fst (expire_stale_leases db now)
  end.

Definition run_all (db : DB) (calls : list (Z * Op)) : DB :=
  fold_left (fun d c => run d (fst c) (snd c)) calls db.

(** The keys of the unique index on [dedupe_key] (nulls do not count). *)
Definition dedupe_keys (db : DB) : list string :=
  flat_map (fun j => match dedupe_key j with Some k => [k] | None => [] end)
           (jobs db).

(** The two unique indexes hold and [uuid4] cannot return an id in use. *)
Definition queue_ok (db : DB) : Prop :=
  List.NoDup (map job_id (jobs db))
  /\ Forall (fun j => (job_id j < next_uuid db)%N) (jobs db)
  /\ List.NoDup (dedupe_keys db).

Definition sum_counts (l : list (JobStatus * nat)) : nat :=
  fold_right (fun p acc => (snd p + acc)%nat) 0%nat l.

(** A queue with one job whose lease ran out at time 50. *)
(** The row that [enqueue_job] inserts: queued, never tried, not locked. *)
Definition queued_row (kind : string) (payload : list (string * string))
    (key : option string) (priority max_attempts : Z) (j : FocusJob) : Prop :=
  Models.kind j = kind /\ Models.payload j = payload
  /\ Models.dedupe_key j = key /\ status j = Queued
  /\ Models.priority j = priority /\ Models.max_attempts j = max_attempts
  /\ attempts j = 0%N /\ locked_until j = None /\ error_message j = None.

Definition db_stale : DB :=
  mkDB [mkJob 0%N "turn_summary" (Some "turn_summary:7"%string) [] Processing
              15 1%N 10 (Some 50) None 1 2]
       [] [] [] [] 1%N.

Definition total_attempts (db : DB) : N :=
  fold_right (fun j acc => (attempts j + acc)%N) 0%N (jobs db).

(** The number of calls of [claim_job] in [calls] that return a job, when
    the calls are run in order from [db]. *)
Fixpoint successful_claims (db : DB) (calls : list (Z * Op)) : N :=
  match calls with
  | [] => 0%N
  | (now, op) :: rest =>
      (match op with
       | Claim kinds lease_seconds =>
           match snd (claim_job db now kinds lease_seconds) with
           | Some _ => 1
           | None => 0
           end
       | _ => 0
       end + successful_claims (run db now op) rest)%N
  end.

End Queue.

(* ===================================================================== *)
(** * ingestion/claude_code.py, continued: what the two passes keep       *)
(* ===================================================================== *)

Module ParserSpec.
Import Json Exc World Parser.

(** A message that opens a turn which will be kept. *)
Definition opens_turn (m : Message) : bool :=
  is_str (role m) "user" && Py.truthy (text m).

(** A line that the first pass passes over before it looks at the
    message: blank, not JSON, not of type user or assistant, a sidechain or
    a meta record. *)
Definition ignored_line (env : Env) (raw : string) : bool :=
  let line := Py.strip raw in
  negb (Py.truthy line)
  || match json_loads env line with
     | None => true
     | Some (JObj obj) =>
         let msg_type := dict_get "type" JNull obj in
         negb (is_str msg_type "user" || is_str msg_type "assistant")
         || truthy (dict_get "isSidechain" JNull obj)
         || truthy (dict_get "isMeta" JNull obj)
     | Some _ => false
     end.

(** A line that holds JSON other than an object. *)
Definition not_an_object (env : Env) (raw : string) : bool :=
  Py.truthy (Py.strip raw)
  && match json_loads env (Py.strip raw) with
     | Some (JObj _) | None => false
     | Some _ => true
     end.

(** No element is [in] the elements before it. *)
Inductive no_repeats : list json -> Prop :=
| no_repeats_nil : no_repeats []
| no_repeats_snoc l x :
    no_repeats l -> mem x l = false -> no_repeats (l ++ [x]).

(** The head of the turn under construction, if it will be kept. *)
Definition opened (cur : option Pending) : list (string * json) :=
  match cur with
  | Some t => if Py.truthy (p_user_message t)
              then [(p_user_message t, p_started_at t)] else []
  | None => []
  end.

(** The user message and start time of each finalized turn. *)
Definition heads (ts : list Turn) : list (string * json) :=
  map (fun t => (user_message t, started_at t)) ts.

(** The invariant of a list of tool names. *)
Definition names_ok (l : list json) : Prop :=
  no_repeats l /\ Forall (fun n => truthy n = true) l.

Definition pending_ok (cur : option Pending) : Prop :=
  match cur with
  | Some t => names_ok (p_tool_names t)
  | None => True
  end.

(** The sample decoder, which also knows a line holding a JSON list. *)
Definition list_env : Env :=
  mkEnv (read_lines Sample.sample_env)
        (fun s => if String.eqb s "[1]" then Some (JArr [JInt 1])
                  else Sample.sample_loads s)
        (fun s => s) Sample.sample_clock (mkProjectState None [])
        EmptyString (fun _ => Raise "offline") (fun _ => "?"%string).

End ParserSpec.

(* ===================================================================== *)
(** * context/artifact_extractor.py, continued: the books of a turn       *)
(* ===================================================================== *)

Module ArtifactSpec.
Import Json Exc World Artifacts.

(** The artifact types named in the comment of [Artifact.artifact_type]. *)
Definition artifact_types : list string :=
  ["file_read"; "file_write"; "file_edit"; "command"; "error"; "tool_call"].

Definition of_type (ty : string) (a : Artifact) : bool :=
  String.eqb (artifact_type a) ty.

(** The values of the artifacts of one type, in order. *)
Definition values_of (ty : string) (r : TurnArtifacts) : list json :=
  map artifact_value (List.filter (of_type ty) (artifacts r)).

(** The lists of a [TurnArtifacts] agree with its artifacts. *)
Definition ledger (r : TurnArtifacts) : Prop :=
  Forall (fun a => In (artifact_type a) artifact_types) (artifacts r)
  /\ values_of "file_write" r = files_written r
  /\ values_of "file_edit" r = files_edited r
  /\ values_of "error" r = map JStr (errors_encountered r)
  /\ List.length (values_of "command" r) = List.length (commands_run r)
  /\ (List.length (files_read r) <= List.length (values_of "file_read" r))%nat
  /\ (List.length (List.filter (fun a => negb (of_type "error" a)) (artifacts r))
      <= tool_call_count r)%nat.

(** Every recorded error message is non-empty and at most 500 characters
    long. *)
Definition errors_bounded (r : TurnArtifacts) : Prop :=
  Forall (fun e => e <> EmptyString /\ (String.length e <= 500)%nat)
         (errors_encountered r).

(** [TurnArtifacts.files_touched]: the loop over
    [files_read + files_written + files_edited]; [seen] is a set, so a
    value that cannot be hashed raises. *)
Fixpoint touch (fs : list json) (seen result : list json)
    : Result (list json) :=
  match fs with
  | [] => OK result
  | f :: rest =>
      if negb (hashable f) then Raise "TypeError"
      else if mem f seen then touch rest seen result
      else touch rest (seen ++ [f]) (result ++ [f])
  end.

Definition files_touched (r : TurnArtifacts) : Result (list json) :=
  touch (files_read r ++ files_written r ++ files_edited r) [] [].

(** No element equals (by [==]) an element before it. *)
Inductive distinct : list json -> Prop :=
| distinct_nil : distinct []
| distinct_snoc l x : distinct l -> mem x l = false -> distinct (l ++ [x]).

Definition error_result (msg : string) : json :=
  JObj [("type", JStr "tool_result"); ("is_error", JBool true);
        ("content", JStr msg)]%string.

Definition write_block (path : string) : json :=
  JObj [("type", JStr "tool_use"); ("name", JStr "Write");
        ("input", JObj [("file_path", JStr path)])]%string.

Definition read_block (path : string) : json :=
  JObj [("type", JStr "tool_use"); ("name", JStr "Read");
        ("input", JObj [("file_path", JStr path)])]%string.

(** A turn that reads a file, writes it, runs a command and gets an
    error back. *)
Definition busy_env : Env :=
  mkEnv (fun _ => None)
        (fun s => if String.eqb s "a"
                  then Some (Sample.assistant_line "t"
                               [read_block "/src/a.py"; write_block "/src/a.py";
                                Sample.bash_block "make";
                                error_result "  make: *** [all] Error 2"])
                  else None)
        (fun s => s) (fun _ => None) (mkProjectState None [])
        EmptyString (fun _ => Raise "offline") (fun _ => "?"%string).

End ArtifactSpec.

(* ===================================================================== *)
(** * context/recorder.py, continued: the Stop hook's fast path           *)
(* ===================================================================== *)

Module Hook.
Import Json Exc World Models.

(** [f"session_process:{session_id}:{file_size}"] *)
Definition recording_key (session_id : string) (file_size : option N) : string :=
  "session_process:" +:+ session_id +:+ ":"
  +:+ Py.str_of_N (match file_size with Some n => n | None => 0%N end).

(** [enqueue_session_recording]; [file_size] is [stat().st_size], [None]
    when [stat] raises [OSError]. The result is [job is not None]. *)
Definition enqueue_session_recording (db : DB) (now : Z)
    (file_size : option N) (session_id transcript_path workspace_path : string)
    : DB * bool :=
  let (db', job) :=
    Jobs.enqueue_job db now "session_process"
      [("session_id", session_id); ("transcript_path", transcript_path);
       ("workspace_path", workspace_path)]%string
      (Some (recording_key session_id file_size))
      5 10 in
  (db', match job with Some _ => true | None => false end).

(** The transcript of the sample session after the first answer was
    replaced by another. *)
Definition changed_env : Env :=
  mkEnv (fun p => if String.eqb p "/t/s.jsonl"
                  then Some ["u1"; "a2"]%string else None)
        Sample.sample_loads (fun s => s) Sample.sample_clock
        (mkProjectState None []) EmptyString
        (fun _ => Raise "offline") (fun _ => "?"%string).

End Hook.

(* ===================================================================== *)
(** * context/worker.py, continued: the session summary, the dispatch
      table and the loop                                                  *)
(* ===================================================================== *)

Module Dispatch.
Import Json Exc World Models.

Definition JOB_KINDS : list string :=
  ["session_process"; "turn_summary"; "entity_extract"; "artifact_extract";
   "session_summary"; "skill_extract"].

(** [sorted(turns, key=lambda t: t.turn_number)]: a stable sort. *)
Fixpoint insert_turn (t : AgentTurn) (l : list AgentTurn) : list AgentTurn :=
  match l with
  | [] => [t]
  | u :: l' =>
      if (turn_number t <=? turn_number u)%nat then t :: u :: l'
      else u :: insert_turn t l'
  end.

Definition sorted_turns (l : list AgentTurn) : list AgentTurn :=
  fold_right insert_turn [] l.

(** What a turn adds to [parts]. *)
Definition summary_part (t : AgentTurn) : list string :=
  if Py.otruthy (turn_title t) then [default EmptyString (turn_title t)]
  else if Py.otruthy (user_message t)
       then [Py.take 80 (default EmptyString (user_message t))]
       else [].

Definition session_parts (db : DB) (sid : UUID) : list string :=
  flat_map summary_part
    (sorted_turns
       (List.filter (fun t => N.eqb (turn_session t) sid) (turns db))).

Definition summarize_session (parts : list string) (s : AgentSession)
    : AgentSession :=
  mkSession (sess_id s) (session_id s) (transcript_path s) (workspace_path s)
    (match parts with p :: _ => Some (Py.take 100 p) | [] => None end)
    (Some (Py.take 500 (Py.join "; " parts)))
    (sess_started_at s) (last_activity_at s) (project_id s) (turn_count s)
    true.

(** The name [enqueue_job] is bound in [process_session_job] only, by the
    import in its body; the module does not import it. The call that ends
    this handler therefore raises [NameError], and the title, the summary
    and the flag that were flushed before it are rolled back with the
    transaction. *)
Definition process_session_summary_job (env : Env) (db : DB) (now : Z)
    (job : FocusJob) : Result DB :=
  match Worker.payload_get "session_id" (payload job) with
  | None => Raise "KeyError"
  | Some cc_session_id =>
      match Recorder.find_session db cc_session_id with
      | None => OK db
      | Some agent_session =>
          let parts := session_parts db (sess_id agent_session) in
          if negb (match parts with [] => false | _ => true end) then OK db
          else
            let flushed :=
              Recorder.update_session (summarize_session parts)
                                      (sess_id agent_session) db in
            Raise "NameError"
      end
  end.

(** A handler runs in a transaction of its own; when it raises, the
    transaction is rolled back and nothing of it is kept. *)
Definition Handler : Type := Env -> DB -> Z -> FocusJob -> Result DB.

Inductive HandlerName :=
| SessionProcess | TurnSummary | EntityExtract | ArtifactExtract
| SessionSummary | SkillExtract.

(** The dict [handlers] of [_dispatch_job]. *)
Definition handlers : list (string * HandlerName) :=
  [("session_process", SessionProcess); ("turn_summary", TurnSummary);
   ("entity_extract", EntityExtract); ("artifact_extract", ArtifactExtract);
   ("session_summary", SessionSummary); ("skill_extract", SkillExtract)]%string.

Fixpoint handlers_get (kind : string) (d : list (string * HandlerName))
    : option HandlerName :=
  match d with
  | [] => None
  | (k, h) :: d' => if String.eqb kind k then Some h else handlers_get kind d'
  end.

Inductive Outcome := Idle | Completed | Errored.

Section Loop.

(** The handlers that write to tables kept outside [DB]. *)
Variables entity_extract artifact_extract skill_extract : Handler.

Definition run_handler (h : HandlerName) : Handler :=
  match h with
  | SessionProcess => Worker.process_session_job
  | TurnSummary =>
      fun env db _ job =>
        let* r := Worker.process_turn_summary_job env db job in OK (fst r)
  | EntityExtract => entity_extract
  | ArtifactExtract => artifact_extract
  | SessionSummary => process_session_summary_job
  | SkillExtract => skill_extract
  end.

Definition _dispatch_job (env : Env) (db : DB) (now : Z) (job : FocusJob)
    : Result DB :=
  match handlers_get (kind job) handlers with
  | None => Raise "ValueError"
  | Some h => run_handler h env db now job
  end.

(** The body of the loops of [process_pending_jobs] and [run_worker]:
    claim, dispatch, then [complete_job] or, on any exception,
    [fail_job] with the exception's text. The handler's transaction is
    given the table with the claim applied; no handler reads the status,
    the lock or the attempts of a job. *)
Definition work_once (env : Env) (db : DB) (now : Z) : DB * Outcome :=
  match Jobs.claim_job db now (Some JOB_KINDS) 300 with
  | (_, None) => (db, Idle)
  | (db1, Some job) =>
      match _dispatch_job env db1 now job with
      | OK db2 => (Jobs.complete_job db2 now (job_id job), Completed)
      | Raise e => (Jobs.fail_job db1 now (job_id job) e, Errored)
      end
  end.

End Loop.

(** The queue of [db'] is the queue of [db] followed by queued jobs. *)
Definition appended (db db' : DB) : Prop :=
  exists new, jobs db' = jobs db ++ new
              /\ Forall (fun j => status j = Queued) new.

(** A handler that leaves the rows of the queue alone and only adds
    queued jobs. *)
Definition enqueues_only (h : Handler) : Prop :=
  forall env db now job db', h env db now job = OK db' -> appended db db'.

(** A handler that does nothing. *)
Definition no_handler : Handler := fun _ db _ _ => OK db.

(** The sample turns with one turn_summary job in the queue. *)
Definition queued_db : DB :=
  fst (Jobs.enqueue_job Sample.db_turns 1 "turn_summary"
         [("turn_id", "13")]%string (Some "turn_summary:13"%string) 15 10).

(** A session with two turns, the first of which has a title. *)
Definition summarized_db : DB :=
  mkDB []
       [mkSession 7%N "S" None None None None None None None 2 false]
       [Models.mkTurn 2%N 7%N 1 (Some "and deploy it"%string) None None "h2"
                      None [] None None;
        Models.mkTurn 1%N 7%N 0 (Some "fix the build"%string)
                      (Some "The user asks for a fix"%string)
                      (Some "Fix the build"%string) "h1" None [] None None]
       [] [] 8%N.

Definition job_for_summary (sid : string) : FocusJob :=
  mkJob 0%N "session_summary" (Some ("session_summary:" +:+ sid))
        [("session_id", sid)]%string Processing 25 1%N 10 None None 0 0.

End Dispatch.

(* ===================================================================== *)
(** * context/classifier.py and context/project_state.py, continued       *)
(* ===================================================================== *)

Module Matching.
Import World ProjectStateStore Classifier.

(** [pattern in text] *)
Definition substring (pattern text : string) : Prop :=
  exists before after, text = before +:+ pattern +:+ after.

(** The test of the loop over [self._projects]. *)
Definition project_matches (prompt_lower : string) (p : string * string)
    : bool :=
  _word_match (fst p) prompt_lower
  || (Py.truthy (snd p) && _word_match (Py.lower (snd p)) prompt_lower).

(** The test of the loop over [self._people]. *)
Definition person_matches (prompt_lower : string)
    (p : string * option string) : bool :=
  (2 <? String.length (fst p))%nat
  && _word_match (Py.lower (fst p)) prompt_lower.

Definition query_types : list string :=
  ["code"; "email"; "task"; "meta"; "general"].

(** [state["workspaces"][workspace] = slug] *)
Fixpoint dict_set (k v : string) (m : list (string * string))
    : list (string * string) :=
  match m with
  | [] => [(k, v)]
  | (k', v') :: m' =>
      if String.eqb k k' then (k, v) :: m' else (k', v') :: dict_set k v m'
  end.

(** [state["workspaces"].pop(workspace, None)] *)
Fixpoint dict_pop (k : string) (m : list (string * string))
    : list (string * string) :=
  match m with
  | [] => []
  | (k', v') :: m' =>
      if String.eqb k k' then m' else (k', v') :: dict_pop k m'
  end.

(** The keys of a dict are different from each other. *)
Definition is_dict (m : list (string * string)) : Prop :=
  List.NoDup (map fst m).

(** [set_active_project]: the state [_write_state] is called with. *)
Definition set_active_project (state : ProjectState) (slug : string)
    (workspace : option string) : ProjectState :=
  if Py.otruthy workspace
  then mkProjectState (state_global state)
         (dict_set (default EmptyString workspace) slug
                   (state_workspaces state))
  else mkProjectState (Some slug) (state_workspaces state).

(** [clear_active_project] *)
Definition clear_active_project (state : ProjectState)
    (workspace : option string) : ProjectState :=
  if Py.otruthy workspace
  then mkProjectState (state_global state)
         (dict_pop (default EmptyString workspace) (state_workspaces state))
  else mkProjectState None (state_workspaces state).

(** The world after [_write_state(state)]. *)
Definition written (env : Env) (state : ProjectState) : Env :=
  mkEnv (read_lines env) (json_loads env) (md5_hexdigest env)
        (fromisoformat env) state (api_key env) (messages_create env)
        (py_str env).

(** A state file with a global project and one workspace override. *)
Definition selected_env : Env :=
  written Sample.sample_env
    (mkProjectState (Some "apollo"%string) [("/w", "gemini")]%string).

End Matching.

(* ===================================================================== *)
(** * storage/jobs.py, continued: a job that keeps failing                *)
(* ===================================================================== *)

Module Retry.
Import Models Jobs.

(** One failed run of the worker on the job [jid]: [claim_job], called at
    [fst times], returns that job, its handler raises [msg], and
    [fail_job] is called at [snd times]. [None] when [claim_job] returns
    no job or another one. *)
Definition failed_run (kinds : option (list string)) (lease_seconds : Z)
    (msg : string) (jid : UUID) (db : DB) (times : Z * Z) : option DB :=
  match claim_job db (fst times) kinds lease_seconds with
  | (db1, Some job) =>
      if N.eqb (job_id job) jid
      then Some (fail_job db1 (snd times) (job_id job) msg)
      else None
  | (_, None) => None
  end.

(** Failed runs on [jid], one after the other. *)
Fixpoint failed_runs (kinds : option (list string)) (lease_seconds : Z)
    (msg : string) (jid : UUID) (db : DB) (times : list (Z * Z))
    : option DB :=
  match times with
  | [] => Some db
  | t :: rest =>
      match failed_run kinds lease_seconds msg jid db t with
      | Some db1 => failed_runs kinds lease_seconds msg jid db1 rest
      | None => None
      end
  end.

(** A queue whose only job may be tried twice. *)
Definition db_two_tries : DB :=
  mkDB [mkJob 0%N "turn_summary" None [] Queued 15 0%N 2 None None 1 1]
       [] [] [] [] 1%N.

End Retry.

(* ===================================================================== *)
(** * Properties                                                          *)
(* ===================================================================== *)

Module JobsFacts.
Import Models Jobs.

Lemma status_eqb_eq a b : status_eqb a b = true <-> a = b.
Proof. destruct a, b; simpl; split; intros H; try reflexivity; discriminate. Qed.

Lemma job_before_iff a b : job_before a b = true <-> order_le a b.
Proof.
  unfold job_before, order_le.
  rewrite orb_true_iff, andb_true_iff, Z.ltb_lt, Z.eqb_eq, Z.leb_le.
  tauto.
Qed.

Lemma order_le_refl a : order_le a a.
Proof. unfold order_le. lia. Qed.

Lemma order_le_trans a b c : order_le a b -> order_le b c -> order_le a c.
Proof. unfold order_le. lia. Qed.

Lemma order_le_total a b : job_before a b = false -> order_le b a.
Proof.
  intros H. destruct (job_before a b) eqn:E; [discriminate|].
  unfold job_before in E. apply orb_false_iff in E as [E1 E2].
  apply Z.ltb_ge in E1. apply andb_false_iff in E2.
  unfold order_le. destruct E2 as [E2|E2].
  - apply Z.eqb_neq in E2. lia.
  - apply Z.leb_gt in E2. lia.
Qed.

Lemma first_in_order_In l m : first_in_order l = Some m -> In m l.
Proof.
  revert m. induction l as [|j l IH]; simpl; intros m H; [discriminate|].
  destruct (first_in_order l) as [m'|] eqn:E.
  - destruct (job_before j m'); inversion H; subst; auto.
  - inversion H; subst; auto.
Qed.

Lemma first_in_order_None l : first_in_order l = None -> l = [].
Proof.
  destruct l as [|j l]; simpl; [reflexivity|].
  destruct (first_in_order l) as [m|]; [destruct (job_before j m)|]; discriminate.
Qed.

Lemma first_in_order_least l m :
  first_in_order l = Some m -> forall j, In j l -> order_le m j.
Proof.
  revert m. induction l as [|a l IH]; simpl; intros m H j Hj; [contradiction|].
  destruct (first_in_order l) as [m'|] eqn:E.
  - destruct (job_before a m') eqn:B; inversion H; subst; clear H.
    + destruct Hj as [->|Hj]; [apply order_le_refl|].
      apply order_le_trans with m'; [now apply job_before_iff | now apply IH].
    + destruct Hj as [->|Hj]; [now apply order_le_total | now apply IH].
  - inversion H; subst. apply first_in_order_None in E. subst l.
    destruct Hj as [->|[]]. apply order_le_refl.
Qed.

Lemma claimable_candidate now kinds j :
  claimable now kinds j = true <->
  candidate (in_nonempty_allowed_set kinds) now j.
Proof.
  unfold claimable, candidate.
  rewrite !andb_true_iff, orb_true_iff, !status_eqb_eq.
  assert (L : match locked_until j with Some t => t <? now | None => true end = true
              <-> (locked_until j = None \/ exists t, locked_until j = Some t /\ t < now)).
  { destruct (locked_until j) as [t|].
    - rewrite Z.ltb_lt. split.
      + intros H. right. exists t. auto.
      + intros [H|[t' [H1 H2]]]; [discriminate|]. inversion H1; subst. auto.
    - split; auto. }
  assert (K : match kinds with
              | Some (k :: ks) => existsb (String.eqb (kind j)) (k :: ks)
              | _ => true end = true
              <-> in_nonempty_allowed_set kinds j).
  { unfold in_nonempty_allowed_set. destruct kinds as [[|k ks]|]; try tauto.
    rewrite existsb_exists. split.
    - intros [x [Hx E]]. apply String.eqb_eq in E. subst. exact Hx.
    - intros H. exists (kind j). split; [exact H | apply String.eqb_refl]. }
  rewrite L, K. tauto.
Qed.

Lemma map_update_unique (f : FocusJob -> FocusJob) before j after :
  List.NoDup (map job_id (before ++ j :: after)) ->
  map (fun x => if N.eqb (job_id x) (job_id j) then f x else x)
      (before ++ j :: after)
  = before ++ f j :: after.
Proof.
  intros ND. rewrite map_app. simpl. rewrite N.eqb_refl.
  rewrite map_app in ND. simpl in ND.
  assert (Hb : forall x, In x before -> job_id x <> job_id j).
  { intros x Hx E. apply NoDup_remove_2 in ND. apply ND.
    apply in_or_app. left. rewrite <- E. now apply in_map. }
  assert (Ha : forall x, In x after -> job_id x <> job_id j).
  { intros x Hx E. apply NoDup_remove_2 in ND. apply ND.
    apply in_or_app. right. rewrite <- E. now apply in_map. }
  f_equal; [|f_equal].
  - rewrite <- (map_id before) at 2. apply map_ext_in. intros x Hx.
    destruct (N.eqb_spec (job_id x) (job_id j)); [exfalso; eapply Hb; eauto | reflexivity].
  - rewrite <- (map_id after) at 2. apply map_ext_in. intros x Hx.
    destruct (N.eqb_spec (job_id x) (job_id j)); [exfalso; eapply Ha; eauto | reflexivity].
Qed.

Lemma get_job_unique db before j after :
  jobs db = before ++ j :: after -> jobs_pk db ->
  get_job db (job_id j) = Some j.
Proof.
  unfold get_job, jobs_pk. intros -> ND.
  rewrite map_app in ND. simpl in ND. apply NoDup_remove_2 in ND.
  induction before as [|b before IH]; simpl.
  - now rewrite N.eqb_refl.
  - destruct (N.eqb_spec (job_id b) (job_id j)) as [E|E].
    + exfalso. apply ND. simpl. left. exact E.
    + apply IH. intros H. apply ND. simpl. right. exact H.
Qed.

Lemma get_job_updated f jid db :
  (forall j, job_id (f j) = job_id j) ->
  get_job (update_job f jid db) jid = option_map f (get_job db jid).
Proof.
  intros Hid. unfold get_job, update_job. simpl.
  induction (jobs db) as [|a l IH]; simpl; [reflexivity|].
  destruct (N.eqb_spec (job_id a) jid) as [E|E].
  - rewrite Hid, E, N.eqb_refl. reflexivity.
  - apply N.eqb_neq in E. rewrite E. exact IH.
Qed.

Lemma update_job_other f jid db j :
  In j (jobs db) -> job_id j <> jid -> In j (jobs (update_job f jid db)).
Proof.
  intros Hin Hne. unfold update_job. simpl. apply in_map_iff.
  exists j. split; [|exact Hin].
  destruct (N.eqb_spec (job_id j) jid); [contradiction | reflexivity].
Qed.

(** C1, amended. For every queue state with unique job ids, [claim_job]
    selects among the jobs whose status is queued or retry, whose
    [locked_until] is null or earlier than [now], and whose kind is in the
    allowed list when a non-empty list is given (an empty list filters
    nothing, like no list), a job least by (priority, created_at); it
    replaces that row, and no other, by the row with status processing,
    [locked_until = now + lease_seconds], [attempts + 1], and returns it.
    It returns nothing and changes nothing when no job is eligible. *)
Theorem claim_job_contract db now kinds lease_seconds :
  jobs_pk db ->
  claim_contract (in_nonempty_allowed_set kinds) db now kinds lease_seconds.
Proof.
  intros PK. unfold claim_contract, claim_job.
  destruct (first_in_order (List.filter (claimable now kinds) (jobs db)))
    as [sel|] eqn:E.
  - pose proof (first_in_order_In _ _ E) as Hin.
    apply filter_In in Hin as [Hin Hc].
    apply in_split in Hin as (before & after & Hsplit).
    rewrite get_job_updated by reflexivity.
    rewrite (get_job_unique db before sel after Hsplit PK). simpl.
    exists sel, before, after. split; [exact Hsplit|]. split.
    { now apply claimable_candidate. }
    split.
    { intros j' Hj' Hcand. apply (first_in_order_least _ _ E).
      apply filter_In. split; [exact Hj' | now apply claimable_candidate]. }
    split.
    { unfold claimed_from. simpl. repeat split; reflexivity. }
    rewrite Hsplit. apply map_update_unique.
    unfold jobs_pk in PK. now rewrite Hsplit in PK.
  - split; [reflexivity|].
    intros j Hj Hcand. apply first_in_order_None in E.
    assert (Hf : In j (List.filter (claimable now kinds) (jobs db))).
    { apply filter_In. split; [exact Hj | now apply claimable_candidate]. }
    rewrite E in Hf. exact Hf.
Qed.

Lemma db_three_pk : jobs_pk db_three.
Proof.
  unfold jobs_pk, db_three. simpl.
  repeat (constructor; [simpl; intuition discriminate|]).
  constructor.
Qed.

Lemma claim_job_contract_witness :
  jobs_pk db_three
  /\ claim_contract (in_nonempty_allowed_set (Some ["turn_summary"%string]))
       db_three 100 (Some ["turn_summary"%string]) 300.
Proof.
  split; [exact db_three_pk|].
  apply (claim_job_contract db_three 100 (Some ["turn_summary"%string]) 300).
  exact db_three_pk.
Defined.

(** C1 as stated fails when an empty list of kinds is given: no job has
    its kind in the empty set, yet [claim_job] claims the queued job. *)
Lemma claim_job_empty_kinds_counterexample :
  ~ claim_contract (in_allowed_set (Some [])) db_one_queued 100 (Some []) 300.
Proof.
  unfold claim_contract. simpl.
  intros (j & before & after & _ & (_ & _ & Hk) & _). exact Hk.
Qed.

(** C2. For every existing job, [fail_job] with [attempts < max_attempts]
    sets status retry, records the error message and sets
    [locked_until = now + min(2^attempts * 30, 3600)]; with
    [attempts >= max_attempts] it sets status failed. *)
Theorem fail_job_retry_or_failed db now jid msg j :
  get_job db jid = Some j ->
  (Z.of_N (attempts j) < max_attempts j ->
     exists r, get_job (fail_job db now jid msg) jid = Some r
       /\ status r = Retry
       /\ error_message r = Some msg
       /\ locked_until r
          = Some (now + Z.min (2 ^ Z.of_N (attempts j) * 30) 3600)
       /\ attempts r = attempts j)
  /\ (max_attempts j <= Z.of_N (attempts j) ->
     exists r, get_job (fail_job db now jid msg) jid = Some r
       /\ status r = Failed
       /\ attempts r = attempts j).
Proof.
  intros Hget. unfold fail_job. rewrite Hget. split; intros Hlt.
  - apply Z.ltb_lt in Hlt. rewrite Hlt.
    rewrite get_job_updated by reflexivity. rewrite Hget. simpl.
    eexists. split; [reflexivity|]. simpl. repeat split; reflexivity.
  - apply Z.ltb_ge in Hlt. rewrite Hlt.
    rewrite get_job_updated by reflexivity. rewrite Hget. simpl.
    eexists. split; [reflexivity|]. simpl. split; reflexivity.
Qed.

Lemma fail_job_retry_or_failed_witness :
  get_job db_three 1%N = Some (sample_job 1%N "turn_summary" Retry 15 1%N 5)
  /\ exists r, get_job (fail_job db_three 100 1%N "boom") 1%N = Some r
       /\ status r = Retry
       /\ error_message r = Some "boom"%string
       /\ locked_until r = Some 160.
Proof.
  split; [reflexivity|].
  destruct (fail_job_retry_or_failed db_three 100 1%N "boom"
              (sample_job 1%N "turn_summary" Retry 15 1%N 5) eq_refl)
    as [Hretry _].
  destruct (Hretry ltac:(simpl; lia)) as (r & Hr & Hs & He & Hl & _).
  exists r. repeat split; assumption.
Defined.

(** C5 as stated fails: [complete_job] turns a failed job into a done one,
    and [fail_job] turns a done job back into a retry job. *)
Lemma terminal_status_counterexample :
  ~ terminal_statuses_final db_three
  /\ status_of db_three 4%N = Some Failed
  /\ status_of (complete_job db_three 100 4%N) 4%N = Some Done
  /\ status_of db_three 3%N = Some Done
  /\ status_of (fail_job db_three 100 3%N "late") 3%N = Some Retry.
Proof.
  split; [|repeat split; reflexivity].
  intros H.
  assert (Hin : In (sample_job 4%N "entity_extract" Failed 5 10%N 0)
                   (jobs db_three)) by (simpl; auto 10).
  destruct (H _ Hin (or_intror eq_refl) 100 4%N "late"%string
              "k"%string [] None 10 10 None 300)
    as (_ & _ & Hc & _).
  vm_compute in Hc. discriminate Hc.
Qed.

(** C5, amended. A job whose status is done or failed is left unchanged,
    in every column, by [enqueue_job], [claim_job] and
    [expire_stale_leases], and by [complete_job] and [fail_job] called with
    the id of another job. ([complete_job] and [fail_job] called with the
    job's own id update it whatever its status.) *)
Theorem terminal_job_unchanged db j :
  jobs_pk db -> In j (jobs db) -> terminal j ->
  (forall now k p dk prio ma,
      In j (jobs (fst (enqueue_job db now k p dk prio ma))))
  /\ (forall now kinds lease,
      In j (jobs (fst (claim_job db now kinds lease))))
  /\ (forall now, In j (jobs (fst (expire_stale_leases db now))))
  /\ (forall now jid, jid <> job_id j ->
      In j (jobs (complete_job db now jid)))
  /\ (forall now jid msg, jid <> job_id j ->
      In j (jobs (fail_job db now jid msg))).
Proof.
  intros PK Hin Hterm. repeat split.
  - intros now k p dk prio ma. unfold enqueue_job. simpl.
    destruct (Py.otruthy dk); [destruct (existsb _ _)|]; simpl;
      try apply in_or_app; auto.
  - intros now kinds lease. unfold claim_job.
    destruct (first_in_order _) as [sel|] eqn:E; simpl; [|exact Hin].
    apply update_job_other; [exact Hin|].
    intros Heq. pose proof (first_in_order_In _ _ E) as Hsel.
    apply filter_In in Hsel as [Hsel Hc].
    apply in_split in Hsel as (before & after & Hsplit).
    pose proof (get_job_unique db before sel after Hsplit PK) as G1.
    apply in_split in Hin as (b2 & a2 & Hsplit2).
    pose proof (get_job_unique db b2 j a2 Hsplit2 PK) as G2.
    rewrite Heq in G2. rewrite G1 in G2. inversion G2; subst.
    apply claimable_candidate in Hc. destruct Hc as [[Hs|Hs] _];
      destruct Hterm as [Ht|Ht]; congruence.
  - intros now. unfold expire_stale_leases. simpl. apply in_map_iff.
    exists j. split; [|exact Hin].
    unfold lease_expired.
    destruct Hterm as [Ht|Ht]; rewrite Ht; reflexivity.
  - intros now jid Hne. apply update_job_other; [exact Hin | congruence].
  - intros now jid msg Hne. unfold fail_job.
    destruct (get_job db jid) as [job|]; [|exact Hin].
    destruct (_ <? _); apply update_job_other; auto.
Qed.

Lemma terminal_job_unchanged_witness :
  jobs_pk db_three
  /\ In (sample_job 3%N "entity_extract" Done 5 1%N 0) (jobs db_three)
  /\ terminal (sample_job 3%N "entity_extract" Done 5 1%N 0)
  /\ In (sample_job 3%N "entity_extract" Done 5 1%N 0)
        (jobs (fst (claim_job db_three 100 None 300))).
Proof.
  assert (Hin : In (sample_job 3%N "entity_extract" Done 5 1%N 0) (jobs db_three)).
  { simpl. auto 10. }
  assert (Ht : terminal (sample_job 3%N "entity_extract" Done 5 1%N 0)).
  { left. reflexivity. }
  split; [exact db_three_pk|]. split; [exact Hin|]. split; [exact Ht|].
  destruct (terminal_job_unchanged db_three _ db_three_pk Hin Ht)
    as (_ & Hclaim & _).
  apply Hclaim.
Defined.

End JobsFacts.

Module ParserFacts.
Import Json Exc World Parser.

Lemma truthy_nonempty s : Py.truthy s = true -> s <> EmptyString.
Proof. destruct s; simpl; [discriminate | intros _ H; discriminate]. Qed.

Lemma numbered_nil : numbered [].
Proof. split; [constructor | reflexivity]. Qed.

Lemma flush_turn_numbered env ts cur :
  numbered ts -> numbered (flush_turn env ts cur).
Proof.
  intros [Hne Hnum]. unfold flush_turn.
  destruct cur as [t|]; [|now split].
  destruct (Py.truthy (p_user_message t)) eqn:E; [|now split].
  split.
  - apply Forall_app. split; [exact Hne|].
    constructor; [|constructor]. simpl. now apply truthy_nonempty.
  - rewrite map_app, length_app, Hnum. simpl.
    rewrite Nat.add_1_r, seq_S. reflexivity.
Qed.

Lemma group_step_numbered env st m :
  numbered (fst st) -> numbered (fst (group_step env st m)).
Proof.
  destruct st as [ts cur]. simpl. intros H.
  destruct (is_str (role m) "user"); simpl.
  - now apply flush_turn_numbered.
  - destruct (is_str (role m) "assistant"); [destruct cur|]; exact H.
Qed.

Lemma fold_group_numbered env msgs st :
  numbered (fst st) -> numbered (fst (fold_left (group_step env) msgs st)).
Proof.
  revert st. induction msgs as [|m msgs IH]; simpl; intros st H; [exact H|].
  apply IH. now apply group_step_numbered.
Qed.

Lemma group_turns_numbered env msgs : numbered (group_turns env msgs).
Proof.
  unfold group_turns.
  pose proof (fold_group_numbered env msgs ([], None) numbered_nil) as H.
  destruct (fold_left (group_step env) msgs ([], None)) as [ts cur].
  now apply flush_turn_numbered.
Qed.

(** Records that are not user records leave the finalized turns alone,
    and leave an open turn's user message alone. *)
Lemma fold_not_user env msgs ts cur :
  Forall not_user msgs ->
  exists cur',
    fold_left (group_step env) msgs (ts, cur) = (ts, cur')
    /\ option_map p_user_message cur' = option_map p_user_message cur.
Proof.
  revert cur. induction msgs as [|m msgs IH]; intros cur H.
  - exists cur. split; reflexivity.
  - inversion H as [|? ? Hm Hrest]; subst. simpl.
    unfold not_user in Hm. rewrite Hm.
    destruct (is_str (role m) "assistant").
    + destruct cur as [t|].
      * destruct (IH (Some (append_assistant m t)) Hrest) as (c & E1 & E2).
        exists c. split; [exact E1|]. rewrite E2. reflexivity.
      * apply IH. exact Hrest.
    + apply IH. exact Hrest.
Qed.

Lemma finish_from env msgs ts cur cur' :
  at_turn_start msgs ->
  flush_turn env ts cur = flush_turn env ts cur' ->
  (let (t1, c1) := fold_left (group_step env) msgs (ts, cur) in
   flush_turn env t1 c1)
  = (let (t2, c2) := fold_left (group_step env) msgs (ts, cur') in
     flush_turn env t2 c2).
Proof.
  intros Hstart Hflush. destruct msgs as [|m msgs]; simpl.
  - exact Hflush.
  - simpl in Hstart. rewrite Hstart, Hflush. reflexivity.
Qed.

(** C10. Every turn returned by [parse_session_into_turns] has a non-empty
    user message, and the turns are numbered 0, 1, ..., n-1 in list order.
    A user record whose text is empty, together with the records grouped
    under it, leaves no trace in the result; records before the first user
    record leave no trace either. *)
Theorem parse_turns_nonempty_numbered :
  (forall env path ts,
      parse_session_into_turns env path = OK ts ->
      Forall (fun t => user_message t <> EmptyString) ts
      /\ map turn_number ts = seq 0 (List.length ts))
  /\ (forall env before u grouped after,
      is_str (role u) "user" = true ->
      text u = EmptyString ->
      Forall not_user grouped ->
      at_turn_start after ->
      group_turns env (before ++ u :: grouped ++ after)
      = group_turns env (before ++ after))
  /\ (forall env leading msgs,
      Forall not_user leading ->
      group_turns env (leading ++ msgs) = group_turns env msgs).
Proof.
  split; [|split].
  - intros env path ts H. unfold parse_session_into_turns in H.
    destruct (read_lines env path) as [lines|].
    + unfold parse_lines in H.
      destruct (collect_messages env lines) as [ms|e]; simpl in H;
        [|discriminate].
      inversion H; subst. apply group_turns_numbered.
    + inversion H; subst. apply numbered_nil.
  - intros env before u grouped after Hu Ht Hg Hstart.
    unfold group_turns. rewrite !fold_left_app. simpl.
    destruct (fold_left (group_step env) before ([], None)) as [ts cur].
    simpl. rewrite Hu.
    set (p := mkPending (text u) [] [] JNull (timestamp u) (timestamp u)
                        [raw_line u]).
    destruct (fold_not_user env grouped (flush_turn env ts cur) (Some p) Hg)
      as (c & E1 & E2).
    rewrite fold_left_app, E1.
    destruct c as [pc|]; [|discriminate].
    simpl in E2. inversion E2 as [E3]. subst p. simpl in E3. rewrite Ht in E3.
    destruct after as [|m after]; simpl.
    + unfold flush_turn at 1. rewrite E3. simpl. reflexivity.
    + simpl in Hstart. rewrite Hstart.
      unfold flush_turn at 2. rewrite E3. simpl. reflexivity.
  - intros env leading msgs Hl. unfold group_turns. rewrite fold_left_app.
    destruct (fold_not_user env leading [] None Hl) as (c & E1 & E2).
    rewrite E1. destruct c; [discriminate|]. reflexivity.
Qed.

Lemma parse_turns_nonempty_numbered_witness :
  exists ts,
    parse_session_into_turns Sample.sample_env "/t/s.jsonl" = OK ts
    /\ List.length ts = 2%nat
    /\ Forall (fun t => user_message t <> EmptyString) ts
    /\ map turn_number ts = [0; 1]%nat.
Proof.
  destruct parse_turns_nonempty_numbered as (H & _ & _).
  eexists. split; [vm_compute; reflexivity|].
  split; [reflexivity|].
  destruct (H Sample.sample_env "/t/s.jsonl"%string _ eq_refl) as [H1 H2].
  split; [exact H1 | exact H2].
Defined.

End ParserFacts.

Module ArtifactsFacts.
Import Json Exc World Artifacts.

Lemma grows_refl r : grows r r.
Proof. split; apply incl_refl. Qed.

Lemma grows_trans r1 r2 r3 : grows r1 r2 -> grows r2 r3 -> grows r1 r3.
Proof. intros [A B] [C D]. split; eapply incl_tran; eauto. Qed.

Ltac grows_step :=
  match goal with
  | H : OK _ = OK _ |- _ => inversion H; subst; clear H
  | H : Raise _ = OK _ |- _ => discriminate H
  | H : context [match ?x with _ => _ end] |- _ =>
      let E := fresh "E" in destruct x eqn:E; simpl in H
  end.

Lemma tool_use_grows env block r r' :
  _process_tool_use env block r = OK r' -> grows r r'.
Proof.
  unfold _process_tool_use, bind. intros H.
  repeat grows_step;
    (split; simpl; intros x Hx; try apply in_or_app; auto).
Qed.

Lemma tool_result_grows block r r' :
  _process_tool_result block r = OK r' -> grows r r'.
Proof.
  unfold _process_tool_result, bind. intros H.
  repeat grows_step;
    (split; simpl; intros x Hx; try apply in_or_app; auto).
Qed.

Lemma process_blocks_grows env blocks r r' :
  process_blocks env blocks r = OK r' -> grows r r'.
Proof.
  revert r. induction blocks as [|b blocks IH]; simpl; intros r H.
  - inversion H; subst. apply grows_refl.
  - destruct b as [| | | | | |block]; try (now apply IH).
    destruct (is_str (dict_get "type" (JStr "") block) "tool_use").
    + destruct (_process_tool_use env block r) as [r1|e] eqn:E; simpl in H;
        [|discriminate].
      eapply grows_trans; [eapply tool_use_grows; eauto | now apply IH].
    + destruct (is_str (dict_get "type" (JStr "") block) "tool_result").
      * destruct (_process_tool_result block r) as [r1|e] eqn:E; simpl in H;
          [|discriminate].
        eapply grows_trans; [eapply tool_result_grows; eauto | now apply IH].
      * now apply IH.
Qed.

Lemma process_lines_grows env lines r r' :
  process_lines env lines r = OK r' -> grows r r'.
Proof.
  revert r. induction lines as [|raw lines IH]; simpl; intros r H.
  - inversion H; subst. apply grows_refl.
  - destruct (negb (Py.truthy (Py.strip raw))); [now apply IH|].
    destruct (json_loads env (Py.strip raw)) as [[| | | | | |obj]|];
      try discriminate; try (now apply IH).
    destruct (dict_get "message" (JObj []) obj) as [| | | | | |message];
      try (now apply IH).
    destruct (dict_get "content" JNull message) as [| | | | |blocks|];
      try (now apply IH).
    destruct (process_blocks env blocks r) as [r1|e] eqn:E; simpl in H;
      [|discriminate].
    eapply grows_trans; [eapply process_blocks_grows; eauto | now apply IH].
Qed.

Lemma bash_block_processed env block input c r :
  dict_get "name" (JStr "") block = JStr "Bash" ->
  dict_get "input" (JObj []) block = JObj input ->
  dict_get "command" (JStr "") input = JStr c ->
  c <> EmptyString ->
  _process_tool_use env block r
  = OK (emit (command_artifact c) (add_command (JStr c) (count_call r))).
Proof.
  intros Hn Hi Hc Hne. unfold _process_tool_use.
  rewrite Hn, Hi, Hc. simpl.
  destruct c as [|a c]; [contradiction|]. reflexivity.
Qed.

Lemma process_blocks_bash env blocks block input c r r' :
  In (JObj block) blocks ->
  dict_get "type" (JStr "") block = JStr "tool_use" ->
  dict_get "name" (JStr "") block = JStr "Bash" ->
  dict_get "input" (JObj []) block = JObj input ->
  dict_get "command" (JStr "") input = JStr c ->
  c <> EmptyString ->
  process_blocks env blocks r = OK r' ->
  In (JStr c) (commands_run r') /\ In (command_artifact c) (artifacts r').
Proof.
  intros Hin Ht Hn Hi Hc Hne. revert r.
  induction blocks as [|b blocks IH]; simpl; intros r H; [contradiction|].
  destruct Hin as [->|Hin].
  - rewrite Ht in H. simpl in H.
    rewrite (bash_block_processed env block input c r Hn Hi Hc Hne) in H.
    simpl in H. apply process_blocks_grows in H. destruct H as [H1 H2].
    split; [apply H1 | apply H2]; simpl; apply in_or_app; right; left;
      reflexivity.
  - destruct b as [| | | | | |b]; try (now apply (IH Hin r)).
    destruct (is_str (dict_get "type" (JStr "") b) "tool_use").
    + destruct (_process_tool_use env b r) as [r1|e]; simpl in H;
        [|discriminate]. now apply (IH Hin r1).
    + destruct (is_str (dict_get "type" (JStr "") b) "tool_result").
      * destruct (_process_tool_result b r) as [r1|e]; simpl in H;
          [|discriminate]. now apply (IH Hin r1).
      * now apply (IH Hin r).
Qed.

(** C9, amended. A [tool_use] block with name Bash and a non-empty command
    [c] appends the command itself, not truncated, to [commands_run] and
    emits a command artifact whose value is [c] truncated to 500
    characters; both are in the result of [extract_artifacts] whenever
    such a block occurs in the turn. *)
Theorem bash_command_recorded :
  (forall env block input c r,
      dict_get "name" (JStr "") block = JStr "Bash" ->
      dict_get "input" (JObj []) block = JObj input ->
      dict_get "command" (JStr "") input = JStr c ->
      c <> EmptyString ->
      _process_tool_use env block r
      = OK (emit (command_artifact c) (add_command (JStr c) (count_call r))))
  /\ (forall env raw_jsonl c r,
      bash_block_in env raw_jsonl c ->
      c <> EmptyString ->
      extract_artifacts env raw_jsonl = OK r ->
      In (JStr c) (commands_run r) /\ In (command_artifact c) (artifacts r)).
Proof.
  split; [exact bash_block_processed|].
  intros env raw_jsonl c r
    (raw & obj & message & blocks & block & input &
     Hraw & Htr & Hload & Hmsg & Hcont & Hblock & Ht & Hn & Hi & Hc) Hne.
  unfold extract_artifacts.
  destruct (negb (Py.truthy raw_jsonl)) eqn:Empty.
  { destruct raw_jsonl; [|discriminate]. simpl in Hraw.
    destruct Hraw as [<-|[]]. discriminate. }
  generalize no_artifacts.
  induction (Py.split (ascii_of_nat 10) raw_jsonl) as [|l lines IH];
    [contradiction|].
  intros r0 H. simpl in H. destruct Hraw as [->|Hraw].
  - rewrite Htr, Hload, Hmsg, Hcont in H. simpl in H.
    destruct (process_blocks env blocks r0) as [r1|e] eqn:E; simpl in H;
      [|discriminate].
    destruct (process_blocks_bash env blocks block input c r0 r1
                Hblock Ht Hn Hi Hc Hne E) as [H1 H2].
    apply process_lines_grows in H. destruct H as [G1 G2].
    split; [apply G1, H1 | apply G2, H2].
  - destruct (negb (Py.truthy (Py.strip l))); [now apply (IH Hraw r0)|].
    destruct (json_loads env (Py.strip l)) as [[| | | | | |o]|];
      try discriminate; try (now apply (IH Hraw r0)).
    destruct (dict_get "message" (JObj []) o) as [| | | | | |m];
      try (now apply (IH Hraw r0)).
    destruct (dict_get "content" JNull m) as [| | | | |bs|];
      try (now apply (IH Hraw r0)).
    destruct (process_blocks env bs r0) as [r1|e]; simpl in H; [|discriminate].
    now apply (IH Hraw r1).
Qed.

Lemma sample_bash_block :
  bash_block_in Sample.sample_env "b9" Sample.long_command.
Proof.
  exists "b9"%string.
  eexists. eexists. eexists. eexists. eexists.
  split; [left; reflexivity|].
  split; [reflexivity|].
  split; [reflexivity|].
  split; [reflexivity|].
  split; [reflexivity|].
  split; [left; reflexivity|].
  repeat split; reflexivity.
Qed.

Lemma bash_command_recorded_witness :
  exists r,
    extract_artifacts Sample.sample_env "b9" = OK r
    /\ In (JStr Sample.long_command) (commands_run r)
    /\ In (command_artifact Sample.long_command) (artifacts r).
Proof.
  destruct bash_command_recorded as [_ H].
  eexists. split; [vm_compute; reflexivity|].
  apply (H Sample.sample_env "b9"%string Sample.long_command).
  - exact sample_bash_block.
  - discriminate.
  - vm_compute. reflexivity.
Defined.

(** C9 as stated fails for a command of 501 characters: [commands_run]
    holds the whole command and not its first 500 characters. *)
Lemma bash_command_truncation_counterexample :
  ~ stated_bash_recorded Sample.sample_env "b9".
Proof.
  intros H.
  assert (E : exists r,
             extract_artifacts Sample.sample_env "b9" = OK r
             /\ commands_run r = [JStr Sample.long_command]).
  { eexists. split; vm_compute; reflexivity. }
  destruct E as (r & Hr & Hcmds).
  destruct (H Sample.long_command r sample_bash_block
              ltac:(discriminate) Hr) as [Hin _].
  rewrite Hcmds in Hin. destruct Hin as [Hin|[]].
  apply (f_equal (fun v => match v with
                           | JStr s => String.length s
                           | _ => O
                           end)) in Hin.
  vm_compute in Hin. discriminate Hin.
Qed.

End ArtifactsFacts.

Module FormatterFacts.
Import Formatter.

Lemma insert_desc_perm x l : Permutation (insert_desc x l) (x :: l).
Proof.
  induction l as [|y l IH]; simpl; [reflexivity|].
  destruct (Qle_bool (relevance_score y) (relevance_score x)); [reflexivity|].
  rewrite IH. apply perm_swap.
Qed.

Lemma sorted_desc_perm l : Permutation (sorted_desc l) l.
Proof.
  induction l as [|x l IH]; simpl; [reflexivity|].
  rewrite insert_desc_perm. now constructor.
Qed.

Lemma not_le_desc (x y : ContextBlock) :
  Qle_bool (relevance_score y) (relevance_score x) = false ->
  by_relevance_desc y x.
Proof.
  intros E. unfold by_relevance_desc.
  destruct (Qlt_le_dec (relevance_score x) (relevance_score y)) as [H|H].
  - now apply Qlt_le_weak.
  - apply Qle_bool_iff in H. congruence.
Qed.

Lemma insert_desc_sorted x l :
  Sorted by_relevance_desc l -> Sorted by_relevance_desc (insert_desc x l).
Proof.
  induction 1 as [|y l Hs IH Hd]; simpl.
  - repeat constructor.
  - destruct (Qle_bool (relevance_score y) (relevance_score x)) eqn:E.
    + constructor; [now constructor|].
      constructor. now apply Qle_bool_iff.
    + constructor; [exact IH|].
      destruct l as [|z l]; simpl.
      * constructor. now apply not_le_desc.
      * destruct (Qle_bool (relevance_score z) (relevance_score x)).
        -- constructor. now apply not_le_desc.
        -- constructor. now inversion Hd.
Qed.

Lemma sorted_desc_sorted l : Sorted by_relevance_desc (sorted_desc l).
Proof.
  induction l as [|x l IH]; simpl; [constructor|].
  now apply insert_desc_sorted.
Qed.

Lemma cost_positive b : 1 <= cost b.
Proof. unfold cost. lia. Qed.

Lemma greedy_fit_length budget bs :
  (List.length (greedy_fit budget bs) <= List.length bs)%nat.
Proof.
  revert budget. induction bs as [|b bs IH]; simpl; intros budget; [lia|].
  destruct (cost b <=? budget); simpl.
  - specialize (IH (budget - cost b)). lia.
  - specialize (IH budget). lia.
Qed.

Lemma greedy_fit_within budget bs :
  0 <= budget -> total_cost (greedy_fit budget bs) <= budget.
Proof.
  revert budget. induction bs as [|b bs IH]; simpl; intros budget Hb; [lia|].
  destruct (Z.leb_spec (cost b) budget) as [H|H]; simpl.
  - specialize (IH (budget - cost b)). lia.
  - now apply IH.
Qed.

Lemma greedy_fit_exhausted budget bs : budget <= 0 -> greedy_fit budget bs = [].
Proof.
  intros Hb. induction bs as [|b bs IH]; simpl; [reflexivity|].
  pose proof (cost_positive b).
  destruct (Z.leb_spec (cost b) budget); [lia | exact IH].
Qed.

(** The loop, with its four variables, computes [greedy_fit]. *)
Lemma loop_greedy bs st :
  let st' := fold_left loop_body bs st in
  formatted_parts st'
  = formatted_parts st
    ++ map _format_single_block (greedy_fit (remaining st) bs)
  /\ (overflow st' + List.length (greedy_fit (remaining st) bs)
      = overflow st + List.length bs)%nat.
Proof.
  revert st. induction bs as [|b bs IH]; intros st; simpl.
  - rewrite app_nil_r. split; [reflexivity | lia].
  - unfold loop_body at 2 4. fold (cost b).
    change (_estimate_tokens (_format_single_block b)) with (cost b).
    destruct (cost b <=? remaining st) eqn:E.
    + destruct (IH (mkLoop (remaining st - cost b)
                      (formatted_parts st ++ [_format_single_block b])
                      (S (included st)) (overflow st))) as [H1 H2].
      simpl in *. rewrite H1, <- app_assoc. simpl. split; [reflexivity | lia].
    + destruct (IH (mkLoop (remaining st) (formatted_parts st) (included st)
                      (S (overflow st)))) as [H1 H2].
      simpl in *. rewrite H1. split; [reflexivity | lia].
Qed.

Lemma format_is_render blocks max_tokens :
  format_context_blocks blocks max_tokens
  = render overflow_note (List.length blocks)
      (greedy_fit (max_tokens - header_cost) (sorted_desc blocks)).
Proof.
  assert (body : forall bs,
    (let st := fold_left loop_body (sorted_desc bs)
                 (mkLoop (max_tokens - header_cost) [] 0 0) in
     match formatted_parts st with
     | [] => EmptyString
     | _ =>
         let result := header +:+ Py.join Py.nl (formatted_parts st) in
         if (0 <? overflow st)%nat
         then result +:+ overflow_note (overflow st)
         else result
     end)
    = render overflow_note (List.length bs)
        (greedy_fit (max_tokens - header_cost) (sorted_desc bs))).
  { intros bs. cbv zeta.
    destruct (loop_greedy (sorted_desc bs)
                (mkLoop (max_tokens - header_cost) [] 0 0)) as [H1 H2].
    simpl in H1, H2. rewrite H1.
    rewrite (Permutation_length (sorted_desc_perm bs)) in H2.
    set (kept := greedy_fit (max_tokens - header_cost) (sorted_desc bs)) in *.
    set (st := fold_left loop_body (sorted_desc bs) _) in *.
    unfold render. destruct kept as [|k kept]; [reflexivity|].
    cbn [map].
    destruct (Nat.ltb_spec 0 (overflow st));
      destruct (Nat.ltb_spec (List.length (k :: kept)) (List.length bs));
      try lia; try reflexivity.
    replace (List.length bs - List.length (k :: kept))%nat with (overflow st)
      by lia.
    reflexivity. }
  destruct blocks as [|b0 blocks]; [reflexivity|].
  exact (body (b0 :: blocks)).
Qed.

Lemma overflow_note_text n :
  overflow_note n = note_text source_dash "`" n.
Proof. reflexivity. Qed.

(** C7, amended. The formatter sorts the blocks by relevance, highest
    first; after charging the header it goes through them in that order
    and keeps every block whose cost [max(1, len(formatted)/4)] fits the
    budget left at its turn; the kept blocks never cost more than the
    budget and none is kept once the budget is used up; the output is
    the header and the kept blocks, followed, when n > 0 blocks were
    dropped, by the note of the source with the count n, in which the
    words [focus search] stand in backquotes; it is the empty string when
    no block is kept. *)
Theorem format_context_blocks_greedy blocks max_tokens :
  let sorted := sorted_desc blocks in
  let kept := greedy_fit (max_tokens - header_cost) sorted in
  Permutation sorted blocks
  /\ Sorted by_relevance_desc sorted
  /\ format_context_blocks blocks max_tokens
     = render overflow_note (List.length blocks) kept
  /\ (forall n, overflow_note n = note_text source_dash "`" n)
  /\ (0 <= max_tokens - header_cost ->
      header_cost + total_cost kept <= max_tokens)
  /\ (max_tokens - header_cost <= 0 -> kept = [])
  /\ (kept = [] -> format_context_blocks blocks max_tokens = EmptyString)
  /\ (forall b, In b blocks -> 1 <= cost b).
Proof.
  cbv zeta. split; [apply sorted_desc_perm|].
  split; [apply sorted_desc_sorted|].
  split; [apply format_is_render|].
  split; [apply overflow_note_text|].
  split.
  { intros H. pose proof (greedy_fit_within _ (sorted_desc blocks) H). lia. }
  split; [apply greedy_fit_exhausted|].
  split.
  { intros H. rewrite format_is_render, H. reflexivity. }
  intros b _. apply cost_positive.
Qed.

Lemma format_context_blocks_greedy_witness :
  0 <= 50 - header_cost
  /\ format_context_blocks [big_block; small_block] 50
     = render overflow_note 2 [small_block]
  /\ header_cost + total_cost [small_block] <= 50.
Proof.
  destruct (format_context_blocks_greedy [big_block; small_block] 50)
    as (_ & _ & H3 & _ & H4 & _).
  split; [vm_compute; discriminate|].
  split; [exact H3|].
  apply H4. vm_compute. discriminate.
Defined.

(** C7 as stated fails on the note. With a budget of 50 tokens, a block
    costing 101 tokens and one costing 2, the second is kept and one
    block is dropped; the output ends in the note of the source, which is
    not the note as stated: also with the dash as stated, the words
    [focus search] stand in backquotes, not in single quotes. *)
Lemma format_note_counterexample :
  format_context_blocks [big_block; small_block] 50
  <> stated_format [big_block; small_block] 50
  /\ render (note_text em_dash "`") 2 [small_block]
     <> stated_format [big_block; small_block] 50.
Proof.
  split; intros H; vm_compute in H; discriminate H.
Qed.

End FormatterFacts.

Module ClassifierFacts.
Import World Classifier.

(** The score is one of the six floors, chosen by the five tests. *)
Lemma confidence_floor r :
  _compute_confidence r
  = if Py.otruthy (explicit_project r) then (9 # 10)%Q
    else match project_slugs r with
         | _ :: _ => (8 # 10)%Q
         | [] =>
             match person_names r with
             | _ :: _ => (7 # 10)%Q
             | [] =>
                 if Py.otruthy (workspace_project r) then (5 # 10)%Q
                 else if negb (String.eqb (query_type r) "general")
                      then (3 # 10)%Q
                      else (1 # 10)%Q
             end
         end.
Proof.
  unfold _compute_confidence.
  destruct (Py.otruthy (explicit_project r));
    destruct (project_slugs r); destruct (person_names r);
    destruct (Py.otruthy (workspace_project r));
    destruct (negb (String.eqb (query_type r) "general"));
    reflexivity.
Qed.

Lemma explicit_set_truthy (o : option string) :
  Py.otruthy (if Py.otruthy o then o else None) = Py.otruthy o.
Proof. destruct (Py.otruthy o) eqn:E; [exact E | reflexivity]. Qed.

Lemma classify_short env self prompt cwd :
  short_prompt prompt -> classify env self prompt cwd = no_classification.
Proof.
  intros [->|H]; unfold classify; [reflexivity|].
  apply Nat.ltb_lt in H. rewrite H, orb_true_r. reflexivity.
Qed.

Lemma classify_long prompt :
  ~ short_prompt prompt ->
  negb (Py.truthy prompt) || (String.length (Py.strip prompt) <? 3)%nat = false.
Proof.
  intros H. apply orb_false_iff. split.
  - destruct prompt; [exfalso; apply H; left; reflexivity | reflexivity].
  - apply Nat.ltb_ge. destruct (Nat.le_gt_cases 3 (String.length (Py.strip prompt)));
      [assumption | exfalso; apply H; right; assumption].
Qed.

Lemma short_prompt_dec prompt : short_prompt prompt \/ ~ short_prompt prompt.
Proof.
  unfold short_prompt. destruct prompt as [|c s].
  - left. left. reflexivity.
  - destruct (Nat.lt_ge_cases (String.length (Py.strip (String c s))) 3).
    + left. right. assumption.
    + right. intros [E|E]; [discriminate | lia].
Qed.

Ltac q_facts :=
  repeat match goal with
  | |- _ /\ _ => split
  | |- _ <-> _ => split; intros
  | |- (_ <= _)%Q => unfold Qle; simpl; lia
  | H : (_ <= _)%Q |- _ => unfold Qle in H; simpl in H; lia
  | H : (_ < _)%Q |- _ => unfold Qlt in H; simpl in H; lia
  | |- (_ < _)%Q => unfold Qlt; simpl; lia
  end.

(** C6, amended. For every prompt and cwd the confidence is in [0,1];
    [confidence <= 0.1] holds if and only if no project slug matched, no
    person name matched, no non-empty workspace project is set, no explicit
    project is set, and the query type is general; [confidence < 0.1]
    holds exactly for the zero classification of an empty prompt or of a
    prompt of fewer than 3 characters once stripped. *)
Theorem classify_confidence env self prompt cwd :
  let r := classify env self prompt cwd in
  confidence_contract Qle r
  /\ ((confidence r < 1 # 10)%Q <-> short_prompt prompt)
  /\ (short_prompt prompt -> r = no_classification).
Proof.
  cbv zeta. destruct (short_prompt_dec prompt) as [Hs|Hl].
  - rewrite (classify_short env self prompt cwd Hs).
    unfold confidence_contract, nothing_matched. simpl.
    q_facts; auto.
  - split; [|split; [|intros Hs; contradiction]].
    + unfold classify. rewrite (classify_long prompt Hl).
      cbv zeta. unfold confidence_contract, nothing_matched.
      cbn [confidence project_slugs person_names workspace_project
           explicit_project query_type].
      rewrite confidence_floor.
      cbn [confidence project_slugs person_names workspace_project
           explicit_project query_type].
      rewrite explicit_set_truthy.
      set (ex := ProjectStateStore.get_active_project env cwd).
      set (slugs := match_projects _ _ _).
      set (people := match_people _ _).
      set (ws := if Py.otruthy cwd then _ else None).
      set (qt := _detect_query_type prompt).
      destruct (Py.otruthy ex) eqn:Eex.
      { q_facts;
          try (destruct H as (_ & _ & _ & H & _); rewrite H in Eex;
               discriminate Eex). }
      destruct slugs as [|s slugs].
      2:{ q_facts; try (destruct H as (H & _); discriminate H). }
      destruct people as [|p people].
      2:{ q_facts; try (destruct H as (_ & H & _); discriminate H). }
      destruct (Py.otruthy ws) eqn:Ews.
      { q_facts; try (destruct H as (_ & _ & H & _); discriminate H). }
      destruct (String.eqb_spec qt "general") as [Eq|Eq]; simpl.
      * q_facts; auto.
      * q_facts; try (destruct H as (_ & _ & _ & _ & H); contradiction).
    + split; [|intros Hs; contradiction].
      intros H. exfalso.
      unfold classify in H. rewrite (classify_long prompt Hl) in H.
      cbv zeta in H. cbn [confidence] in H. rewrite confidence_floor in H.
      repeat match type of H with
             | context [if ?b then _ else _] => destruct b
             | context [match ?l with [] => _ | _ :: _ => _ end] => destruct l
             end;
        unfold Qlt in H; simpl in H; lia.
Qed.

(** C6 as stated fails in the direction from right to left: for the
    prompt [hello world] with no cwd and no known entity nothing matches,
    and the confidence is 0.1, which is not below 0.1. *)
Lemma confidence_floor_counterexample :
  ~ confidence_contract Qlt
      (classify Sample.sample_env no_entities "hello world" None).
Proof.
  intros (_ & _ & H).
  assert (Hn : nothing_matched
                 (classify Sample.sample_env no_entities "hello world" None)).
  { vm_compute. repeat split; reflexivity. }
  apply H in Hn. vm_compute in Hn. discriminate Hn.
Qed.

End ClassifierFacts.

Module PyFacts.

Lemma take_length n s : String.length (Py.take n s) = Nat.min n (String.length s).
Proof.
  revert s. induction n as [|n IH]; intros [|c s]; simpl; try reflexivity.
  now rewrite IH.
Qed.



Lemma truthy_false s : Py.truthy s = false -> s = EmptyString.
Proof. destruct s; [reflexivity | discriminate]. Qed.

Lemma uuid_parse_str u : Models.uuid_parse (Models.uuid_str u) = Some u.
Proof.
  unfold Models.uuid_parse, Models.uuid_str, Py.str_of_N.
  rewrite NilEmpty.usu. f_equal. apply DecimalN.Unsigned.of_to.
Qed.

Lemma uuid_str_inj u v : Models.uuid_str u = Models.uuid_str v -> u = v.
Proof.
  intros H. apply (f_equal Models.uuid_parse) in H.
  rewrite !uuid_parse_str in H. now inversion H.
Qed.

End PyFacts.

Arguments Py.take : simpl never.

Module SummaryFacts.
Import Json Exc World Models Worker PyFacts.

Lemma get_turn_updated f tid db :
  (forall t, turn_id (f t) = turn_id t) ->
  get_turn (update_turn f tid db) tid = option_map f (get_turn db tid).
Proof.
  intros Hid. unfold get_turn, update_turn. simpl.
  induction (turns db) as [|a l IH]; simpl; [reflexivity|].
  destruct (N.eqb_spec (turn_id a) tid) as [E|E].
  - rewrite Hid, E, N.eqb_refl. reflexivity.
  - apply N.eqb_neq in E. rewrite E. exact IH.
Qed.








End SummaryFacts.

Module RecorderFacts.
Import Json Exc World Models Recorder.

Lemma parse_timestamp_typed env v :
  text_or_falsy v = true -> exists z, _parse_timestamp env v = OK z.
Proof.
  intros H. unfold _parse_timestamp.
  destruct (negb (truthy v)) eqn:E; [eauto|].
  destruct v; simpl in H, E; try congruence; eauto.
Qed.

Lemma db_text_typed v : text_or_null v = true -> exists m, db_text v = OK m.
Proof. destruct v; simpl; intros H; try discriminate; eauto. Qed.

Lemma db_text_array_typed l :
  forallb is_text l = true -> exists ss, db_text_array l = OK ss.
Proof.
  induction l as [|v l IH]; simpl; intros H; [eauto|].
  apply andb_true_iff in H as [Hv Hl].
  destruct v; try discriminate. destruct (IH Hl) as [ss ->]. simpl. eauto.
Qed.

Lemma valid_timestamps_typed env parsed :
  Forall well_typed parsed -> exists l, valid_timestamps env parsed = OK l.
Proof.
  induction 1 as [|t parsed (_ & _ & Hs & _) _ [l IH]]; simpl; [eauto|].
  destruct (parse_timestamp_typed env _ Hs) as [z ->]. rewrite IH. simpl. eauto.
Qed.

Lemma number_free db sid n :
  (forall t, In t (turns db) -> turn_session t = sid ->
             (turn_number t < n)%nat) ->
  turn_number_taken db sid n = false.
Proof.
  intros H. unfold turn_number_taken.
  destruct (existsb _ (turns db)) eqn:E; [|reflexivity].
  apply existsb_exists in E as (t & Hin & Ht).
  apply andb_true_iff in Ht as [Hs Hn].
  apply N.eqb_eq in Hs. apply Nat.eqb_eq in Hn.
  specialize (H t Hin Hs). lia.
Qed.

(** The loop on a session none of whose stored turns carries one of the
    parsed hashes or numbers: every turn is inserted. *)
Lemma record_turns_fresh env sid parsed : forall db k recorded skipped,
  Forall well_typed parsed ->
  map Parser.turn_number parsed = seq k (List.length parsed) ->
  (forall t, In t (turns db) -> turn_session t = sid ->
             (turn_number t < k)%nat) ->
  exists db' new,
    record_turns env sid ∅ parsed db recorded skipped
    = OK (db', (recorded + List.length parsed)%nat, skipped)
    /\ sessions db' = sessions db
    /\ jobs db' = jobs db
    /\ projects db' = projects db
    /\ turns db' = turns db ++ new
    /\ map content_hash new = map Parser.content_hash parsed
    /\ Forall (fun t => turn_session t = sid) new
    /\ Forall (fun t => assistant_summary t = None) new
    /\ map turn_id new = fresh_ids (next_uuid db) (List.length parsed).
Proof.
  induction parsed as [|p parsed IH]; intros db k recorded skipped Hty Hnum Hfree.
  - exists db, []. simpl. rewrite Nat.add_0_r, app_nil_r. repeat split; auto.
  - inversion Hty as [|? ? Hp Hrest]; subst.
    simpl in Hnum. inversion Hnum as [[Hk Hnums]].
    destruct Hp as (Hm & Ht & Hs & He).
    cbn [record_turns].
    rewrite bool_decide_eq_false_2 by apply not_elem_of_empty.
    destruct (parse_timestamp_typed env _ Hs) as [zs ->].
    destruct (parse_timestamp_typed env _ He) as [ze ->].
    destruct (db_text_typed _ Hm) as [m ->].
    destruct (db_text_array_typed _ Ht) as [ss ->].
    cbn [bind uuid4].
    rewrite number_free.
    2:{ cbn [turns]. intros t Hin Hsid. specialize (Hfree t Hin Hsid). lia. }
    match goal with
    | |- context [record_turns env sid ∅ parsed ?d ?r ?s] =>
        destruct (IH d (S (Parser.turn_number p)) r s Hrest) as
          (db' & new & Hrun & Hsess & Hjobs & Hproj & Hturns & Hhash & Hsid
           & Hnone & Hids)
    end.
    + exact Hnums.
    + cbn [turns with_contents with_turns]. intros t Hin Hsid.
      apply in_app_or in Hin as [Hin|[<-|[]]].
      * specialize (Hfree t Hin Hsid). lia.
      * simpl. lia.
    + eexists. eexists. rewrite Hrun.
      split; [f_equal; f_equal; f_equal; simpl; lia|].
      split; [exact Hsess|]. split; [exact Hjobs|]. split; [exact Hproj|].
      split; [rewrite Hturns; cbn [turns with_contents with_turns];
              rewrite <- app_assoc; reflexivity|].
      split; [simpl; f_equal; exact Hhash|].
      split; [constructor; [reflexivity | exact Hsid]|].
      split; [constructor; [reflexivity | exact Hnone]|].
      simpl. f_equal. exact Hids.
Qed.

(** The loop on a session that already holds every parsed hash: every
    turn is skipped and the database is left alone. *)
Lemma record_turns_known env sid (existing : gset string) parsed :
  forall db recorded skipped,
  (forall p, In p parsed -> Parser.content_hash p ∈ existing) ->
  record_turns env sid existing parsed db recorded skipped
  = OK (db, recorded, (skipped + List.length parsed)%nat).
Proof.
  induction parsed as [|p parsed IH]; intros db recorded skipped Hall.
  - simpl. rewrite Nat.add_0_r. reflexivity.
  - cbn [record_turns].
    rewrite bool_decide_eq_true_2 by (apply Hall; left; reflexivity).
    rewrite IH by (intros q Hq; apply Hall; right; exact Hq).
    f_equal. f_equal. simpl. lia.
Qed.

Lemma find_session_updated f id db sid :
  (forall s, session_id (f s) = session_id s) ->
  find_session (update_session f id db) sid
  = option_map (fun s => if N.eqb (sess_id s) id then f s else s)
               (find_session db sid).
Proof.
  intros Hf. unfold find_session, update_session. simpl.
  induction (sessions db) as [|s l IH]; simpl; [reflexivity|].
  assert (E : session_id (if N.eqb (sess_id s) id then f s else s)
              = session_id s).
  { destruct (N.eqb (sess_id s) id); [apply Hf | reflexivity]. }
  rewrite E. destruct (String.eqb (session_id s) sid); [reflexivity | exact IH].
Qed.

Lemma find_app_fresh (l : list AgentSession) s sid :
  find (fun x => String.eqb (session_id x) sid) l = None ->
  session_id s = sid ->
  find (fun x => String.eqb (session_id x) sid) (l ++ [s]) = Some s.
Proof.
  intros Hnone Hs. induction l as [|a l IH]; simpl in *.
  - rewrite Hs, String.eqb_refl. reflexivity.
  - destruct (String.eqb (session_id a) sid); [discriminate | now apply IH].
Qed.

Lemma hash_known db sid new p parsed :
  Forall (fun t => turn_session t = sid) new ->
  map content_hash new = map Parser.content_hash parsed ->
  In p parsed ->
  forall old, turns db = old ++ new ->
  Parser.content_hash p ∈ hashes_of db sid.
Proof.
  intros Hsid Hhash Hin old Hturns. unfold hashes_of.
  apply elem_of_list_to_set, list_elem_of_In.
  assert (H : In (Parser.content_hash p) (map content_hash new)).
  { rewrite Hhash. now apply in_map. }
  apply in_map_iff in H as (t & Ht & Htin).
  apply in_map_iff. exists t. split; [exact Ht|].
  apply filter_In. split.
  - rewrite Hturns. apply in_or_app. now right.
  - rewrite List.Forall_forall in Hsid. rewrite (Hsid t Htin).
    apply N.eqb_refl.
Qed.

(** The body of [record_session] once the transcript has parsed. *)
Lemma parsed_numbered env lines parsed :
  Parser.parse_lines env lines = OK parsed ->
  map Parser.turn_number parsed = seq 0 (List.length parsed).
Proof.
  unfold Parser.parse_lines. intros H.
  destruct (Parser.collect_messages env lines) as [ms|e]; simpl in H;
    [|discriminate].
  inversion H; subst. apply ParserFacts.group_turns_numbered.
Qed.

Lemma alike_comparable (aware : bool) (l : list datetime) :
  Forall (fun d => tz_aware d = aware) l -> comparable l = true.
Proof.
  intros H. destruct l as [|d l]; [reflexivity|].
  inversion H as [|? ? Hd Hl]; subst. cbn [comparable].
  apply forallb_forall. intros x Hx. rewrite List.Forall_forall in Hl.
  rewrite (Hl x Hx). now destruct (tz_aware d).
Qed.

(** Start times of one kind compare with each other. *)
Lemma same_zone_comparable env parsed : forall valid,
  same_zone env parsed ->
  valid_timestamps env parsed = OK valid ->
  comparable valid = true.
Proof.
  intros valid [aware Hz] Hv. apply (alike_comparable aware).
  revert valid Hz Hv.
  induction parsed as [|t parsed IH]; intros valid Hz Hv;
    cbn [valid_timestamps forallb] in *.
  - inversion Hv; subst. constructor.
  - apply andb_true_iff in Hz as [Ht Hz]. unfold zone_is in Ht.
    destruct (_parse_timestamp env (Parser.started_at t)) as [ts|];
      cbn [bind] in Hv; [|discriminate].
    destruct (valid_timestamps env parsed) as [tss|]; cbn [bind] in Hv;
      [|discriminate].
    inversion Hv; subst; clear Hv.
    destruct ts as [d|];
      [constructor; [now apply Bool.eqb_prop in Ht|]|]; now apply IH.
Qed.

Lemma record_first env db sid path wpath lines p ps :
  db_wf db ->
  fresh_session db sid ->
  read_lines env path = Some lines ->
  Parser.parse_lines env lines = OK (p :: ps) ->
  Forall well_typed (p :: ps) ->
  (forall valid, valid_timestamps env (p :: ps) = OK valid ->
                 comparable valid = true) ->
  exists db1 new s1,
    record_session env db sid path wpath
    = OK (db1, mkSummary sid (List.length (p :: ps)) 0 None)
    /\ find_session db1 sid = Some s1
    /\ sess_id s1 = next_uuid db
    /\ project_id s1 = None
    /\ jobs db1 = jobs db
    /\ projects db1 = projects db
    /\ turns db1 = turns db ++ new
    /\ map content_hash new = map Parser.content_hash (p :: ps)
    /\ Forall (fun t => turn_session t = next_uuid db) new
    /\ Forall (fun t => assistant_summary t = None) new
    /\ map turn_id new
       = fresh_ids (N.succ (next_uuid db)) (List.length (p :: ps)).
Proof.
  intros Hwf Hfresh Hread Hparse Hty Hcmp.
  pose proof (parsed_numbered env lines _ Hparse) as Hnum.
  unfold record_session, Parser.parse_session_into_turns.
  rewrite Hread, Hparse. cbn [bind]. cbv iota.
  remember (p :: ps) as parsed eqn:Ep.
  unfold fresh_session in Hfresh. rewrite Hfresh. cbn [uuid4].
  set (sess := mkSession (next_uuid db) sid (Some path) (Some wpath)
                 None None None None None 0 false).
  set (db0 := with_sessions _ (_ ++ [sess])).
  destruct (record_turns_fresh env (next_uuid db) parsed db0 0%nat 0%nat 0%nat
              Hty Hnum)
    as (db' & new & Hrun & Hsess & Hjobs & Hproj & Hturns & Hhash & Hsid
        & Hnone & Hids).
  { intros t Hin Hs. destruct Hwf as [_ Hwf].
    rewrite List.Forall_forall in Hwf. destruct (Hwf t Hin) as [_ Hlt].
    rewrite Hs in Hlt. lia. }
  rewrite Hrun. cbn [bind].
  destruct (valid_timestamps_typed env parsed Hty) as [valid Hvalid].
  rewrite Hvalid. cbn [bind]. rewrite (Hcmp valid Hvalid). cbn [negb].
  eexists. exists new. eexists.
  split; [reflexivity|].
  split.
  { rewrite find_session_updated by reflexivity.
    assert (Hfind : find_session db' sid = Some sess).
    { unfold find_session. rewrite Hsess. subst db0.
      cbn [sessions with_sessions].
      apply find_app_fresh; [exact Hfresh | reflexivity]. }
    rewrite Hfind. cbn [option_map sess sess_id]. rewrite N.eqb_refl.
    reflexivity. }
  split; [reflexivity|]. split; [reflexivity|].
  split; [exact Hjobs|]. split; [exact Hproj|].
  split; [exact Hturns|]. split; [exact Hhash|]. split; [exact Hsid|].
  split; [exact Hnone | exact Hids].
Qed.

Lemma record_again env db1 sid path wpath lines parsed s1 valid :
  read_lines env path = Some lines ->
  Parser.parse_lines env lines = OK parsed ->
  valid_timestamps env parsed = OK valid ->
  comparable valid = true ->
  find_session db1 sid = Some s1 ->
  (forall q, In q parsed -> Parser.content_hash q ∈ hashes_of db1 (sess_id s1)) ->
  exists db2,
    record_session env db1 sid path wpath
    = OK (db2, mkSummary sid 0 (List.length parsed) None)
    /\ turns db2 = turns db1
    /\ jobs db2 = jobs db1.
Proof.
  intros Hread Hparse Hvalid Hcmp Hfind Hknown.
  unfold record_session, Parser.parse_session_into_turns.
  rewrite Hread, Hparse. cbn [bind].
  destruct parsed as [|p ps].
  { exists db1. repeat split; reflexivity. }
  cbv iota. remember (p :: ps) as parsed eqn:Ep.
  rewrite Hfind. rewrite record_turns_known by exact Hknown.
  cbn [bind]. rewrite Hvalid. cbn [bind]. rewrite Hcmp. cbn [negb].
  eexists. split; [reflexivity|]. split; reflexivity.
Qed.

(** The loop on a session without stored turns, once it has returned:
    every turn was inserted. *)
Lemma record_turns_inserted env sid parsed :
  forall db recorded skipped db' r k,
  record_turns env sid ∅ parsed db recorded skipped = OK (db', r, k) ->
  r = (recorded + List.length parsed)%nat /\ k = skipped
  /\ sessions db' = sessions db
  /\ exists new,
       turns db' = turns db ++ new
       /\ map content_hash new = map Parser.content_hash parsed
       /\ Forall (fun t => turn_session t = sid) new.
Proof.
  induction parsed as [|p parsed IH]; intros db recorded skipped db' r k H;
    cbn [record_turns] in H.
  - inversion H; subst. split; [simpl; lia|]. split; [reflexivity|].
    split; [reflexivity|]. exists []. rewrite app_nil_r.
    repeat split. constructor.
  - rewrite bool_decide_eq_false_2 in H by apply not_elem_of_empty.
    destruct (_parse_timestamp env (Parser.started_at p)) as [st|];
      cbn [bind] in H; [|discriminate].
    destruct (_parse_timestamp env (Parser.ended_at p)) as [en|];
      cbn [bind] in H; [|discriminate].
    cbn [uuid4] in H.
    destruct (db_text (Parser.model_name p)) as [mo|];
      cbn [bind] in H; [|discriminate].
    destruct (db_text_array (Parser.tool_names p)) as [tools|];
      cbn [bind] in H; [|discriminate].
    destruct (turn_number_taken _ sid (Parser.turn_number p));
      [discriminate|].
    apply IH in H as (H1 & H2 & H3 & new & H4 & H5 & H6).
    cbn [turns sessions with_turns with_contents] in H3, H4.
    split; [simpl; lia|]. split; [exact H2|]. split; [exact H3|].
    eexists (_ :: new). rewrite <- app_assoc in H4. cbn [app] in H4.
    split; [exact H4|]. split; [cbn [map content_hash]; now rewrite H5|].
    constructor; [reflexivity | exact H6].
Qed.

(** When [record_session] returns, the start times compared with each
    other. *)
Lemma recorded_comparable env db sid path wpath lines parsed db1 r :
  read_lines env path = Some lines ->
  Parser.parse_lines env lines = OK parsed ->
  record_session env db sid path wpath = OK (db1, r) ->
  forall valid, valid_timestamps env parsed = OK valid ->
                comparable valid = true.
Proof.
  intros Hread Hparse H valid Hv. unfold record_session in H.
  unfold Parser.parse_session_into_turns in H. rewrite Hread, Hparse in H.
  cbn [bind] in H. destruct parsed as [|p ps].
  { cbn in Hv. inversion Hv; subst. reflexivity. }
  cbv iota in H. remember (p :: ps) as parsed eqn:Ep.
  set (pre := match find_session db sid with
              | Some s0 => _ | None => _ end) in H.
  destruct pre as [[agent ex] db0].
  destruct (record_turns env agent ex parsed db0 0 0) as [[[db2 rec] k]|];
    cbn [bind] in H; [|discriminate].
  rewrite Hv in H. cbn [bind] in H.
  destruct (comparable valid); [reflexivity | discriminate H].
Qed.

(** C3, amended. For every transcript that parses into N turns: whenever
    a first [record_session] on a fresh session returns, it returns
    [turns_recorded = N], [turns_skipped = 0] and has inserted N turn
    rows, and the same call repeated at once returns
    [turns_recorded = 0], [turns_skipped = N] and leaves the turn rows as
    they are. The first call does return for every transcript in the
    transcript format (model and tool names are strings, timestamps are
    strings) whose start times, where they parse, all carry a time zone
    or all carry none, when [uuid4] returns ids that are not in use. *)
Theorem record_session_idempotent :
  (forall env db sid path wpath lines parsed db1 r,
      fresh_session db sid ->
      read_lines env path = Some lines ->
      Parser.parse_lines env lines = OK parsed ->
      record_session env db sid path wpath = OK (db1, r) ->
      r = mkSummary sid (List.length parsed) 0 None
      /\ List.length (turns db1)
         = (List.length (turns db) + List.length parsed)%nat
      /\ exists db2,
           record_session env db1 sid path wpath
           = OK (db2, mkSummary sid 0 (List.length parsed) None)
           /\ turns db2 = turns db1)
  /\ (forall env db sid path wpath lines parsed,
      db_wf db ->
      fresh_session db sid ->
      read_lines env path = Some lines ->
      Parser.parse_lines env lines = OK parsed ->
      Forall well_typed parsed ->
      same_zone env parsed ->
      exists db1,
        record_session env db sid path wpath
        = OK (db1, mkSummary sid (List.length parsed) 0 None)).
Proof.
  split.
  - intros env db sid path wpath lines parsed db1 r Hfresh Hread Hparse H.
    pose proof H as Hrun. unfold record_session in H.
    unfold Parser.parse_session_into_turns in H.
    rewrite Hread, Hparse in H. cbn [bind] in H.
    destruct parsed as [|p ps].
    { inversion H; subst db1 r. split; [reflexivity|].
      split; [simpl; lia|]. exists db. split; [exact Hrun | reflexivity]. }
    cbv iota in H. remember (p :: ps) as parsed eqn:Ep.
    unfold fresh_session in Hfresh. rewrite Hfresh in H. cbn [uuid4] in H.
    set (sess := mkSession (next_uuid db) sid (Some path) (Some wpath)
                   None None None None None 0 false) in H.
    set (db0 := with_sessions _ (_ ++ [sess])) in H.
    destruct (record_turns env (next_uuid db) ∅ parsed db0 0 0)
      as [[[db2 rec] k]|] eqn:RT; cbn [bind] in H; [|discriminate].
    destruct (valid_timestamps env parsed) as [valid|] eqn:V;
      cbn [bind] in H; [|discriminate].
    destruct (comparable valid) eqn:C; cbn [negb] in H; [|discriminate].
    apply record_turns_inserted in RT
      as (R1 & R2 & R3 & new & R4 & R5 & R6).
    cbn [Nat.add] in R1. subst rec k.
    inversion H; subst db1 r; clear H.
    set (db1 := update_session _ (next_uuid db) db2) in *.
    assert (T1 : turns db1 = turns db ++ new) by exact R4.
    assert (F1 : find_session db1 sid
                 = Some (update_metadata (map instant valid)
                           (Z.of_nat (size (∅ : gset string))
                            + Z.of_nat (List.length parsed)) path sess)).
    { subst db1. rewrite find_session_updated by reflexivity.
      assert (Hfind : find_session db2 sid = Some sess).
      { unfold find_session. rewrite R3. subst db0.
        cbn [sessions with_sessions].
        apply find_app_fresh; [exact Hfresh | reflexivity]. }
      rewrite Hfind. cbn [option_map sess sess_id]. now rewrite N.eqb_refl. }
    split; [reflexivity|]. split.
    { rewrite T1, length_app. f_equal.
      apply (f_equal (@List.length _)) in R5. now rewrite !length_map in R5. }
    destruct (record_again env db1 sid path wpath lines parsed _ valid
                Hread Hparse V C F1) as (db3 & Hrun3 & Hturns3 & _).
    { intros q Hq. cbn [update_metadata sess_id sess].
      exact (hash_known db1 (next_uuid db) new q parsed R6 R5 Hq
               (turns db) T1). }
    exists db3. split; [exact Hrun3 | exact Hturns3].
  - intros env db sid path wpath lines parsed Hwf Hfresh Hread Hparse Hty Hz.
    destruct parsed as [|p ps].
    { exists db. unfold record_session, Parser.parse_session_into_turns.
      rewrite Hread, Hparse. reflexivity. }
    assert (Hcmp : forall valid, valid_timestamps env (p :: ps) = OK valid ->
                                 comparable valid = true).
    { intros valid. now apply same_zone_comparable. }
    destruct (record_first env db sid path wpath lines p ps
                Hwf Hfresh Hread Hparse Hty Hcmp) as (db1 & _ & _ & Hrun & _).
    exists db1. exact Hrun.
Qed.

Lemma sample_db_wf : db_wf empty_db.
Proof. split; constructor. Qed.

(** A transcript that parses into two turns, the first of which has a
    start time with a zone and the second one without: the first call on
    a fresh session raises, and records nothing. *)
Lemma record_session_mixed_zones_counterexample :
  Parser.parse_lines Sample.mixed_env Sample.sample_lines
  = OK Sample.sample_turns
  /\ List.length Sample.sample_turns = 2%nat
  /\ fresh_session empty_db "S"
  /\ record_session Sample.mixed_env empty_db "S" "/t/s.jsonl" "/w"
     = Raise "TypeError".
Proof. repeat split; vm_compute; reflexivity. Qed.

Lemma record_session_idempotent_witness :
  exists db1 db2,
    record_session Sample.sample_env empty_db "S" "/t/s.jsonl" "/w"
    = OK (db1, mkSummary "S" 2 0 None)
    /\ record_session Sample.sample_env db1 "S" "/t/s.jsonl" "/w"
       = OK (db2, mkSummary "S" 0 2 None)
    /\ turns db2 = turns db1.
Proof.
  destruct record_session_idempotent as [Hsame Hreturns].
  assert (P : Parser.parse_lines Sample.sample_env Sample.sample_lines
              = OK Sample.sample_turns) by (vm_compute; reflexivity).
  destruct (Hreturns Sample.sample_env empty_db "S"%string "/t/s.jsonl"%string
              "/w"%string Sample.sample_lines Sample.sample_turns)
    as (db1 & H1).
  - exact sample_db_wf.
  - reflexivity.
  - reflexivity.
  - exact P.
  - vm_compute. repeat constructor.
  - exists true. vm_compute. reflexivity.
  - destruct (Hsame Sample.sample_env empty_db "S"%string "/t/s.jsonl"%string
                "/w"%string Sample.sample_lines Sample.sample_turns db1 _
                eq_refl eq_refl P H1) as (_ & _ & db2 & H2 & H3).
    exists db1, db2. split; [exact H1|]. split; [exact H2 | exact H3].
Defined.

End RecorderFacts.

Module FanOutFacts.
Import Json Exc World Models Worker PyFacts.

Lemma existsb_key k db :
  existsb (Jobs.has_dedupe_key k) (jobs db) = true <-> has_key (Some k) db.
Proof.
  unfold has_key. rewrite existsb_exists, in_map_iff. split.
  - intros (j & Hin & Hk). exists j. split; [|exact Hin].
    unfold Jobs.has_dedupe_key in Hk. destruct (dedupe_key j) as [k'|];
      [|discriminate]. apply String.eqb_eq in Hk. now subst.
  - intros (j & Hk & Hin). exists j. split; [exact Hin|].
    unfold Jobs.has_dedupe_key. rewrite Hk. apply String.eqb_refl.
Qed.

(** What one [enqueue_job] with a non-empty key does to the queue. *)
Lemma enqueue_keyed db now kd p c s prio ma :
  let k := String c s in
  let db' := fst (Jobs.enqueue_job db now kd p (Some k) prio ma) in
  sessions db' = sessions db
  /\ turns db' = turns db
  /\ (has_key (Some k) db -> jobs db' = jobs db)
  /\ (~ has_key (Some k) db ->
      jobs db'
      = jobs db ++ [mkJob (next_uuid db) kd (Some k) p Queued prio 0%N ma
                          None None now now])
  /\ has_key (Some k) db'
  /\ (forall k', has_key k' db -> has_key k' db').
Proof.
  cbv zeta. unfold Jobs.enqueue_job. cbn [uuid4 Py.otruthy Py.truthy default].
  set (db1 := mkDB _ _ _ _ _ (N.succ _)).
  assert (E : existsb (Jobs.has_dedupe_key (String c s)) (jobs db1) = true
              <-> has_key (Some (String c s)) db).
  { rewrite existsb_key. unfold has_key. reflexivity. }
  destruct (existsb _ (jobs db1)) eqn:Ex; cbn [fst].
  - assert (H : has_key (Some (String c s)) db) by (apply E; reflexivity).
    repeat split; auto. intros Hn. contradiction.
  - assert (H : ~ has_key (Some (String c s)) db).
    { intros H. apply E in H. discriminate. }
    split; [reflexivity|]. split; [reflexivity|].
    split; [intros H'; contradiction|]. split; [reflexivity|].
    unfold has_key. cbn [jobs with_jobs]. split.
    + rewrite map_app. apply in_or_app. right. left. reflexivity.
    + intros k' Hk'. rewrite map_app. apply in_or_app. left. exact Hk'.
Qed.

Lemma enqueue_children_keys now db t :
  let db' := enqueue_children now db t in
  sessions db' = sessions db
  /\ turns db' = turns db
  /\ (forall c, In c (child_jobs_of (turn_id t)) -> has_key (snd (fst c)) db')
  /\ (forall k, has_key k db -> has_key k db').
Proof.
  cbv zeta. unfold enqueue_children.
  set (tid := uuid_str (turn_id t)).
  pose proof (enqueue_keyed db now "turn_summary" [("turn_id", tid)]%string
                "t" ("urn_summary:" +:+ tid) 15 10) as H1. cbv zeta in H1.
  change (String "t" ("urn_summary:" +:+ tid))
    with ("turn_summary:" +:+ tid) in H1.
  set (db1 := fst (Jobs.enqueue_job db now "turn_summary" _ _ 15 10)) in *.
  pose proof (enqueue_keyed db1 now "entity_extract" [("turn_id", tid)]%string
                "e" ("ntity_extract:" +:+ tid) 20 10) as H2. cbv zeta in H2.
  change (String "e" ("ntity_extract:" +:+ tid))
    with ("entity_extract:" +:+ tid) in H2.
  set (db2 := fst (Jobs.enqueue_job db1 now "entity_extract" _ _ 20 10)) in *.
  pose proof (enqueue_keyed db2 now "artifact_extract" [("turn_id", tid)]%string
                "a" ("rtifact_extract:" +:+ tid) 18 10) as H3. cbv zeta in H3.
  change (String "a" ("rtifact_extract:" +:+ tid))
    with ("artifact_extract:" +:+ tid) in H3.
  set (db3 := fst (Jobs.enqueue_job db2 now "artifact_extract" _ _ 18 10)) in *.
  destruct H1 as (S1 & T1 & _ & _ & K1 & M1).
  destruct H2 as (S2 & T2 & _ & _ & K2 & M2).
  destruct H3 as (S3 & T3 & _ & _ & K3 & M3).
  split; [congruence|]. split; [congruence|]. split.
  - intros c [<-|[<-|[<-|[]]]]; cbn [fst snd]; fold tid; auto.
  - intros k Hk. auto.
Qed.

Lemma fold_children_keys now ts : forall db,
  let db' := fold_left (enqueue_children now) ts db in
  sessions db' = sessions db
  /\ turns db' = turns db
  /\ (forall t c, In t ts -> In c (child_jobs_of (turn_id t)) ->
                  has_key (snd (fst c)) db')
  /\ (forall k, has_key k db -> has_key k db').
Proof.
  induction ts as [|t ts IH]; intros db; cbv zeta; simpl.
  - repeat split; auto. intros t c [].
  - destruct (enqueue_children_keys now db t) as (S1 & T1 & K1 & M1).
    destruct (IH (enqueue_children now db t)) as (S2 & T2 & K2 & M2).
    cbv zeta in *. split; [congruence|]. split; [congruence|]. split.
    + intros u c [<-|Hu] Hc; [apply M2, K1, Hc | now apply (K2 u c)].
    + intros k Hk. apply M2, M1, Hk.
Qed.

(** The recording loop touches neither the queue nor the sessions. *)
Lemma record_turns_other env sid (ex : gset string) parsed :
  forall db recorded skipped db' r s,
  Recorder.record_turns env sid ex parsed db recorded skipped = OK (db', r, s) ->
  jobs db' = jobs db /\ sessions db' = sessions db.
Proof.
  induction parsed as [|p parsed IH]; intros db recorded skipped db' r s H.
  - inversion H; subst. auto.
  - cbn [Recorder.record_turns] in H.
    destruct (bool_decide _); [now apply IH in H|].
    destruct (Recorder._parse_timestamp env (Parser.started_at p));
      cbn [bind] in H; [|discriminate].
    destruct (Recorder._parse_timestamp env (Parser.ended_at p));
      cbn [bind] in H; [|discriminate].
    cbn [uuid4] in H.
    destruct (Recorder.db_text (Parser.model_name p));
      cbn [bind] in H; [|discriminate].
    destruct (Recorder.db_text_array (Parser.tool_names p));
      cbn [bind] in H; [|discriminate].
    destruct (Recorder.turn_number_taken _ _ _); [discriminate|].
    apply IH in H. destruct H as (H1 & H2). auto.
Qed.

(** A successful [record_session] leaves the queue alone; when it
    recorded a turn, the session row exists afterwards. *)
Lemma record_session_queue env db sid path wpath db1 r :
  Recorder.record_session env db sid path wpath = OK (db1, r) ->
  jobs db1 = jobs db
  /\ ((0 < Recorder.turns_recorded r)%nat ->
      exists s, Recorder.find_session db1 sid = Some s).
Proof.
  unfold Recorder.record_session. intros H.
  destruct (read_lines env path) as [lines|].
  2:{ inversion H; subst. split; [reflexivity | simpl; lia]. }
  destruct (Parser.parse_session_into_turns env path) as [parsed|e];
    cbn [bind] in H; [|discriminate].
  destruct parsed as [|p ps].
  { inversion H; subst. split; [reflexivity | simpl; lia]. }
  remember (p :: ps) as parsed eqn:Ep. cbv iota in H.
  destruct (Recorder.find_session db sid) as [s0|] eqn:Hfind.
  - destruct (Recorder.record_turns env (sess_id s0) _ parsed db 0 0)
      as [[[db2 rec] skip]|e] eqn:Hrun; cbn [bind] in H; [|discriminate].
    destruct (Recorder.valid_timestamps env parsed) as [valid|e];
      cbn [bind] in H; [|discriminate].
    destruct (negb (Recorder.comparable valid)); [discriminate|].
    inversion H; subst; clear H.
    apply record_turns_other in Hrun. destruct Hrun as (Hj & Hs).
    split; [exact Hj|]. intros _.
    rewrite RecorderFacts.find_session_updated by reflexivity.
    unfold Recorder.find_session in *. rewrite Hs, Hfind. simpl. eauto.
  - cbn [uuid4] in H.
    match type of H with
    | context [Recorder.record_turns env ?i ?e parsed ?d 0 0] =>
        destruct (Recorder.record_turns env i e parsed d 0 0)
          as [[[db2 rec] skip]|err] eqn:Hrun
    end; cbn [bind] in H; [|discriminate].
    destruct (Recorder.valid_timestamps env parsed) as [valid|e];
      cbn [bind] in H; [|discriminate].
    destruct (negb (Recorder.comparable valid)); [discriminate|].
    inversion H; subst; clear H.
    apply record_turns_other in Hrun. destruct Hrun as (Hj & Hs).
    split; [exact Hj|]. intros _.
    rewrite RecorderFacts.find_session_updated by reflexivity.
    unfold Recorder.find_session in *. rewrite Hs.
    cbn [sessions with_sessions].
    erewrite RecorderFacts.find_app_fresh; [simpl; eauto | exact Hfind |].
    reflexivity.
Qed.

(** Linking a session to a project only writes [project_id]. *)
Lemma link_session env db sid w :
  let db' := _link_session_to_project env db sid w in
  jobs db' = jobs db
  /\ turns db' = turns db
  /\ (forall s, Recorder.find_session db sid = Some s ->
        exists s', Recorder.find_session db' sid = Some s'
                   /\ sess_id s' = sess_id s).
Proof.
  cbv zeta. unfold _link_session_to_project.
  destruct (negb _);
    [split; [reflexivity|]; split; [reflexivity|]; intros s Hs; eauto|].
  destruct (find _ (projects db)) as [project|];
    [|split; [reflexivity|]; split; [reflexivity|]; intros s Hs; eauto].
  destruct (Recorder.find_session db sid) as [a|] eqn:Hfind;
    [|split; [reflexivity|]; split; [reflexivity|]; intros s Hs;
      discriminate Hs].
  destruct (project_id a);
    [split; [reflexivity|]; split; [reflexivity|]; intros s Hs;
     exists a; split; [exact Hfind | congruence]|].
  split; [reflexivity|]. split; [reflexivity|].
  intros s Hs. rewrite RecorderFacts.find_session_updated by reflexivity.
  rewrite Hfind in *. inversion Hs; subst. simpl.
  destruct (N.eqb (sess_id s) (sess_id s)); eexists; split; reflexivity.
Qed.

Lemma fresh_ids_ge u n v : In v (fresh_ids u n) -> (u <= v)%N.
Proof.
  revert u. induction n as [|n IH]; simpl; intros u H; [contradiction|].
  destruct H as [<-|H]; [lia|]. apply IH in H. lia.
Qed.

Lemma fresh_ids_NoDup u n : List.NoDup (fresh_ids u n).
Proof.
  revert u. induction n as [|n IH]; simpl; intros u; constructor.
  - intros H. apply fresh_ids_ge in H. lia.
  - apply IH.
Qed.

Lemma append_inj_l p a b : p +:+ a = p +:+ b -> a = b.
Proof.
  induction p as [|c p IH]; simpl; intros H; [exact H|].
  inversion H. now apply IH.
Qed.

(** Two child jobs with the same dedupe key are the same job of the same
    turn. *)
Lemma child_key_inj u v c c' :
  In c (child_jobs_of u) -> In c' (child_jobs_of v) ->
  snd (fst c) = snd (fst c') -> u = v /\ c = c'.
Proof.
  intros [<-|[<-|[<-|[]]]] [<-|[<-|[<-|[]]]] H; cbn [fst snd] in H;
    try (cbn [String.append] in H; discriminate H);
    inversion H as [E]; apply append_inj_l, uuid_str_inj in E; subst;
    split; reflexivity.
Qed.

Lemma has_key_summary k db :
  has_key k db <-> In k (map (fun c => snd (fst c)) (map job_summary (jobs db))).
Proof. unfold has_key. rewrite map_map. reflexivity. Qed.

Lemma enqueue_children_exact now db t :
  (forall c, In c (child_jobs_of (turn_id t)) -> ~ has_key (snd (fst c)) db) ->
  map job_summary (jobs (enqueue_children now db t))
  = map job_summary (jobs db) ++ child_jobs_of (turn_id t).
Proof.
  intros Hfree. unfold enqueue_children.
  set (tid := uuid_str (turn_id t)).
  pose proof (enqueue_keyed db now "turn_summary" [("turn_id", tid)]%string
                "t" ("urn_summary:" +:+ tid) 15 10) as H1. cbv zeta in H1.
  change (String "t" ("urn_summary:" +:+ tid))
    with ("turn_summary:" +:+ tid) in H1.
  set (db1 := fst (Jobs.enqueue_job db now "turn_summary" _ _ 15 10)) in *.
  pose proof (enqueue_keyed db1 now "entity_extract" [("turn_id", tid)]%string
                "e" ("ntity_extract:" +:+ tid) 20 10) as H2. cbv zeta in H2.
  change (String "e" ("ntity_extract:" +:+ tid))
    with ("entity_extract:" +:+ tid) in H2.
  set (db2 := fst (Jobs.enqueue_job db1 now "entity_extract" _ _ 20 10)) in *.
  pose proof (enqueue_keyed db2 now "artifact_extract" [("turn_id", tid)]%string
                "a" ("rtifact_extract:" +:+ tid) 18 10) as H3. cbv zeta in H3.
  change (String "a" ("rtifact_extract:" +:+ tid))
    with ("artifact_extract:" +:+ tid) in H3.
  set (db3 := fst (Jobs.enqueue_job db2 now "artifact_extract" _ _ 18 10)) in *.
  destruct H1 as (_ & _ & _ & J1 & _ & _).
  destruct H2 as (_ & _ & _ & J2 & _ & _).
  destruct H3 as (_ & _ & _ & J3 & _ & _).
  assert (F1 : ~ has_key (Some ("turn_summary:" +:+ tid)) db).
  { apply (Hfree ("turn_summary"%string, Some ("turn_summary:" +:+ tid), 15)).
    left. reflexivity. }
  assert (F2 : ~ has_key (Some ("entity_extract:" +:+ tid)) db).
  { apply (Hfree ("entity_extract"%string, Some ("entity_extract:" +:+ tid), 20)).
    right. left. reflexivity. }
  assert (F3 : ~ has_key (Some ("artifact_extract:" +:+ tid)) db).
  { apply (Hfree ("artifact_extract"%string,
                  Some ("artifact_extract:" +:+ tid), 18)).
    right. right. left. reflexivity. }
  specialize (J1 F1).
  assert (G2 : ~ has_key (Some ("entity_extract:" +:+ tid)) db1).
  { unfold has_key. rewrite J1, map_app. intros H.
    apply in_app_or in H as [H|[H|[]]]; [exact (F2 H)|].
    cbn [dedupe_key String.append] in H. discriminate H. }
  specialize (J2 G2).
  assert (G3 : ~ has_key (Some ("artifact_extract:" +:+ tid)) db2).
  { unfold has_key. rewrite J2, J1, !map_app. intros H.
    apply in_app_or in H as [H|[H|[]]];
      [apply in_app_or in H as [H|[H|[]]]; [exact (F3 H)|]|];
      cbn [dedupe_key String.append] in H; discriminate H. }
  specialize (J3 G3).
  rewrite J3, J2, J1, !map_app, <- !app_assoc. reflexivity.
Qed.

Lemma fold_children_exact now ts : forall db done,
  map job_summary (jobs db) = flat_map child_jobs_of done ->
  List.NoDup (done ++ map turn_id ts) ->
  map job_summary (jobs (fold_left (enqueue_children now) ts db))
  = flat_map child_jobs_of (done ++ map turn_id ts).
Proof.
  induction ts as [|t ts IH]; intros db done Hsum Hnd; simpl.
  - rewrite app_nil_r. exact Hsum.
  - simpl in Hnd.
    replace (done ++ turn_id t :: map turn_id ts)
      with ((done ++ [turn_id t]) ++ map turn_id ts)
      by (rewrite <- app_assoc; reflexivity).
    apply IH.
    + rewrite enqueue_children_exact.
      * rewrite Hsum, flat_map_app. simpl. reflexivity.
      * intros c Hc Hkey. apply has_key_summary in Hkey.
        rewrite Hsum in Hkey. apply in_map_iff in Hkey as (c' & Heq & Hin).
        apply in_flat_map in Hin as (v & Hv & Hc').
        destruct (child_key_inj v (turn_id t) c' c Hc' Hc Heq) as [-> _].
        apply NoDup_remove_2 in Hnd. apply Hnd.
        apply in_or_app. left. exact Hv.
    + rewrite <- app_assoc. exact Hnd.
Qed.

Lemma filter_none {A} (f : A -> bool) l :
  (forall x, In x l -> f x = false) -> List.filter f l = [].
Proof.
  induction l as [|a l IH]; simpl; intros H; [reflexivity|].
  rewrite (H a) by (left; reflexivity). apply IH. intros x Hx. apply H. now right.
Qed.

Lemma filter_all {A} (f : A -> bool) l :
  (forall x, In x l -> f x = true) -> List.filter f l = l.
Proof.
  induction l as [|a l IH]; simpl; intros H; [reflexivity|].
  rewrite (H a) by (left; reflexivity). f_equal. apply IH.
  intros x Hx. apply H. now right.
Qed.

(** The handler after a successful [record_session] that reported a new
    turn. *)
Lemma fan_out_runs now sid dbL a :
  Recorder.find_session dbL sid = Some a ->
  let db' :=
    fst (Jobs.enqueue_job
           (fold_left (enqueue_children now)
                      (unsummarized_turns dbL (sess_id a)) dbL)
           now "session_summary" [("session_id", sid)]%string
           (Some ("session_summary:" +:+ sid)) 25 10) in
  turns db' = turns dbL /\ fanned_out db' sid.
Proof.
  intros Hfind. cbv zeta.
  destruct (fold_children_keys now (unsummarized_turns dbL (sess_id a)) dbL)
    as (S1 & T1 & K1 & M1). cbv zeta in S1, T1, K1, M1.
  set (dbF := fold_left _ _ dbL) in *.
  pose proof (enqueue_keyed dbF now "session_summary"
                [("session_id", sid)]%string
                "s" ("ession_summary:" +:+ sid) 25 10) as H. cbv zeta in H.
  change (String "s" ("ession_summary:" +:+ sid))
    with ("session_summary:" +:+ sid) in H.
  set (db' := fst (Jobs.enqueue_job dbF now "session_summary" _ _ 25 10)) in *.
  destruct H as (S2 & T2 & _ & _ & K2 & M2).
  split; [congruence|]. split.
  - intros t c (Hin & Hnone & s & Hs & Hts) Hc.
    apply M2, (K1 t c); [|exact Hc].
    assert (Es : s = a).
    { unfold Recorder.find_session in Hs, Hfind.
      rewrite S2, S1, Hfind in Hs. now inversion Hs. }
    subst s. unfold unsummarized_turns. apply filter_In. split.
    + rewrite T2, T1 in Hin. exact Hin.
    + rewrite Hts, N.eqb_refl, Hnone. reflexivity.
  - exact K2.
Qed.

(** C4, amended. A successful run of the session_process handler in
    which [record_session] recorded no new turn enqueues nothing. A run in
    which it recorded at least one turn leaves in the queue, for every
    turn of the session still lacking [assistant_summary], a job under
    each of the keys [turn_summary:id], [entity_extract:id] and
    [artifact_extract:id], and a job under the key [session_summary:sid]
    (a job is inserted only where no job holds the key yet). In
    particular, on a fresh session and an empty queue, when
    [record_session] returns, a transcript of N turns yields exactly, in
    this order, one turn_summary, one entity_extract and one
    artifact_extract job per turn and then one session_summary job: for
    N = 2, 2 + 2 + 2 child jobs plus 1. *)
Theorem session_process_fan_out :
  (forall env db now job sid path wpath db1 r,
      names_session job sid path wpath ->
      Recorder.record_session env db sid path wpath = OK (db1, r) ->
      Recorder.error r = None ->
      exists db',
        process_session_job env db now job = OK db'
        /\ turns db' = turns db1
        /\ (Recorder.turns_recorded r = 0%nat -> jobs db' = jobs db)
        /\ ((0 < Recorder.turns_recorded r)%nat -> fanned_out db' sid))
  /\ (forall env db now job sid path wpath lines parsed db1 r,
      names_session job sid path wpath ->
      Recorder.db_wf db ->
      Recorder.fresh_session db sid ->
      jobs db = [] ->
      read_lines env path = Some lines ->
      Parser.parse_lines env lines = OK parsed ->
      parsed <> [] ->
      Forall Recorder.well_typed parsed ->
      Recorder.record_session env db sid path wpath = OK (db1, r) ->
      exists db',
        process_session_job env db now job = OK db'
        /\ map job_summary (jobs db')
           = flat_map child_jobs_of
               (fresh_ids (N.succ (next_uuid db)) (List.length parsed))
             ++ [session_summary_job sid]).
Proof.
  split.
  - intros env db now job sid path wpath db1 r (Hsid & Hpath & Hw) Hrec Herr.
    unfold process_session_job. rewrite Hsid, Hpath, Hw, Hrec. cbn [bind].
    rewrite Herr. cbn [Py.otruthy].
    destruct (record_session_queue env db sid path wpath db1 r Hrec)
      as [Hjobs Hsess].
    set (dbL := if Py.truthy wpath
                then _link_session_to_project env db1 sid wpath else db1).
    assert (HL : jobs dbL = jobs db1 /\ turns dbL = turns db1
                 /\ (forall s, Recorder.find_session db1 sid = Some s ->
                       exists s', Recorder.find_session dbL sid = Some s'
                                  /\ sess_id s' = sess_id s)).
    { subst dbL. destruct (Py.truthy wpath).
      - apply link_session.
      - split; [reflexivity|]. split; [reflexivity|]. eauto. }
    destruct HL as (LJ & LT & LF).
    destruct (Nat.ltb_spec 0 (Recorder.turns_recorded r)) as [Hpos|Hzero].
    + destruct (Hsess Hpos) as [s Hs]. destruct (LF s Hs) as (a & Ha & _).
      rewrite Ha.
      destruct (fan_out_runs now sid dbL a Ha) as [HT HF].
      eexists. split; [reflexivity|].
      split; [rewrite HT; exact LT|].
      split; [intros E; lia | intros _; exact HF].
    + exists dbL. split; [reflexivity|]. split; [exact LT|].
      split; [intros _; congruence | intros H; lia].
  - intros env db now job sid path wpath lines parsed db0 r0
      (Hsid & Hpath & Hw) Hwf Hfresh Hempty Hread Hparse Hne Hty Hok.
    pose proof (RecorderFacts.recorded_comparable env db sid path wpath lines
                  parsed db0 r0 Hread Hparse Hok) as Hcmp.
    destruct parsed as [|p ps]; [contradiction|].
    destruct (RecorderFacts.record_first env db sid path wpath lines p ps
                Hwf Hfresh Hread Hparse Hty Hcmp)
      as (db1 & new & s1 & Hrun & Hfind & Hs1 & _ & Hjobs & _ & Hturns
          & _ & Hnew & Hnone & Hids).
    unfold process_session_job. rewrite Hsid, Hpath, Hw, Hrun. cbn [bind].
    cbn [Recorder.error Py.otruthy Recorder.turns_recorded].
    set (dbL := if Py.truthy wpath
                then _link_session_to_project env db1 sid wpath else db1).
    assert (HL : jobs dbL = jobs db1 /\ turns dbL = turns db1
                 /\ (forall s, Recorder.find_session db1 sid = Some s ->
                       exists s', Recorder.find_session dbL sid = Some s'
                                  /\ sess_id s' = sess_id s)).
    { subst dbL. destruct (Py.truthy wpath).
      - apply link_session.
      - split; [reflexivity|]. split; [reflexivity|]. eauto. }
    destruct HL as (LJ & LT & LF).
    destruct (LF s1 Hfind) as (a & Ha & Hida).
    change (0 <? List.length (p :: ps))%nat with true. cbv iota.
    rewrite Ha.
    assert (Hsel : unsummarized_turns dbL (sess_id a) = new).
    { unfold unsummarized_turns. rewrite LT, Hturns, List.filter_app.
      rewrite filter_none, filter_all; [reflexivity | |].
      - intros t Ht. rewrite List.Forall_forall in Hnew, Hnone.
        rewrite (Hnew t Ht), (Hnone t Ht), Hida, Hs1, N.eqb_refl. reflexivity.
      - intros t Ht. destruct Hwf as [_ Hwf].
        rewrite List.Forall_forall in Hwf. destruct (Hwf t Ht) as [_ Hlt].
        rewrite Hida, Hs1.
        destruct (N.eqb_spec (turn_session t) (next_uuid db)); [lia|].
        reflexivity. }
    rewrite Hsel.
    pose proof (fold_children_exact now new dbL []) as Hfold.
    rewrite LJ, Hjobs, Hempty in Hfold. specialize (Hfold eq_refl).
    cbn [app] in Hfold. rewrite Hids in Hfold.
    specialize (Hfold (fresh_ids_NoDup _ _)).
    set (dbF := fold_left (enqueue_children now) new dbL) in *.
    pose proof (enqueue_keyed dbF now "session_summary"
                  [("session_id", sid)]%string
                  "s" ("ession_summary:" +:+ sid) 25 10) as H. cbv zeta in H.
    change (String "s" ("ession_summary:" +:+ sid))
      with ("session_summary:" +:+ sid) in H.
    destruct H as (_ & _ & _ & J & _ & _).
    eexists. split; [reflexivity|].
    rewrite J.
    + rewrite map_app, Hfold. reflexivity.
    + intros Hkey. apply has_key_summary in Hkey. rewrite Hfold in Hkey.
      apply in_map_iff in Hkey as (c & Hc & Hin).
      apply in_flat_map in Hin as (v & _ & Hcv).
      destruct Hcv as [<-|[<-|[<-|[]]]];
        cbn [fst snd String.append] in Hc; discriminate Hc.
Qed.

Lemma session_process_fan_out_witness :
  exists db',
    process_session_job Sample.sample_env empty_db 9
      (job_for_session "S" "/t/s.jsonl" "/w") = OK db'
    /\ map job_summary (jobs db')
       = child_jobs_of 1%N ++ child_jobs_of 2%N ++ [session_summary_job "S"].
Proof.
  destruct session_process_fan_out as [_ H].
  destruct (Recorder.record_session Sample.sample_env empty_db
              "S" "/t/s.jsonl" "/w") as [[db1 r]|e] eqn:Hok;
    [|vm_compute in Hok; discriminate Hok].
  destruct (H Sample.sample_env empty_db 9
              (job_for_session "S" "/t/s.jsonl" "/w")
              "S"%string "/t/s.jsonl"%string "/w"%string
              Sample.sample_lines Sample.sample_turns db1 r)
    as (db' & Hrun & Hjobs).
  - repeat split; reflexivity.
  - exact RecorderFacts.sample_db_wf.
  - reflexivity.
  - reflexivity.
  - reflexivity.
  - vm_compute. reflexivity.
  - vm_compute. discriminate.
  - vm_compute. repeat constructor.
  - exact Hok.
  - exists db'. split; [exact Hrun | exact Hjobs].
Defined.

(** C4 as stated fails: when the transcript was already recorded (as the
    [record] command does, without the queue), a successful run of the
    handler records no new turn and enqueues nothing, although both turns
    of the session lack a summary and no session summary job exists. *)
Lemma fan_out_guard_counterexample :
  ~ stated_fan_out Sample.sample_env Sample.db_recorded 9
      (job_for_session "S" "/t/s.jsonl" "/w") "S".
Proof.
  intros H.
  assert (E : exists db',
             process_session_job Sample.sample_env Sample.db_recorded 9
               (job_for_session "S" "/t/s.jsonl" "/w") = OK db'
             /\ jobs db' = []).
  { eexists. split; vm_compute; reflexivity. }
  destruct E as (db' & E & Hj).
  destruct (H db' E) as [_ Hk].
  unfold has_key in Hk. rewrite Hj in Hk. exact Hk.
Qed.

End FanOutFacts.


Module QueueFacts.
Import Models Jobs Queue.

Lemma key_taken k l :
  existsb (has_dedupe_key k) l = true
  <-> In k (flat_map (fun j => match dedupe_key j with
                               | Some k' => [k'] | None => [] end) l).
Proof.
  rewrite existsb_exists, in_flat_map. split; intros (j & Hin & H); exists j;
    (split; [exact Hin|]); unfold has_dedupe_key in *;
    destruct (dedupe_key j) as [k'|]; simpl in *; try discriminate;
    try contradiction.
  - apply String.eqb_eq in H. now left.
  - destruct H as [->|[]]. apply String.eqb_refl.
Qed.

Lemma ids_of_map (g : FocusJob -> FocusJob) l :
  (forall j, job_id (g j) = job_id j) ->
  map job_id (map g l) = map job_id l.
Proof. intros H. rewrite map_map. apply map_ext. exact H. Qed.

Lemma keys_of_map (g : FocusJob -> FocusJob) l :
  (forall j, dedupe_key (g j) = dedupe_key j) ->
  flat_map (fun j => match dedupe_key j with Some k => [k] | None => [] end)
           (map g l)
  = flat_map (fun j => match dedupe_key j with Some k => [k] | None => [] end) l.
Proof.
  intros H. induction l as [|a l IH]; simpl; [reflexivity|].
  now rewrite H, IH.
Qed.

(** Rewriting rows in place, keeping ids and keys, keeps the indexes. *)
Lemma queue_ok_map (g : FocusJob -> FocusJob) db :
  (forall j, job_id (g j) = job_id j) ->
  (forall j, dedupe_key (g j) = dedupe_key j) ->
  queue_ok db -> queue_ok (with_jobs db (map g (jobs db))).
Proof.
  intros Hid Hkey (H1 & H2 & H3). unfold queue_ok, dedupe_keys. simpl.
  rewrite ids_of_map, keys_of_map by assumption.
  split; [exact H1|]. split; [|exact H3].
  rewrite List.Forall_forall in *. intros j Hj.
  apply in_map_iff in Hj as (j0 & <- & Hj0). rewrite Hid. now apply H2.
Qed.

Lemma queue_ok_update f jid db :
  (forall j, job_id (f j) = job_id j) ->
  (forall j, dedupe_key (f j) = dedupe_key j) ->
  queue_ok db -> queue_ok (update_job f jid db).
Proof.
  intros Hid Hkey. unfold update_job. apply queue_ok_map; intros j;
    destruct (N.eqb (job_id j) jid); auto.
Qed.

Lemma queue_ok_insert db (job : FocusJob) :
  queue_ok db ->
  job_id job = next_uuid db ->
  (forall k, dedupe_key job = Some k -> ~ In k (dedupe_keys db)) ->
  queue_ok (with_jobs (snd (uuid4 db)) (jobs db ++ [job])).
Proof.
  intros (H1 & H2 & H3) Hid Hkey. unfold queue_ok, dedupe_keys. simpl.
  rewrite map_app, flat_map_app. simpl. split; [|split].
  - apply List.NoDup_app; [exact H1 | constructor; [intros []|constructor] |].
    intros x Hx [<-|[]]. rewrite Hid in Hx.
    apply in_map_iff in Hx as (j & Hj & Hin).
    rewrite List.Forall_forall in H2. specialize (H2 j Hin). lia.
  - apply Forall_app. split.
    + rewrite List.Forall_forall in *. intros j Hj. specialize (H2 j Hj). lia.
    + constructor; [|constructor]. rewrite Hid. lia.
  - destruct (dedupe_key job) as [k|]; simpl.
    + apply List.NoDup_app;
        [exact H3 | constructor; [intros []|constructor] |].
      intros x Hx [E|[]]. subst x. exact (Hkey k eq_refl Hx).
    + rewrite app_nil_r. exact H3.
Qed.

Lemma queue_ok_run db now op : queue_ok db -> queue_ok (run db now op).
Proof.
  intros Hok. destruct op as [k p dk prio ma|kinds lease|jid|jid msg|]; simpl.
  - unfold enqueue_job. cbn [uuid4].
    destruct (Py.otruthy dk) eqn:Edk.
    + destruct (existsb _ _) eqn:Ex; cbn [fst].
      * destruct Hok as (H1 & H2 & H3). split; [exact H1|]. split; [|exact H3].
        simpl. rewrite List.Forall_forall in *. intros j Hj.
        specialize (H2 j Hj). lia.
      * apply (queue_ok_insert db); [exact Hok | reflexivity|].
        simpl. intros k0 E Hin. inversion E; subst.
        apply key_taken in Hin. simpl in Ex. congruence.
    + cbn [fst]. apply (queue_ok_insert db); [exact Hok | reflexivity|].
      simpl. intros k0 E. discriminate E.
  - unfold claim_job. destruct (first_in_order _) as [sel|]; cbn [fst];
      [|exact Hok].
    apply queue_ok_update; [reflexivity | reflexivity | exact Hok].
  - apply queue_ok_update; [reflexivity | reflexivity | exact Hok].
  - unfold fail_job. destruct (get_job db jid) as [job|]; [|exact Hok].
    destruct (_ <? _); apply queue_ok_update; auto.
  - apply queue_ok_map; [| |exact Hok]; intros j;
      destruct (lease_expired now j); reflexivity.
Qed.

(** X1. The two unique indexes of [focus_jobs] (primary key, dedupe key)
    are invariants of the queue: when the ids in use are different from
    each other and below the counter of [uuid4], and the keys that are
    not NULL are different from each other, every operation keeps it so;
    hence it holds after every sequence of operations started on an
    empty table. *)
Theorem queue_indexes_invariant :
  (forall db now op, queue_ok db -> queue_ok (run db now op))
  /\ (forall calls, queue_ok (run_all empty_db calls)).
Proof.
  split; [exact queue_ok_run|].
  intros calls. unfold run_all.
  assert (H : queue_ok empty_db).
  { repeat split; constructor. }
  revert H. generalize empty_db.
  induction calls as [|c calls IH]; intros db H; simpl; [exact H|].
  apply IH. now apply queue_ok_run.
Qed.

Lemma queue_indexes_invariant_witness :
  queue_ok db_stale
  /\ queue_ok (run db_stale 100 Expire).
Proof.
  assert (H : queue_ok db_stale).
  { split; [|split]; simpl.
    - constructor; [intros []|constructor].
    - constructor; [reflexivity|constructor].
    - constructor; [intros []|constructor]. }
  split; [exact H|].
  destruct queue_indexes_invariant as [Hrun _].
  apply Hrun. exact H.
Defined.

Lemma with_jobs_same db : with_jobs db (jobs db) = db.
Proof. destruct db; reflexivity. Qed.

Lemma get_job_None_map db jid (f : FocusJob -> FocusJob) :
  get_job db jid = None ->
  map (fun j => if N.eqb (job_id j) jid then f j else j) (jobs db) = jobs db.
Proof.
  unfold get_job. induction (jobs db) as [|a l IH]; simpl; [reflexivity|].
  destruct (N.eqb (job_id a) jid); [discriminate|].
  intros H. now rewrite IH.
Qed.

Lemma enqueue_job_key db now kind payload c s priority max_attempts :
  let k := String c s in
  enqueue_job db now kind payload (Some k) priority max_attempts
  = if existsb (has_dedupe_key k) (jobs db) then (snd (uuid4 db), None)
    else
      let job := mkJob (next_uuid db) kind (Some k) payload Queued priority
                       0%N max_attempts None None now now in
      (with_jobs (snd (uuid4 db)) (jobs db ++ [job]), Some job).
Proof. reflexivity. Qed.

Lemma key_held k l job :
  dedupe_key job = Some k -> existsb (has_dedupe_key k) (l ++ [job]) = true.
Proof.
  intros H. rewrite existsb_app. simpl. unfold has_dedupe_key at 2.
  rewrite H, String.eqb_refl. apply orb_true_r.
Qed.

(** X2. Deduplication by key. For priorities and attempt limits that
    the [Integer] columns take, and a non-empty [dedupe_key]:
    [enqueue_job] returns nothing and leaves the table as it is when a row
    already holds the key; otherwise it appends one row, queued, with no
    attempts and no lock, carrying the key and the arguments, and returns
    it. Either way, a second [enqueue_job] with the same key, whatever its
    kind, payload or priority, returns nothing and changes no row. *)
Theorem enqueue_job_dedup db now kind payload k priority max_attempts
    now' kind' payload' priority' max_attempts' :
  k <> EmptyString ->
  int32 priority -> int32 max_attempts ->
  int32 priority' -> int32 max_attempts' ->
  let first := enqueue_job db now kind payload (Some k) priority max_attempts in
  let again := enqueue_job (fst first) now' kind' payload' (Some k)
                           priority' max_attempts' in
  snd again = None
  /\ jobs (fst again) = jobs (fst first)
  /\ (In k (dedupe_keys db) ->
      snd first = None /\ jobs (fst first) = jobs db)
  /\ (~ In k (dedupe_keys db) ->
      exists job,
        snd first = Some job
        /\ jobs (fst first) = jobs db ++ [job]
        /\ queued_row kind payload (Some k) priority max_attempts job).
Proof.
  intros Hk _ _ _ _. destruct k as [|c s]; [contradiction|]. cbv zeta.
  rewrite !enqueue_job_key. cbv zeta. unfold dedupe_keys.
  rewrite <- key_taken.
  destruct (existsb (has_dedupe_key (String c s)) (jobs db)) eqn:E;
    cbn [fst snd uuid4 jobs with_jobs].
  - rewrite E. cbn [fst snd jobs].
    split; [reflexivity|]. split; [reflexivity|]. split.
    + intros _. split; reflexivity.
    + intros Hn. now contradiction Hn.
  - rewrite key_held by reflexivity. cbn [fst snd jobs].
    split; [reflexivity|]. split; [reflexivity|]. split.
    + intros Hn. discriminate Hn.
    + intros _. eexists. split; [reflexivity|]. split; [reflexivity|].
      repeat split.
Qed.

Lemma enqueue_job_dedup_witness :
  let first := enqueue_job db_stale 5 "turn_summary" [] (Some "turn_summary:8"%string) 15 10 in
  let again := enqueue_job (fst first) 6 "x" [] (Some "turn_summary:8"%string) 1 1 in
  snd again = None /\ jobs (fst again) = jobs (fst first)
  /\ List.length (jobs (fst first)) = 2%nat.
Proof.
  pose proof (enqueue_job_dedup db_stale 5 "turn_summary" []
                "turn_summary:8" 15 10 6 "x" [] 1 1) as H.
  cbv zeta in H.
  destruct H as (H1 & H2 & _ & H4);
    [discriminate | unfold int32; lia | unfold int32; lia
     | unfold int32; lia | unfold int32; lia |].
  split; [exact H1|]. split; [exact H2|].
  destruct H4 as (job & _ & H & _).
  - simpl. intros [E|[]]. discriminate E.
  - rewrite H. reflexivity.
Defined.

(** X3. Without a key there is no deduplication. For priorities and
    attempt limits that the [Integer] columns take: when [dedupe_key] is
    [None] or the empty string ([if dedupe_key:] is false), every call
    appends a queued row with the arguments of the call and a NULL key
    and returns it, so that two calls in a row, even with the same
    arguments, add two rows. *)
Theorem enqueue_job_without_key db now kind payload dk priority max_attempts
    now' kind' payload' priority' max_attempts' :
  Py.otruthy dk = false ->
  int32 priority -> int32 max_attempts ->
  int32 priority' -> int32 max_attempts' ->
  let first := enqueue_job db now kind payload dk priority max_attempts in
  let again := enqueue_job (fst first) now' kind' payload' dk
                           priority' max_attempts' in
  exists job1 job2,
    snd first = Some job1 /\ snd again = Some job2
    /\ jobs (fst first) = jobs db ++ [job1]
    /\ jobs (fst again) = jobs db ++ [job1; job2]
    /\ queued_row kind payload None priority max_attempts job1
    /\ queued_row kind' payload' None priority' max_attempts' job2.
Proof.
  intros H _ _ _ _. cbv zeta. unfold enqueue_job. cbn [uuid4]. rewrite H.
  cbn [fst snd jobs with_jobs next_uuid]. rewrite <- app_assoc.
  do 2 eexists. split; [reflexivity|]. split; [reflexivity|].
  split; [reflexivity|]. split; [reflexivity|]. split; repeat split.
Qed.

Lemma enqueue_job_without_key_witness :
  List.length
    (jobs (fst (enqueue_job
                  (fst (enqueue_job db_stale 5 "k" [] (Some EmptyString) 1 1))
                  6 "k" [] (Some EmptyString) 1 1)))
  = 3%nat.
Proof.
  destruct (enqueue_job_without_key db_stale 5 "k" [] (Some EmptyString) 1 1
              6 "k" [] 1 1 eq_refl)
    as (job1 & job2 & _ & _ & _ & H & _); try (unfold int32; lia).
  rewrite H. reflexivity.
Defined.


Lemma get_job_mapped (g : FocusJob -> FocusJob) db jid :
  (forall j, job_id (g j) = job_id j) ->
  get_job (with_jobs db (map g (jobs db))) jid = option_map g (get_job db jid).
Proof.
  intros Hid. unfold get_job. simpl.
  induction (jobs db) as [|a l IH]; simpl; [reflexivity|].
  rewrite Hid. destruct (N.eqb (job_id a) jid); [reflexivity | exact IH].
Qed.

Lemma get_job_id db jid j : get_job db jid = Some j -> job_id j = jid.
Proof.
  unfold get_job. intros H. apply find_some in H as [_ H].
  now apply N.eqb_eq.
Qed.

Lemma get_job_In db jid j : get_job db jid = Some j -> In j (jobs db).
Proof. unfold get_job. intros H. now apply find_some in H as [H _]. Qed.

(** The job returned by [claim_job] carries the id of a row that was
    claimable. *)
Lemma claim_job_selected db now kinds lease r :
  snd (claim_job db now kinds lease) = Some r ->
  exists sel, In sel (jobs db) /\ claimable now kinds sel = true
              /\ job_id r = job_id sel.
Proof.
  unfold claim_job.
  destruct (first_in_order _) as [sel|] eqn:E; cbn [snd]; [|discriminate].
  intros H. apply JobsFacts.first_in_order_In in E.
  apply filter_In in E as [Hin Hc].
  exists sel. split; [exact Hin|]. split; [exact Hc|].
  now apply get_job_id in H.
Qed.

(** X4. The retry window. When [fail_job] is called on a job with
    [attempts < max_attempts], the wait is between 30 seconds and one
    hour; no [claim_job] at a time up to [now + wait] returns that job,
    whatever kinds it asks for; after that time the row is claimable. *)
Theorem fail_job_backoff_window db now jid msg job :
  get_job db jid = Some job ->
  Z.of_N (attempts job) < max_attempts job ->
  let db' := fail_job db now jid msg in
  let wait := backoff_seconds (attempts job) in
  30 <= wait <= 3600
  /\ (forall t kinds lease r,
        t <= now + wait ->
        snd (claim_job db' t kinds lease) = Some r -> job_id r <> jid)
  /\ (forall t, now + wait < t ->
        exists j, get_job db' jid = Some j /\ claimable t None j = true).
Proof.
  intros Hget Hlt. cbv zeta. unfold fail_job. rewrite Hget.
  apply Z.ltb_lt in Hlt. rewrite Hlt.
  assert (B : 30 <= backoff_seconds (attempts job) <= 3600).
  { unfold backoff_seconds.
    assert (1 <= 2 ^ Z.of_N (attempts job)).
    { apply (Z.pow_le_mono_r 2 0); lia. }
    lia. }
  split; [exact B|]. split.
  - intros t kinds lease r Ht Hr E.
    apply claim_job_selected in Hr as (sel & Hin & Hc & Hid).
    unfold update_job in Hin. cbn [jobs with_jobs] in Hin.
    apply in_map_iff in Hin as (j0 & Hsel & _).
    destruct (N.eqb_spec (job_id j0) jid) as [E0|E0].
    + subst sel. unfold claimable in Hc. cbn [mark_retry locked_until] in Hc.
      apply andb_true_iff in Hc as [Hc _].
      apply andb_true_iff in Hc as [_ Hc]. apply Z.ltb_lt in Hc. lia.
    + subst sel. congruence.
  - intros t Ht. rewrite JobsFacts.get_job_updated by reflexivity.
    rewrite Hget. eexists. split; [reflexivity|].
    unfold claimable. cbn [mark_retry status locked_until status_eqb].
    apply Z.ltb_lt in Ht. rewrite Ht. reflexivity.
Qed.

Lemma fail_job_backoff_window_witness :
  get_job db_stale 0%N <> None
  /\ 30 <= backoff_seconds 1 <= 3600
  /\ exists j, get_job (fail_job db_stale 100 0%N "boom") 0%N = Some j
               /\ claimable 200 None j = true.
Proof.
  assert (G : get_job db_stale 0%N
              = Some (mkJob 0%N "turn_summary" (Some "turn_summary:7"%string)
                            [] Processing 15 1%N 10 (Some 50) None 1 2))
    by reflexivity.
  destruct (fail_job_backoff_window db_stale 100 0%N "boom" _ G eq_refl)
    as (B & _ & H).
  split; [rewrite G; discriminate|]. split; [exact B|].
  apply H. reflexivity.
Defined.

(** X5. The schedule of [min((2 ** attempts) * 30, 3600)]: the wait
    doubles from 30 seconds up to attempt 6, is one hour from attempt 7 on,
    and never decreases with the number of attempts. *)
Theorem backoff_seconds_schedule (a b : N) :
  ((a <= 6)%N -> backoff_seconds a = 30 * 2 ^ Z.of_N a)
  /\ ((7 <= a)%N -> backoff_seconds a = 3600)
  /\ ((a <= b)%N -> backoff_seconds a <= backoff_seconds b).
Proof.
  unfold backoff_seconds. split; [|split].
  - intros H.
    assert (2 ^ Z.of_N a <= 2 ^ 6) by (apply Z.pow_le_mono_r; lia).
    change (2 ^ 6) with 64 in *. lia.
  - intros H.
    assert (2 ^ 7 <= 2 ^ Z.of_N a) by (apply Z.pow_le_mono_r; lia).
    change (2 ^ 7) with 128 in *. lia.
  - intros H.
    assert (2 ^ Z.of_N a <= 2 ^ Z.of_N b) by (apply Z.pow_le_mono_r; lia).
    lia.
Qed.

(** X6. A lease is exclusive. Once [claim_job] has returned a job with
    a lease of [lease] seconds, no later [claim_job] returns that job
    again, also not after [expire_stale_leases] has run at a time up to
    [now + lease]. *)
Theorem claimed_job_is_leased db now kinds lease r :
  snd (claim_job db now kinds lease) = Some r ->
  let db1 := fst (claim_job db now kinds lease) in
  forall t, t <= now + lease ->
    forall t' kinds' lease' r',
      (snd (claim_job db1 t' kinds' lease') = Some r' -> job_id r' <> job_id r)
      /\ (snd (claim_job (fst (expire_stale_leases db1 t)) t' kinds' lease')
           = Some r' -> job_id r' <> job_id r).
Proof.
  intros Hr. cbv zeta. intros t Ht t' kinds' lease' r'.
  pose proof Hr as Hsel. apply claim_job_selected in Hsel as (sel & _ & _ & Hid).
  unfold claim_job in Hr |- * at 2 4.
  destruct (first_in_order _) as [sel0|] eqn:E; cbn [snd fst] in *;
    [|discriminate].
  apply get_job_id in Hr.
  assert (P : forall j, In j (jobs (update_job (mark_claimed now lease)
                                               (job_id sel0) db)) ->
                        job_id j = job_id sel0 ->
                        status j = Processing
                        /\ locked_until j = Some (now + lease)).
  { intros j Hj Ej. unfold update_job in Hj. cbn [jobs with_jobs] in Hj.
    apply in_map_iff in Hj as (j0 & Hj0 & _).
    destruct (N.eqb_spec (job_id j0) (job_id sel0)) as [E0|E0].
    - subst j. split; reflexivity.
    - subst j. contradiction. }
  split; intros H E'; apply claim_job_selected in H as (s' & Hin & Hc & Hid').
  - destruct (P s' Hin) as [Hs _]; [congruence|].
    unfold claimable in Hc. rewrite Hs in Hc. discriminate.
  - cbn [expire_stale_leases fst jobs with_jobs] in Hin.
    apply in_map_iff in Hin as (j0 & Hs' & Hin0).
    assert (Ej0 : job_id j0 = job_id sel0).
    { destruct (lease_expired t j0); subst s'; simpl in *; congruence. }
    destruct (P j0 Hin0 Ej0) as [Hs Hl].
    assert (Hne : lease_expired t j0 = false).
    { unfold lease_expired. rewrite Hs, Hl. simpl. apply Z.ltb_ge. lia. }
    rewrite Hne in Hs'. subst s'.
    unfold claimable in Hc. rewrite Hs in Hc. discriminate.
Qed.

Lemma claimed_job_is_leased_witness :
  exists r, snd (claim_job db_three 100 None 300) = Some r
    /\ forall r', snd (claim_job (fst (claim_job db_three 100 None 300))
                                 200 None 300) = Some r' ->
                   job_id r' <> job_id r.
Proof.
  eexists. split; [reflexivity|].
  intros r'.
  exact (proj1 (claimed_job_is_leased db_three 100 None 300 _ eq_refl
                  100 ltac:(lia) 200 None 300 r')).
Defined.


Lemma not_expired_after now j :
  lease_expired now (if lease_expired now j then mark_expired now j else j)
  = false.
Proof.
  destruct (lease_expired now j) eqn:E; [reflexivity | exact E].
Qed.

Lemma count_status_cons db j l s :
  count_status (with_jobs db (j :: l)) s
  = ((if status_eqb (status j) s then 1 else 0)
     + count_status (with_jobs db l) s)%nat.
Proof.
  unfold count_status. cbn [jobs with_jobs List.filter].
  destruct (status_eqb (status j) s); reflexivity.
Qed.

Lemma expire_counts now l :
  let g := fun j => if lease_expired now j then mark_expired now j else j in
  let count := fun s l =>
    List.length (List.filter (fun j => status_eqb (status j) s) l) in
  (count Processing (map g l) + List.length (List.filter (lease_expired now) l)
   = count Processing l)%nat
  /\ (count Retry (map g l)
      = count Retry l + List.length (List.filter (lease_expired now) l))%nat.
Proof.
  cbv zeta. induction l as [|a l [IH1 IH2]]; [split; reflexivity|].
  cbn [map List.filter].
  destruct (lease_expired now a) eqn:E.
  - unfold lease_expired in E. apply andb_true_iff in E as [E _].
    rewrite E. apply JobsFacts.status_eqb_eq in E. rewrite E.
    cbn [mark_expired status status_eqb List.length]. lia.
  - destruct (status_eqb (status a) Processing),
             (status_eqb (status a) Retry); cbn [List.length]; lia.
Qed.

(** X7. [expire_stale_leases] leaves no processing row whose lock is
    before [now]; a second run at the same time resets nothing and
    returns 0; the returned count is the number of rows that moved from
    processing to retry; no row's attempts change; and when the count is
    0 the table is unchanged. *)
Theorem expire_stale_leases_resets db now :
  let db' := fst (expire_stale_leases db now) in
  let n := snd (expire_stale_leases db now) in
  Forall (fun j => lease_expired now j = false) (jobs db')
  /\ expire_stale_leases db' now = (db', 0%nat)
  /\ (count_status db' Processing + n = count_status db Processing)%nat
  /\ (count_status db' Retry = count_status db Retry + n)%nat
  /\ map attempts (jobs db') = map attempts (jobs db)
  /\ (n = 0%nat -> db' = db).
Proof.
  cbv zeta. unfold expire_stale_leases. cbn [fst snd jobs with_jobs].
  set (g := fun j => if lease_expired now j then mark_expired now j else j).
  assert (F : Forall (fun j => lease_expired now j = false) (map g (jobs db))).
  { apply List.Forall_forall. intros j Hj.
    apply in_map_iff in Hj as (j0 & <- & _). apply not_expired_after. }
  assert (Fix : forall l, Forall (fun j => lease_expired now j = false) l ->
                          map g l = l /\ List.filter (lease_expired now) l = []).
  { induction l as [|a l IH]; intros H; [split; reflexivity|].
    inversion H as [|? ? Ha Hl]; subst. destruct (IH Hl) as [IH1 IH2].
    simpl. unfold g at 1. rewrite Ha, IH1, IH2. split; reflexivity. }
  split; [exact F|]. split.
  { destruct (Fix _ F) as [-> ->]. reflexivity. }
  unfold count_status. cbn [jobs with_jobs].
  split; [|split; [|split]].
  - apply expire_counts.
  - apply expire_counts.
  - rewrite map_map. apply map_ext. intros j. unfold g.
    destruct (lease_expired now j); reflexivity.
  - intros Hn. apply length_zero_iff_nil in Hn.
    assert (Hall : Forall (fun j => lease_expired now j = false) (jobs db)).
    { apply List.Forall_forall. intros j Hj.
      destruct (lease_expired now j) eqn:E; [|reflexivity].
      assert (Hf : In j (List.filter (lease_expired now) (jobs db))).
      { apply filter_In. split; assumption. }
      rewrite Hn in Hf. destruct Hf. }
    destruct (Fix _ Hall) as [-> _]. apply with_jobs_same.
Qed.

(** X8. Recovery of a lost lease. A processing job whose lock is before
    [t] is, after [expire_stale_leases] at [t], in status retry with no
    lock and the same number of attempts; it is claimable at once, so a
    [claim_job] without kind filter returns a job. *)
Theorem expired_lease_recovered db t jid job u :
  get_job db jid = Some job ->
  status job = Processing ->
  locked_until job = Some u ->
  u < t ->
  let db' := fst (expire_stale_leases db t) in
  exists j,
    get_job db' jid = Some j
    /\ status j = Retry /\ locked_until j = None
    /\ attempts j = attempts job
    /\ (forall t', claimable t' None j = true)
    /\ (forall t' lease, snd (claim_job db' t' None lease) <> None).
Proof.
  intros Hget Hs Hl Hu. cbv zeta. unfold expire_stale_leases. cbn [fst].
  rewrite get_job_mapped by (intros j; destruct (lease_expired t j); reflexivity).
  rewrite Hget. cbn [option_map].
  assert (E : lease_expired t job = true).
  { unfold lease_expired. rewrite Hs, Hl. simpl. now apply Z.ltb_lt. }
  rewrite E. exists (mark_expired t job).
  split; [reflexivity|]. split; [reflexivity|]. split; [reflexivity|].
  split; [reflexivity|]. split; [reflexivity|].
  intros t' lease. unfold claim_job.
  destruct (first_in_order _) as [sel|] eqn:F.
  - cbn [snd]. rewrite JobsFacts.get_job_updated by reflexivity.
    apply JobsFacts.first_in_order_In in F. apply filter_In in F as [Hin _].
    cbn [jobs with_jobs] in Hin.
    destruct (get_job _ (job_id sel)) eqn:G; [discriminate|].
    unfold get_job in G. cbn [jobs with_jobs] in G.
    eapply find_none in G; [|exact Hin]. rewrite N.eqb_refl in G. discriminate.
  - apply JobsFacts.first_in_order_None in F. exfalso.
    apply get_job_In in Hget.
    assert (Hin : In (mark_expired t job)
                     (List.filter (claimable t' None)
                        (jobs (with_jobs db (map (fun j => if lease_expired t j then mark_expired t j else j) (jobs db)))))).
    { apply filter_In. split; [|reflexivity]. cbn [jobs with_jobs].
      apply in_map_iff. exists job. rewrite E. split; [reflexivity|exact Hget]. }
    rewrite F in Hin. destruct Hin.
Qed.

Lemma expired_lease_recovered_witness :
  snd (claim_job (fst (expire_stale_leases db_stale 60)) 60 None 300) <> None.
Proof.
  destruct (expired_lease_recovered db_stale 60 0%N _ 50 eq_refl eq_refl
              eq_refl eq_refl) as (j & _ & _ & _ & _ & _ & H).
  apply H.
Defined.

(** X10. An id that is not in the table: [complete_job] and [fail_job]
    change nothing. *)
Theorem unknown_job_id_ignored db now jid msg :
  get_job db jid = None ->
  complete_job db now jid = db /\ fail_job db now jid msg = db.
Proof.
  intros H. split.
  - unfold complete_job, update_job. rewrite get_job_None_map by exact H.
    apply with_jobs_same.
  - unfold fail_job. now rewrite H.
Qed.

Lemma unknown_job_id_ignored_witness :
  complete_job db_three 9 7%N = db_three
  /\ fail_job db_three 9 7%N "boom" = db_three.
Proof. apply unknown_job_id_ignored. reflexivity. Defined.


Lemma sum_counts_positive l :
  sum_counts (List.filter (fun p : JobStatus * nat => (0 <? snd p)%nat) l)
  = sum_counts l.
Proof.
  induction l as [|[s n] l IH]; [reflexivity|]. cbn [List.filter snd].
  destruct (Nat.ltb_spec 0 n) as [H|H]; cbn [sum_counts fold_right snd];
    fold (sum_counts l);
    fold (sum_counts (List.filter
                        (fun p : JobStatus * nat => (0 <? snd p)%nat) l));
    rewrite IH; lia.
Qed.

Lemma NoDup_keys_filter {A B} (f : A * B -> bool) (l : list (A * B)) :
  List.NoDup (map fst l) -> List.NoDup (map fst (List.filter f l)).
Proof.
  induction l as [|a l IH]; intros H; [constructor|].
  inversion H as [|? ? Hn Hl]; subst. cbn [List.filter].
  destruct (f a); [|now apply IH].
  cbn [map]. constructor; [|now apply IH].
  intros Hin. apply Hn. apply in_map_iff in Hin as (x & E & Hx).
  apply filter_In in Hx as [Hx _]. apply in_map_iff. now exists x.
Qed.

(** X9. [get_job_stats]: the counts add up to the number of rows, no
    status is listed twice, and a status is listed with count [n] exactly
    when [n > 0] rows have it (a status without rows is absent, not 0). *)
Theorem get_job_stats_counts db :
  sum_counts (get_job_stats db) = List.length (jobs db)
  /\ List.NoDup (map fst (get_job_stats db))
  /\ (forall s n, In (s, n) (get_job_stats db)
                  <-> n = count_status db s /\ (0 < n)%nat).
Proof.
  unfold get_job_stats. split; [|split].
  - rewrite sum_counts_positive. unfold all_statuses, count_status.
    cbn [map sum_counts fold_right snd].
    induction (jobs db) as [|a l IH]; [reflexivity|].
    cbn [List.filter]. destruct (status a); cbn [status_eqb List.length]; lia.
  - apply NoDup_keys_filter. unfold all_statuses. cbn [map fst].
    repeat (constructor; [simpl; intuition discriminate|]); constructor.
  - intros s n. rewrite filter_In, in_map_iff. cbn [snd]. split.
    + intros [(s' & E & _) H]. inversion E; subst.
      split; [reflexivity | now apply Nat.ltb_lt].
    + intros [-> H]. split; [|now apply Nat.ltb_lt].
      exists s. split; [reflexivity|].
      unfold all_statuses. destruct s; simpl; tauto.
Qed.

Lemma total_attempts_map (g : FocusJob -> FocusJob) db :
  (forall j, attempts (g j) = attempts j) ->
  total_attempts (with_jobs db (map g (jobs db))) = total_attempts db.
Proof.
  intros H. unfold total_attempts. cbn [jobs with_jobs].
  induction (jobs db) as [|a l IH]; [reflexivity|].
  cbn [map fold_right]. now rewrite H, IH.
Qed.

Lemma total_attempts_claimed now lease sel l :
  List.NoDup (map job_id l) -> In sel l ->
  fold_right (fun j acc => (attempts j + acc)%N) 0%N
    (map (fun j => if N.eqb (job_id j) (job_id sel)
                   then mark_claimed now lease j else j) l)
  = (1 + fold_right (fun j acc => (attempts j + acc)%N) 0%N l)%N.
Proof.
  intros ND Hin. apply in_split in Hin as (before & after & ->).
  rewrite JobsFacts.map_update_unique by exact ND.
  rewrite !fold_right_app. cbn [fold_right mark_claimed attempts].
  generalize (fold_right (fun j acc => (attempts j + acc)%N) 0%N after).
  intros n. induction before as [|b before IH]; cbn [fold_right]; [lia|].
  rewrite IH; [lia|]. now inversion ND.
Qed.

Lemma total_attempts_run db now op :
  queue_ok db ->
  total_attempts (run db now op)
  = (successful_claims db [(now, op)] + total_attempts db)%N.
Proof.
  intros (ND & _ & _). cbn [successful_claims]. rewrite N.add_0_r.
  destruct op as [k p dk prio ma|kinds lease|jid|jid msg|]; cbn [run].
  - unfold enqueue_job. cbn [uuid4]. destruct (Py.otruthy dk);
      [destruct (existsb _ _)|]; cbn [fst]; unfold total_attempts;
      cbn [jobs with_jobs]; rewrite ?fold_right_app; cbn [fold_right attempts];
      reflexivity.
  - unfold claim_job. destruct (first_in_order _) as [sel|] eqn:E; cbn [fst snd];
      [|reflexivity].
    apply JobsFacts.first_in_order_In in E. apply filter_In in E as [Hin _].
    rewrite JobsFacts.get_job_updated by reflexivity.
    destruct (get_job db (job_id sel)) eqn:G.
    + cbn [option_map]. unfold total_attempts, update_job. cbn [jobs with_jobs].
      now apply total_attempts_claimed.
    + unfold get_job in G. eapply find_none in G; [|exact Hin].
      rewrite N.eqb_refl in G. discriminate.
  - unfold complete_job, update_job. apply total_attempts_map.
    intros j. destruct (N.eqb _ _); reflexivity.
  - unfold fail_job. destruct (get_job db jid); [|reflexivity].
    destruct (_ <? _); unfold update_job; apply total_attempts_map;
      intros j; destruct (N.eqb _ _); reflexivity.
  - unfold expire_stale_leases. cbn [fst]. apply total_attempts_map.
    intros j. destruct (lease_expired now j); reflexivity.
Qed.

(** X11. [attempts] counts claims. After any sequence of queue
    operations on an empty table, the attempts of all rows add up to the
    number of [claim_job] calls that returned a job: only [claim_job]
    changes [attempts], by one, on the one row it returns. *)
Theorem attempts_count_claims calls :
  total_attempts (run_all empty_db calls) = successful_claims empty_db calls.
Proof.
  assert (G : forall db, queue_ok db ->
                total_attempts (run_all db calls)
                = (successful_claims db calls + total_attempts db)%N).
  { induction calls as [|[now op] calls IH]; intros db Hok.
    - reflexivity.
    - unfold run_all. cbn [fold_left fst snd]. fold (run_all (run db now op) calls).
      rewrite IH by now apply queue_ok_run.
      rewrite total_attempts_run by exact Hok.
      cbn [successful_claims]. lia. }
  rewrite G; [apply N.add_0_r|]. repeat split; constructor.
Qed.

End QueueFacts.

Module TurnFacts.
Import Json Exc World Parser ParserSpec.

Lemma heads_flush env turns cur :
  heads (flush_turn env turns cur) = heads turns ++ opened cur.
Proof.
  unfold flush_turn, opened, heads. destruct cur as [t|].
  - destruct (Py.truthy (p_user_message t)).
    + rewrite map_app. reflexivity.
    + now rewrite app_nil_r.
  - now rewrite app_nil_r.
Qed.

Lemma heads_step env st m :
  heads (fst (group_step env st m)) ++ opened (snd (group_step env st m))
  = (heads (fst st) ++ opened (snd st))
    ++ map (fun m => (text m, timestamp m)) (List.filter opens_turn [m]).
Proof.
  destruct st as [turns cur]. unfold group_step. cbn [List.filter fst snd].
  unfold opens_turn. destruct (is_str (role m) "user"); cbn [andb fst snd].
  - rewrite heads_flush. unfold opened. cbn [p_user_message p_started_at].
    destruct (Py.truthy (text m)); reflexivity.
  - cbn [map]. rewrite app_nil_r.
    destruct (is_str (role m) "assistant"); [|reflexivity].
    destruct cur as [t|]; reflexivity.
Qed.

Lemma heads_fold env msgs : forall st,
  heads (fst (fold_left (group_step env) msgs st))
  ++ opened (snd (fold_left (group_step env) msgs st))
  = (heads (fst st) ++ opened (snd st))
    ++ map (fun m => (text m, timestamp m)) (List.filter opens_turn msgs).
Proof.
  induction msgs as [|m msgs IH]; intros st.
  - simpl. now rewrite app_nil_r.
  - cbn [fold_left]. rewrite IH, heads_step.
    change (m :: msgs) with ([m] ++ msgs).
    rewrite List.filter_app, map_app, app_assoc. reflexivity.
Qed.

(** X12. The turns of a transcript are its user messages with a
    non-empty text, in order: one turn per such message, carrying the
    message's text as [user_message] and its timestamp as [started_at].
    Assistant messages, messages of another role and user messages with
    an empty text open no turn. *)
Theorem turns_are_user_messages env msgs :
  map (fun t => (user_message t, started_at t)) (group_turns env msgs)
  = map (fun m => (text m, timestamp m)) (List.filter opens_turn msgs).
Proof.
  unfold group_turns.
  pose proof (heads_fold env msgs ([], None)) as H.
  destruct (fold_left (group_step env) msgs ([], None)) as [turns cur].
  fold (heads (flush_turn env turns cur)). rewrite heads_flush.
  exact H.
Qed.

Lemma tool_names_from_ok blocks : forall tools,
  names_ok tools -> names_ok (tool_names_from blocks tools).
Proof.
  induction blocks as [|b blocks IH]; intros tools H; [exact H|].
  cbn [tool_names_from].
  destruct b; try (apply IH; exact H).
  destruct (is_str _ _); [|apply IH; exact H].
  destruct (truthy (dict_get "name" (JStr "") m)) eqn:T; [|apply IH; exact H].
  destruct (mem _ tools) eqn:M; cbn [andb negb]; [apply IH; exact H|].
  apply IH. destruct H as [H1 H2]. split.
  - now constructor.
  - apply Forall_app. split; [exact H2|]. constructor; [exact T|constructor].
Qed.

Lemma add_tools_ok tools : forall current,
  Forall (fun n => truthy n = true) tools ->
  names_ok current -> names_ok (add_tools tools current).
Proof.
  unfold add_tools. induction tools as [|t tools IH]; intros current Ht H;
    [exact H|].
  inversion Ht as [|? ? T Ht']; subst. cbn [fold_left].
  destruct (mem t current) eqn:M; [apply IH; assumption|].
  apply IH; [exact Ht'|]. destruct H as [H1 H2]. split.
  - now constructor.
  - apply Forall_app. split; [exact H2|]. constructor; [exact T|constructor].
Qed.

Lemma names_ok_nil : names_ok [].
Proof. split; constructor. Qed.

Lemma flush_turn_ok env turns cur :
  Forall (fun t => names_ok (tool_names t)) turns -> pending_ok cur ->
  Forall (fun t => names_ok (tool_names t)) (flush_turn env turns cur).
Proof.
  intros H1 H2. unfold flush_turn. destruct cur as [t|]; [|exact H1].
  destruct (Py.truthy _); [|exact H1].
  apply Forall_app. split; [exact H1|]. constructor; [exact H2|constructor].
Qed.

Lemma group_step_ok env st m :
  Forall (fun t => names_ok (tool_names t)) (fst st) -> pending_ok (snd st) ->
  Forall (fun t => names_ok (tool_names t)) (fst (group_step env st m))
  /\ pending_ok (snd (group_step env st m)).
Proof.
  destruct st as [turns cur]. cbn [fst snd]. intros H1 H2. unfold group_step.
  destruct (is_str (role m) "user").
  - cbn [fst snd]. split; [now apply flush_turn_ok | apply names_ok_nil].
  - destruct (is_str (role m) "assistant"); [|split; assumption].
    destruct cur as [t|]; cbn [fst snd]; [|split; assumption].
    split; [exact H1|]. cbn [pending_ok append_assistant p_tool_names].
    apply add_tools_ok; [|exact H2].
    unfold _extract_tool_names. destruct (content m); try constructor.
    apply (tool_names_from_ok l [] names_ok_nil).
Qed.

(** X13. In every turn, [tool_names] holds no name twice (no name is
    [in] the names before it) and no falsy name. *)
Theorem turn_tool_names_unique env msgs :
  Forall (fun t => no_repeats (tool_names t)
                   /\ Forall (fun n => truthy n = true) (tool_names t))
         (group_turns env msgs).
Proof.
  unfold group_turns.
  assert (G : forall st,
             Forall (fun t => names_ok (tool_names t)) (fst st) ->
             pending_ok (snd st) ->
             Forall (fun t => names_ok (tool_names t))
                    (fst (fold_left (group_step env) msgs st))
             /\ pending_ok (snd (fold_left (group_step env) msgs st))).
  { induction msgs as [|m msgs IH]; intros st H1 H2; [split; assumption|].
    cbn [fold_left]. destruct (group_step_ok env st m H1 H2) as [H3 H4].
    now apply IH. }
  destruct (G ([], None)) as [H1 H2]; [constructor | exact I|].
  destruct (fold_left (group_step env) msgs ([], None)) as [turns cur].
  now apply flush_turn_ok.
Qed.

(** X14. A line that is blank, that is not JSON, whose type is neither
    user nor assistant, or that is a sidechain or meta record, does not
    change the result wherever it stands in the file. *)
Theorem ignored_lines_do_not_matter env pre raw post :
  ignored_line env raw = true ->
  parse_lines env (pre ++ raw :: post) = parse_lines env (pre ++ post).
Proof.
  intros H. unfold parse_lines. f_equal.
  induction pre as [|a pre IH].
  - cbn [app collect_messages]. unfold ignored_line in H. cbv zeta in H.
    destruct (Py.truthy (Py.strip raw)); cbn [negb orb] in *; [|reflexivity].
    destruct (json_loads env (Py.strip raw)) as [v|]; [|reflexivity].
    destruct v; try discriminate.
    destruct (is_str _ "user" || is_str _ "assistant"); cbn [negb orb] in *;
      [|reflexivity].
    rewrite H. reflexivity.
  - cbn [app collect_messages]. rewrite IH. reflexivity.
Qed.

Lemma ignored_lines_do_not_matter_witness :
  parse_lines Sample.sample_env (["u1"; "{broken"; "a1"]%string)
  = parse_lines Sample.sample_env (["u1"; "a1"]%string).
Proof.
  apply (ignored_lines_do_not_matter Sample.sample_env ["u1"%string]
           "{broken" ["a1"%string]).
  reflexivity.
Defined.

(** X15. A line that holds JSON other than an object (a list, a number,
    a string, null) makes the parser raise: [obj.get] is called on it
    outside the [try]. *)
Theorem non_object_line_raises env lines raw :
  In raw lines -> not_an_object env raw = true ->
  exists e, parse_lines env lines = Raise e.
Proof.
  intros Hin H. unfold parse_lines.
  assert (G : exists e, collect_messages env lines = Raise e).
  { induction lines as [|a lines IH]; [destruct Hin|].
    assert (Step : (exists e, collect_messages env lines = Raise e) ->
                   exists e, collect_messages env (a :: lines) = Raise e).
    { intros [e He]. cbn [collect_messages]. rewrite He.
      destruct (negb _); [eauto|].
      destruct (json_loads env (Py.strip a)) as [v|]; [|eauto].
      destruct v; eauto.
      destruct (negb _); [eauto|]. destruct (_ || _); [eauto|].
      destruct (dict_get "message" _ _); eauto.
      destruct (_extract_text_content _); cbn [bind]; [|eauto].
      destruct (is_command_text _); eauto. }
    destruct Hin as [->|Hin]; [|now apply Step, IH].
    unfold not_an_object in H. apply andb_true_iff in H as [T H].
    cbn [collect_messages]. rewrite T. cbn [negb].
    destruct (json_loads env (Py.strip raw)) as [v|]; [|discriminate].
    destruct v; try discriminate; eauto. }
  destruct G as [e ->]. eauto.
Qed.

Lemma non_object_line_raises_witness :
  exists e, parse_lines list_env (["u1"; "[1]"; "a1"]%string) = Raise e.
Proof.
  apply (non_object_line_raises list_env _ "[1]").
  - simpl. tauto.
  - reflexivity.
Defined.

End TurnFacts.

Module LedgerFacts.
Import Json Exc World Artifacts ArtifactSpec.

Section Invariant.
Variable env : Env.
Variable P : TurnArtifacts -> Prop.
Hypothesis tool_use_keeps : forall block r r',
  P r -> _process_tool_use env block r = OK r' -> P r'.
Hypothesis tool_result_keeps : forall block r r',
  P r -> _process_tool_result block r = OK r' -> P r'.

Lemma process_blocks_keeps blocks : forall r r',
  P r -> process_blocks env blocks r = OK r' -> P r'.
Proof.
  induction blocks as [|b blocks IH]; simpl; intros r r' Hr H.
  - inversion H; subst. exact Hr.
  - destruct b as [| | | | | |block]; try (now apply (IH r)).
    destruct (is_str (dict_get "type" (JStr "") block) "tool_use").
    + destruct (_process_tool_use env block r) as [r1|e] eqn:E; simpl in H;
        [|discriminate].
      apply (IH r1); [|exact H]. now apply (tool_use_keeps block r).
    + destruct (is_str (dict_get "type" (JStr "") block) "tool_result").
      * destruct (_process_tool_result block r) as [r1|e] eqn:E; simpl in H;
          [|discriminate].
        apply (IH r1); [|exact H]. now apply (tool_result_keeps block r).
      * now apply (IH r).
Qed.

Lemma process_lines_keeps lines : forall r r',
  P r -> process_lines env lines r = OK r' -> P r'.
Proof.
  induction lines as [|raw lines IH]; simpl; intros r r' Hr H.
  - inversion H; subst. exact Hr.
  - destruct (negb (Py.truthy (Py.strip raw))); [now apply (IH r)|].
    destruct (json_loads env (Py.strip raw)) as [[| | | | | |obj]|];
      try discriminate; try (now apply (IH r)).
    destruct (dict_get "message" (JObj []) obj) as [| | | | | |message];
      try (now apply (IH r)).
    destruct (dict_get "content" JNull message) as [| | | | |blocks|];
      try (now apply (IH r)).
    destruct (process_blocks env blocks r) as [r1|e] eqn:E; simpl in H;
      [|discriminate].
    apply (IH r1); [|exact H]. now apply (process_blocks_keeps blocks r).
Qed.

Lemma extract_artifacts_keeps raw_jsonl r :
  P no_artifacts -> extract_artifacts env raw_jsonl = OK r -> P r.
Proof.
  intros H0 H. unfold extract_artifacts in H.
  destruct (negb (Py.truthy raw_jsonl)).
  - inversion H; subst. exact H0.
  - eapply process_lines_keeps; [exact H0 | exact H].
Qed.

End Invariant.

Lemma filter_snoc {A} (f : A -> bool) l a :
  List.filter f (l ++ [a]) = List.filter f l ++ (if f a then [a] else []).
Proof. rewrite List.filter_app. reflexivity. Qed.

Ltac split_step :=
  match goal with
  | H : OK _ = OK _ |- _ => inversion H; subst; clear H
  | H : Raise _ = OK _ |- _ => discriminate H
  | H : context [match ?x with _ => _ end] |- _ =>
      let E := fresh "E" in destruct x eqn:E; simpl in H
  end.

Ltac ledger_goal :=
  unfold ledger, values_of, emit, add_file_read, add_file_written,
    add_file_edited, add_command, add_error, count_call in *;
  cbn [artifacts files_read files_written files_edited commands_run
       errors_encountered tool_call_count] in *;
  rewrite ?filter_snoc;
  cbn [of_type artifact_type String.eqb Ascii.eqb Bool.eqb negb
       artifact_value] in *;
  rewrite ?app_nil_r, ?map_app, ?length_app;
  cbn [map List.length artifact_value];
  intuition (try lia; try congruence);
  try (apply Forall_app; split; [assumption|];
       constructor; [simpl; tauto | constructor]).

Lemma tool_use_ledger env block r r' :
  ledger r -> _process_tool_use env block r = OK r' -> ledger r'.
Proof.
  unfold _process_tool_use, bind. intros L H.
  repeat split_step; ledger_goal.
Qed.

Lemma tool_result_ledger block r r' :
  ledger r -> _process_tool_result block r = OK r' -> ledger r'.
Proof.
  unfold _process_tool_result, bind. intros L H.
  repeat split_step; ledger_goal.
Qed.


(** X16. The books of a turn agree. Whenever [extract_artifacts]
    returns, every artifact has one of the six artifact types; the values
    of the file_write, file_edit and error artifacts are, in order,
    [files_written], [files_edited] and [errors_encountered]; there are
    as many command artifacts as entries of [commands_run]; every entry
    of [files_read] has a file_read artifact (Glob and Grep add artifacts
    only); and the artifacts other than errors are at most
    [tool_call_count]. *)
Theorem artifacts_ledger env raw_jsonl r :
  extract_artifacts env raw_jsonl = OK r -> ledger r.
Proof.
  apply (extract_artifacts_keeps env ledger).
  - apply tool_use_ledger.
  - intros block. apply tool_result_ledger.
  - unfold ledger, values_of. simpl. repeat split; try constructor.
Qed.

Lemma artifacts_ledger_witness :
  exists r, extract_artifacts busy_env "a" = OK r
            /\ ledger r /\ List.length (artifacts r) = 4%nat.
Proof.
  eexists. split; [reflexivity|]. split; [|reflexivity].
  apply (artifacts_ledger busy_env "a"). reflexivity.
Defined.

Lemma take_nonempty n s :
  n <> 0%nat -> s <> EmptyString -> Py.take n s <> EmptyString.
Proof.
  intros Hn Hs H. apply (f_equal String.length) in H.
  rewrite PyFacts.take_length in H. destruct n, s; simpl in H; congruence.
Qed.

Lemma tool_use_errors env block r r' :
  errors_bounded r -> _process_tool_use env block r = OK r' ->
  errors_bounded r'.
Proof.
  unfold _process_tool_use, bind, errors_bounded. intros L H.
  repeat split_step; exact L.
Qed.

Lemma tool_result_errors block r r' :
  errors_bounded r -> _process_tool_result block r = OK r' ->
  errors_bounded r'.
Proof.
  unfold _process_tool_result, bind, errors_bounded. intros L H.
  repeat split_step; try exact L;
    cbn [emit add_error errors_encountered];
    (apply Forall_app; split; [exact L|]; constructor; [|constructor]);
    (split;
     [ apply take_nonempty; [discriminate|];
       intros Hs; rewrite Hs in *; discriminate
     | rewrite PyFacts.take_length; lia ]).
Qed.

(** X17. Every entry of [errors_encountered] is non-empty and at most
    500 characters long. *)
Theorem error_messages_bounded env raw_jsonl r :
  extract_artifacts env raw_jsonl = OK r -> errors_bounded r.
Proof.
  apply (extract_artifacts_keeps env errors_bounded).
  - apply tool_use_errors.
  - intros block. apply tool_result_errors.
  - constructor.
Qed.

Lemma error_messages_bounded_witness :
  exists r, extract_artifacts busy_env "a" = OK r
            /\ errors_bounded r
            /\ errors_encountered r = ["make: *** [all] Error 2"%string].
Proof.
  eexists. split; [reflexivity|]. split; [|reflexivity].
  apply (error_messages_bounded busy_env "a"). reflexivity.
Defined.

Lemma eqb_refl_hashable f : hashable f = true -> eqb f f = true.
Proof.
  destruct f; simpl; intros H; try reflexivity; try discriminate.
  - destruct b; reflexivity.
  - apply Qeq_bool_iff. reflexivity.
  - apply Qeq_bool_iff. reflexivity.
  - apply String.eqb_refl.
Qed.

Lemma mem_snoc f l x : mem f l = true -> mem f (l ++ [x]) = true.
Proof. unfold mem. rewrite existsb_app. intros ->. reflexivity. Qed.

Lemma mem_last f l : hashable f = true -> mem f (l ++ [f]) = true.
Proof.
  intros H. unfold mem. rewrite existsb_app. simpl.
  rewrite eqb_refl_hashable by exact H. apply orb_true_r.
Qed.

Lemma touch_spec fs : forall acc out,
  distinct acc -> touch fs acc acc = OK out ->
  distinct out
  /\ (forall f, mem f acc = true \/ In f fs -> mem f out = true)
  /\ incl out (acc ++ fs)
  /\ Forall (fun f => hashable f = true) fs.
Proof.
  induction fs as [|f fs IH]; intros acc out D H; cbn [touch] in H.
  - inversion H; subst. split; [exact D|]. split.
    + intros f [Hf|[]]. exact Hf.
    + split; [rewrite app_nil_r; apply incl_refl | constructor].
  - destruct (hashable f) eqn:Hh; cbn [negb] in H; [|discriminate].
    destruct (mem f acc) eqn:M.
    + destruct (IH acc out D H) as (I1 & I2 & I3 & I4).
      split; [exact I1|]. split; [|split].
      * intros g [Hg|[<-|Hg]]; apply I2; auto.
      * intros x Hx. apply I3 in Hx. apply in_app_or in Hx as [Hx|Hx];
          apply in_or_app; [left | right; right]; exact Hx.
      * constructor; assumption.
    + assert (D' : distinct (acc ++ [f])) by now constructor.
      destruct (IH (acc ++ [f]) out D' H) as (I1 & I2 & I3 & I4).
      split; [exact I1|]. split; [|split].
      * intros g [Hg|[<-|Hg]]; apply I2; auto.
        -- left. now apply mem_snoc.
        -- left. now apply mem_last.
      * intros x Hx. apply I3 in Hx. rewrite <- app_assoc in Hx. exact Hx.
      * constructor; assumption.
Qed.

Lemma touch_total fs : forall acc,
  Forall (fun f => hashable f = true) fs -> exists out, touch fs acc acc = OK out.
Proof.
  induction fs as [|f fs IH]; intros acc H; cbn [touch]; [eauto|].
  inversion H as [|? ? Hf Hfs]; subst. rewrite Hf. cbn [negb].
  destruct (mem f acc); apply IH; exact Hfs.
Qed.

(** X18. [files_touched] returns a list exactly when every recorded
    path can be hashed (it raises on a list or a dict); the list then has
    no element twice, holds only recorded paths, and every path read,
    written or edited is [in] it. *)
Theorem files_touched_unique r :
  let all := files_read r ++ files_written r ++ files_edited r in
  (Forall (fun f => hashable f = true) all <->
   exists fs, files_touched r = OK fs)
  /\ (forall fs, files_touched r = OK fs ->
        distinct fs
        /\ (forall f, In f all -> mem f fs = true)
        /\ incl fs all).
Proof.
  cbv zeta. unfold files_touched. split.
  - split.
    + apply touch_total.
    + intros [fs H]. now apply (touch_spec _ [] fs distinct_nil) in H.
  - intros fs H. apply (touch_spec _ [] fs distinct_nil) in H.
    destruct H as (H1 & H2 & H3 & _). split; [exact H1|].
    split; [|exact H3]. intros f Hf. apply H2. now right.
Qed.

End LedgerFacts.

Module RecordingFacts.
Import Json Exc World Models Recorder Worker Hook.

Lemma record_turns_accounting env sid (ex : gset string) parsed :
  forall db recorded skipped db' r k,
  record_turns env sid ex parsed db recorded skipped = OK (db', r, k) ->
  (r + k = recorded + skipped + List.length parsed)%nat
  /\ (recorded <= r)%nat
  /\ exists new newc,
       turns db' = turns db ++ new
       /\ contents db' = contents db ++ newc
       /\ List.length new = (r - recorded)%nat
       /\ map content_turn newc = map turn_id new
       /\ Forall (fun t => turn_session t = sid
                           /\ assistant_summary t = None
                           /\ content_hash t ∉ ex) new.
Proof.
  induction parsed as [|p parsed IH]; intros db recorded skipped db' r k H;
    cbn [record_turns] in H.
  - inversion H; subst. split; [simpl; lia|]. split; [lia|].
    exists [], []. rewrite !app_nil_r, Nat.sub_diag.
    repeat split; constructor.
  - destruct (bool_decide (Parser.content_hash p ∈ ex)) eqn:Hex.
    + apply IH in H as (H1 & H2 & new & newc & H3).
      split; [simpl; lia|]. split; [lia|]. exists new, newc. exact H3.
    + apply bool_decide_eq_false_1 in Hex.
      destruct (_parse_timestamp env (Parser.started_at p)) as [st|];
        cbn [bind] in H; [|discriminate].
      destruct (_parse_timestamp env (Parser.ended_at p)) as [en|];
        cbn [bind] in H; [|discriminate].
      cbn [uuid4] in H.
      destruct (db_text (Parser.model_name p)) as [mo|];
        cbn [bind] in H; [|discriminate].
      destruct (db_text_array (Parser.tool_names p)) as [tools|];
        cbn [bind] in H; [|discriminate].
      destruct (turn_number_taken _ sid (Parser.turn_number p));
        [discriminate|].
      apply IH in H as (H1 & H2 & new & newc & H3 & H4 & H5 & H6 & H7).
      cbn [turns contents with_turns with_contents] in H3, H4.
      split; [simpl; lia|]. split; [lia|].
      eexists (_ :: new), (_ :: newc).
      rewrite <- app_assoc in H3, H4. cbn [app] in H3, H4.
      split; [exact H3|]. split; [exact H4|].
      split; [cbn [List.length]; lia|].
      split; [cbn [map content_turn turn_id]; now rewrite H6|].
      constructor; [|exact H7]. cbn. auto.
Qed.

(** X19. The books of [record_session]. When the transcript exists and
    the call returns, every parsed turn is counted once, as recorded or as
    skipped, and no error is reported; the queue is untouched; the turn
    rows and the content rows are the old ones followed by one new row
    each per recorded turn (the content row pointing at its turn), and
    every new turn is stored without a summary. *)
Theorem record_session_accounting env db sid path wpath lines parsed db' s :
  read_lines env path = Some lines ->
  Parser.parse_lines env lines = OK parsed ->
  record_session env db sid path wpath = OK (db', s) ->
  (turns_recorded s + turns_skipped s = List.length parsed)%nat
  /\ error s = None
  /\ jobs db' = jobs db
  /\ exists new newc,
       turns db' = turns db ++ new
       /\ contents db' = contents db ++ newc
       /\ List.length new = turns_recorded s
       /\ map content_turn newc = map turn_id new
       /\ Forall (fun t => assistant_summary t = None) new.
Proof.
  intros Hr Hp H. unfold record_session in H. rewrite Hr in H.
  unfold Parser.parse_session_into_turns in H. rewrite Hr, Hp in H.
  cbn [bind] in H. destruct parsed as [|p ps].
  - inversion H; subst. repeat split. exists [], [].
    rewrite !app_nil_r. repeat split; constructor.
  - cbv iota in H. remember (p :: ps) as parsed eqn:Eparsed.
    set (pre := match find_session db sid with
                | Some s0 => _ | None => _ end) in H.
    assert (Hpre : turns (snd pre) = turns db
                   /\ contents (snd pre) = contents db
                   /\ jobs (snd pre) = jobs db).
    { subst pre. destruct (find_session db sid); repeat split. }
    destruct pre as [[agent ex] db1]. cbn [snd] in Hpre.
    destruct Hpre as (T1 & C1 & J1).
    destruct (record_turns env agent ex parsed db1 0 0)
      as [[[db2 r] k]|] eqn:RT; cbn [bind] in H; [|discriminate].
    destruct (valid_timestamps env parsed) as [valid|]; cbn [bind] in H;
      [|discriminate].
    destruct (negb (comparable valid)); [discriminate|].
    inversion H; subst db' s; clear H.
    pose proof (FanOutFacts.record_turns_other _ _ _ _ _ _ _ _ _ _ RT)
      as [J2 _].
    apply record_turns_accounting in RT
      as (A1 & _ & new & newc & A3 & A4 & A5 & A6 & A7).
    cbn [turns_recorded turns_skipped error]. split; [lia|].
    split; [reflexivity|]. split; [cbn; congruence|].
    exists new, newc. cbn [update_session turns contents with_sessions].
    rewrite A3, A4, T1, C1. split; [reflexivity|]. split; [reflexivity|].
    split; [lia|]. split; [exact A6|].
    eapply List.Forall_impl; [|exact A7]. cbn. tauto.
Qed.


Lemma record_session_accounting_witness :
  exists db' s,
    record_session Sample.sample_env empty_db "S" "/t/s.jsonl" "/w"
    = OK (db', s)
    /\ (turns_recorded s + turns_skipped s = 2)%nat
    /\ List.length (turns db') = 2%nat.
Proof.
  destruct (record_session Sample.sample_env empty_db "S" "/t/s.jsonl" "/w")
    as [[db' s]|] eqn:E; [|vm_compute in E; discriminate].
  exists db', s. split; [reflexivity|].
  destruct (record_session_accounting Sample.sample_env empty_db "S"
              "/t/s.jsonl" "/w" Sample.sample_lines Sample.sample_turns db' s
              eq_refl eq_refl E)
    as (H1 & _ & _ & new & newc & H2 & _ & H3 & _).
  split; [exact H1|].
  rewrite H2, length_app, H3. vm_compute in E. inversion E. reflexivity.
Defined.

Lemma record_turns_conflict env sid (ex : gset string) parsed t :
  Forall well_typed parsed ->
  In t parsed ->
  Parser.content_hash t ∉ ex ->
  forall db recorded skipped,
  turn_number_taken db sid (Parser.turn_number t) = true ->
  record_turns env sid ex parsed db recorded skipped = Raise "IntegrityError".
Proof.
  intros WT Hin Hex. induction parsed as [|p parsed IH]; [destruct Hin|].
  intros db recorded skipped Ht. inversion WT as [|? ? Wp Wps]; subst.
  cbn [record_turns].
  destruct (bool_decide (Parser.content_hash p ∈ ex)) eqn:B.
  - destruct Hin as [->|Hin].
    + apply bool_decide_eq_true_1 in B. contradiction.
    + now apply IH.
  - destruct Wp as (W1 & W2 & W3 & W4).
    destruct (RecorderFacts.parse_timestamp_typed env _ W3) as [st ->].
    destruct (RecorderFacts.parse_timestamp_typed env _ W4) as [en ->].
    destruct (RecorderFacts.db_text_typed _ W1) as [mo ->].
    destruct (RecorderFacts.db_text_array_typed _ W2) as [tools ->].
    cbn [bind uuid4].
    destruct (turn_number_taken _ sid (Parser.turn_number p)) eqn:Tp;
      [reflexivity|].
    destruct Hin as [->|Hin].
    + unfold turn_number_taken in Tp, Ht. cbn [turns] in Tp. congruence.
    + apply IH; [exact Wps | exact Hin|].
      unfold turn_number_taken in *. cbn [turns with_turns with_contents].
      rewrite existsb_app, Ht. reflexivity.
Qed.

(** X20. A turn that changed after it was recorded. If the session is
    known, and some parsed turn has a hash that is not stored for the
    session while its turn number is, then [record_session] raises
    [IntegrityError] (the unique constraint on session and turn number):
    deduplication is by hash only, a changed turn is inserted again. *)
Theorem changed_turn_conflicts env db sid path wpath lines parsed s t :
  read_lines env path = Some lines ->
  Parser.parse_lines env lines = OK parsed ->
  Forall well_typed parsed ->
  find_session db sid = Some s ->
  In t parsed ->
  Parser.content_hash t ∉ hashes_of db (sess_id s) ->
  turn_number_taken db (sess_id s) (Parser.turn_number t) = true ->
  record_session env db sid path wpath = Raise "IntegrityError".
Proof.
  intros Hr Hp WT Hs Hin Hex Ht. unfold record_session. rewrite Hr.
  unfold Parser.parse_session_into_turns. rewrite Hr, Hp. cbn [bind].
  destruct parsed as [|p ps]; [destruct Hin|]. cbv iota. rewrite Hs.
  rewrite (record_turns_conflict env (sess_id s) _ (p :: ps) t WT Hin Hex)
    by exact Ht.
  reflexivity.
Qed.

Lemma changed_turn_conflicts_witness :
  record_session changed_env Sample.db_recorded "S" "/t/s.jsonl" "/w"
  = Raise "IntegrityError".
Proof.
  pose (t := Parser.mkTurn 0 "please fix the build" "so" [] (JStr "m-1")
               (JStr "t1") (JStr "t6")
               ("u1" +:+ Py.nl +:+ "a2") ("u1" +:+ Py.nl +:+ "a2")).
  assert (P : Parser.parse_lines changed_env ["u1"; "a2"]%string = OK [t])
    by (vm_compute; reflexivity).
  assert (S : exists s, find_session Sample.db_recorded "S" = Some s
                        /\ sess_id s = 0%N).
  { eexists. split; vm_compute; reflexivity. }
  destruct S as (s & Hs & Hid).
  apply (changed_turn_conflicts changed_env Sample.db_recorded "S"
           "/t/s.jsonl" "/w" ["u1"; "a2"]%string [t] s t eq_refl P).
  - constructor; [|constructor]. repeat split.
  - exact Hs.
  - left. reflexivity.
  - rewrite Hid. intros H. apply (bool_decide_eq_true_2 _) in H.
    vm_compute in H. discriminate H.
  - rewrite Hid. vm_compute. reflexivity.
Defined.

(** X21. A transcript that does not exist: [record_session] stores
    nothing and reports ["file_not_found"], and the session_process
    handler turns that into a [RuntimeError], so the job fails. *)
Theorem missing_transcript_fails env db now job sid path wpath :
  names_session job sid path wpath ->
  read_lines env path = None ->
  record_session env db sid path wpath
  = OK (db, mkSummary sid 0 0 (Some "file_not_found"%string))
  /\ process_session_job env db now job = Raise "RuntimeError".
Proof.
  intros (N1 & N2 & N3) Hr. unfold process_session_job.
  rewrite N1, N2, N3. unfold record_session. rewrite Hr.
  split; reflexivity.
Qed.

Lemma missing_transcript_fails_witness :
  process_session_job Sample.sample_env empty_db 9
    (job_for_session "S" "/nowhere" "/w") = Raise "RuntimeError".
Proof.
  apply (missing_transcript_fails Sample.sample_env empty_db 9
           (job_for_session "S" "/nowhere" "/w") "S" "/nowhere" "/w").
  - repeat split.
  - reflexivity.
Defined.

Lemma str_of_N_inj a b : Py.str_of_N a = Py.str_of_N b -> a = b.
Proof. apply PyFacts.uuid_str_inj. Qed.


(** X22. The Stop hook enqueues once per file size.
    [enqueue_session_recording] returns [True] exactly when no job holds
    the key [session_process:{session_id}:{file_size}]; it then appends
    one queued session_process job of priority 5 whose payload names the
    session, the transcript and the workspace; otherwise it adds nothing.
    For one session, different sizes give different keys ([OSError]
    counting as size 0). *)
Theorem hook_enqueues_once db now size sid path wpath :
  let key := recording_key sid size in
  let r := enqueue_session_recording db now size sid path wpath in
  (snd r = true <-> ~ In key (Queue.dedupe_keys db))
  /\ (snd r = false -> jobs (fst r) = jobs db)
  /\ (snd r = true ->
      exists job,
        jobs (fst r) = jobs db ++ [job]
        /\ kind job = "session_process"%string /\ priority job = 5
        /\ status job = Queued /\ dedupe_key job = Some key
        /\ names_session job sid path wpath)
  /\ (forall size', recording_key sid size' = key ->
        default 0%N size' = default 0%N size).
Proof.
  cbv zeta. unfold enqueue_session_recording, Queue.dedupe_keys.
  rewrite <- QueueFacts.key_taken.
  assert (K : exists c s, recording_key sid size = String c s).
  { unfold recording_key. simpl. eauto. }
  destruct K as (c & s & K). rewrite K.
  rewrite QueueFacts.enqueue_job_key. cbv zeta. rewrite <- K.
  destruct (existsb (Jobs.has_dedupe_key (recording_key sid size)) (jobs db))
    eqn:E; cbn [fst snd].
  - split; [split; [discriminate | intros H; now contradiction H]|].
    split; [reflexivity|]. split; [discriminate|].
    intros size' H. unfold recording_key in H.
    apply FanOutFacts.append_inj_l, FanOutFacts.append_inj_l,
      FanOutFacts.append_inj_l, str_of_N_inj in H.
    destruct size', size; exact H.
  - split; [split; [discriminate | reflexivity]|].
    split; [discriminate|]. split.
    + intros _. eexists. split; [reflexivity|]. cbn.
      repeat split; reflexivity.
    + intros size' H. unfold recording_key in H.
      apply FanOutFacts.append_inj_l, FanOutFacts.append_inj_l,
      FanOutFacts.append_inj_l, str_of_N_inj in H.
      destruct size', size; exact H.
Qed.

End RecordingFacts.

Module WorkerFacts.
Import Json Exc World Models Recorder Worker Hook Dispatch.

Lemma truthy_length s : Py.truthy s = true <-> (0 < String.length s)%nat.
Proof. destruct s; simpl; split; intros H; try discriminate; try lia; reflexivity. Qed.

Lemma take_truthy n s :
  (0 < n)%nat -> Py.truthy s = true -> Py.truthy (Py.take n s) = true.
Proof.
  intros Hn Hs. apply truthy_length. rewrite PyFacts.take_length.
  apply truthy_length in Hs. lia.
Qed.

(** What the summarizer returns is never empty. *)
Lemma summarizer_answers env m title summary :
  Py.truthy m = true ->
  fst (_llm_summarize_turn env m) = OK (title, summary) ->
  Py.truthy title = true /\ Py.truthy summary = true.
Proof.
  intros Hm. unfold _llm_summarize_turn.
  destruct (negb (Py.truthy (api_key env))); [discriminate|].
  destruct (messages_create env (Py.take 1000 m)) as [text|e]; [|discriminate].
  destruct (fold_left read_answer_line _ _) as [t s]. cbn [fst].
  intros H. inversion H; subst. split.
  - destruct (Py.truthy t) eqn:T; [exact T | now apply take_truthy; [lia|]].
  - destruct (Py.truthy s) eqn:T; [exact T | now apply take_truthy; [lia|]].
Qed.

Lemma update_turn_again f tid db :
  (forall t, turn_id (f t) = turn_id t) ->
  (forall t, f (f t) = f t) ->
  update_turn f tid (update_turn f tid db) = update_turn f tid db.
Proof.
  intros Hid Hf. unfold update_turn. cbn [turns with_turns].
  unfold with_turns. cbn. f_equal. rewrite map_map. apply map_ext.
  intros t. destruct (N.eqb (turn_id t) tid) eqn:E.
  - now rewrite Hid, E, Hf.
  - now rewrite E.
Qed.

(** X23. The turn_summary handler is idempotent. After a run that
    returned, a second run of the same job returns too, changes nothing
    and does not call the model: either the turn now has a non-empty
    summary, or its user message is empty and the same title and summary
    are written again. *)
Theorem turn_summary_idempotent env db job db' calls :
  process_turn_summary_job env db job = OK (db', calls) ->
  process_turn_summary_job env db' job = OK (db', []).
Proof.
  unfold process_turn_summary_job.
  destruct (payload_get "turn_id" (payload job)) as [s|]; [|discriminate].
  destruct (uuid_parse s) as [tid|]; [|discriminate].
  destruct (get_turn db tid) as [turn|] eqn:G.
  2:{ intros H. inversion H; subst. now rewrite G. }
  destruct (Py.otruthy (assistant_summary turn)) eqn:S.
  { intros H. inversion H; subst. now rewrite G, S. }
  cbv zeta.
  set (um := Py.take 200 (if Py.otruthy (user_message turn)
                          then default EmptyString (user_message turn)
                          else EmptyString)).
  destruct (String.length um <? 50)%nat eqn:L.
  - intros H. inversion H; subst db' calls; clear H.
    rewrite SummaryFacts.get_turn_updated by reflexivity. rewrite G.
    cbn [option_map summarized assistant_summary user_message Py.otruthy].
    fold um. destruct (Py.truthy um) eqn:T; [reflexivity|].
    rewrite L. rewrite update_turn_again; reflexivity.
  - assert (T : Py.truthy um = true).
    { apply truthy_length. apply Nat.ltb_ge in L. lia. }
    destruct (_llm_summarize_turn env um) as [[[title summary]|e] cs] eqn:E;
      intros H; inversion H; subst db' calls; clear H;
      rewrite SummaryFacts.get_turn_updated by reflexivity; rewrite G;
      cbn [option_map summarized assistant_summary Py.otruthy].
    + destruct (summarizer_answers env um title summary T) as [_ T2];
        [now rewrite E|]. now rewrite T2.
    + rewrite take_truthy by (lia || exact T). reflexivity.
Qed.


Lemma turn_summary_idempotent_witness :
  exists db' calls,
    process_turn_summary_job Sample.llm_env Sample.db_turns (job_for_turn 10%N)
    = OK (db', calls)
    /\ process_turn_summary_job Sample.llm_env db' (job_for_turn 10%N)
       = OK (db', []).
Proof.
  destruct (process_turn_summary_job Sample.llm_env Sample.db_turns
              (job_for_turn 10%N)) as [[db' calls]|] eqn:E;
    [|vm_compute in E; discriminate E].
  exists db', calls. split; [reflexivity|].
  exact (turn_summary_idempotent _ _ _ _ _ E).
Defined.

Lemma appended_refl db db' : jobs db' = jobs db -> appended db db'.
Proof. intros H. exists []. rewrite app_nil_r. split; [exact H|constructor]. Qed.

Lemma appended_trans db1 db2 db3 :
  appended db1 db2 -> appended db2 db3 -> appended db1 db3.
Proof.
  intros (n1 & E1 & F1) (n2 & E2 & F2). exists (n1 ++ n2).
  rewrite E2, E1, app_assoc. split; [reflexivity|].
  apply Forall_app. split; assumption.
Qed.

Lemma enqueue_appends db now k p dk prio ma :
  appended db (fst (Jobs.enqueue_job db now k p dk prio ma)).
Proof.
  unfold Jobs.enqueue_job. cbn [uuid4].
  destruct (Py.otruthy dk); [destruct (existsb _ _)|]; cbn [fst].
  - now apply appended_refl.
  - eexists. split; [reflexivity|]. constructor; [reflexivity|constructor].
  - eexists. split; [reflexivity|]. constructor; [reflexivity|constructor].
Qed.

Lemma children_append now ts : forall db,
  appended db (fold_left (enqueue_children now) ts db).
Proof.
  induction ts as [|t ts IH]; intros db; [now apply appended_refl|].
  cbn [fold_left]. eapply appended_trans; [|apply IH].
  unfold enqueue_children.
  eapply appended_trans; [apply enqueue_appends|].
  eapply appended_trans; apply enqueue_appends.
Qed.

Lemma session_job_appends : enqueues_only process_session_job.
Proof.
  intros env db now job db' H. unfold process_session_job in H.
  destruct (payload_get "session_id" (payload job)) as [sid|]; [|discriminate].
  destruct (payload_get "transcript_path" (payload job)) as [path|];
    [|discriminate].
  destruct (record_session env db sid path _) as [[db1 r]|] eqn:R;
    cbn [bind] in H; [|discriminate].
  apply FanOutFacts.record_session_queue in R as [J1 _].
  destruct (Py.otruthy (error r)); [discriminate|].
  set (db2 := if Py.truthy _ then _ else db1) in H.
  assert (J2 : jobs db2 = jobs db).
  { subst db2. destruct (Py.truthy _); [|exact J1].
    rewrite <- J1. apply FanOutFacts.link_session. }
  assert (A : appended db db2) by now apply appended_refl.
  destruct (0 <? turns_recorded r)%nat.
  - destruct (find_session db2 sid) as [a|].
    + inversion H; subst db'. eapply appended_trans; [exact A|].
      eapply appended_trans; [apply children_append | apply enqueue_appends].
    + inversion H; subst. exact A.
  - inversion H; subst. exact A.
Qed.

Lemma turn_summary_job_appends :
  enqueues_only (run_handler no_handler no_handler no_handler TurnSummary).
Proof.
  intros env db now job db' H. cbn [run_handler] in H.
  destruct (process_turn_summary_job env db job) as [[db1 calls]|] eqn:E;
    cbn [bind fst] in H; [|discriminate].
  inversion H; subst db1; clear H. apply appended_refl.
  unfold process_turn_summary_job in E.
  destruct (payload_get "turn_id" (payload job)); [|discriminate].
  destruct (uuid_parse _); [|discriminate].
  destruct (get_turn db _); [|now inversion E].
  destruct (Py.otruthy _); [now inversion E|].
  cbv zeta in E. destruct (_ <? _)%nat; [now inversion E|].
  destruct (_llm_summarize_turn env _) as [[[ti su]|e] cs]; now inversion E.
Qed.

Lemma session_summary_job_appends : enqueues_only process_session_summary_job.
Proof.
  intros env db now job db' H. unfold process_session_summary_job in H.
  destruct (payload_get "session_id" (payload job)) as [sid|]; [|discriminate].
  destruct (find_session db sid) as [a|]; [|inversion H; now apply appended_refl].
  cbv zeta in H. destruct (negb _); [|discriminate].
  inversion H. now apply appended_refl.
Qed.

Section LoopFacts.
Variables entity_extract artifact_extract skill_extract : Handler.
Hypothesis entity_ok : enqueues_only entity_extract.
Hypothesis artifact_ok : enqueues_only artifact_extract.
Hypothesis skill_ok : enqueues_only skill_extract.

Lemma dispatch_appends :
  enqueues_only (_dispatch_job entity_extract artifact_extract skill_extract).
Proof.
  intros env db now job db' H. unfold _dispatch_job in H.
  destruct (handlers_get (kind job) handlers) as [h|]; [|discriminate].
  destruct h; cbn [run_handler] in H.
  - now apply (session_job_appends env db now job).
  - now apply (turn_summary_job_appends env db now job).
  - now apply (entity_ok env db now job).
  - now apply (artifact_ok env db now job).
  - now apply (session_summary_job_appends env db now job).
  - now apply (skill_ok env db now job).
Qed.

Lemma find_app_found {A} (f : A -> bool) l l' x :
  find f l = Some x -> find f (l ++ l') = Some x.
Proof.
  induction l as [|a l IH]; simpl; [discriminate|].
  destruct (f a); [trivial | exact IH].
Qed.

(** X24. One pass of the worker loop settles the job it claims. On a
    queue with unique ids, the pass either claims nothing and changes
    nothing, or it claims a claimable job of one of the [JOB_KINDS], for
    which the dispatch table has a handler, and leaves that job with one
    attempt more and in status done when the handler returned, in status
    retry (while attempts are below [max_attempts]) or failed when the
    handler raised, never in processing; the other jobs that were in the
    queue are still there, unchanged. The handlers are assumed to leave
    the rows of the queue alone and only to add queued jobs, which the
    session_process, turn_summary and session_summary handlers do. *)
Theorem work_once_settles env db now db' out :
  Jobs.jobs_pk db ->
  work_once entity_extract artifact_extract skill_extract env db now
  = (db', out) ->
  match out with
  | Idle =>
      db' = db /\ snd (Jobs.claim_job db now (Some JOB_KINDS) 300) = None
  | _ =>
      exists j j',
        In j (jobs db)
        /\ Jobs.claimable now (Some JOB_KINDS) j = true
        /\ In (kind j) JOB_KINDS
        /\ handlers_get (kind j) handlers <> None
        /\ Jobs.get_job db' (job_id j) = Some j'
        /\ attempts j' = N.succ (attempts j)
        /\ kind j' = kind j /\ payload j' = payload j
        /\ (out = Completed -> status j' = Done)
        /\ (out = Errored ->
            (status j' = Retry /\ Z.of_N (attempts j') < max_attempts j)
            \/ (status j' = Failed /\ max_attempts j <= Z.of_N (attempts j')))
        /\ (forall x, In x (jobs db) -> job_id x <> job_id j ->
                      In x (jobs db'))
  end.
Proof.
  intros PK. unfold work_once, Jobs.claim_job.
  destruct (Jobs.first_in_order _) as [sel|] eqn:F.
  2:{ intros H. inversion H; subst. split; reflexivity. }
  pose proof (JobsFacts.first_in_order_In _ _ F) as Hin.
  apply filter_In in Hin as [Hin Hc].
  pose proof Hin as Hsplit. apply in_split in Hsplit as (before & after & Hs).
  rewrite JobsFacts.get_job_updated by reflexivity.
  rewrite (JobsFacts.get_job_unique db before sel after Hs PK).
  cbn [option_map].
  set (db1 := Jobs.update_job (Jobs.mark_claimed now 300) (job_id sel) db).
  assert (G1 : Jobs.get_job db1 (job_id sel)
               = Some (Jobs.mark_claimed now 300 sel)).
  { subst db1. rewrite JobsFacts.get_job_updated by reflexivity.
    now rewrite (JobsFacts.get_job_unique db before sel after Hs PK). }
  assert (K : In (kind sel) JOB_KINDS).
  { unfold Jobs.claimable in Hc. apply andb_true_iff in Hc as [_ Hc].
    cbn [JOB_KINDS] in Hc. apply existsb_exists in Hc as (k & Hk & E).
    apply String.eqb_eq in E. now subst. }
  assert (K' : handlers_get (kind sel) handlers <> None).
  { cbn [JOB_KINDS In] in K.
    repeat (destruct K as [<-|K]; [discriminate|]). destruct K. }
  assert (O1 : forall x, In x (jobs db) -> job_id x <> job_id sel ->
                         In x (jobs db1)).
  { intros x Hx Hne. now apply JobsFacts.update_job_other. }
  cbn [Jobs.mark_claimed job_id].
  destruct (_dispatch_job _ _ _ env db1 now _) as [db2|e] eqn:D;
    intros H; inversion H; subst db' out; clear H.
  - apply (dispatch_appends env db1 now) in D as (new & E2 & _).
    exists sel, (Jobs.mark_done now (Jobs.mark_claimed now 300 sel)).
    split; [exact Hin|]. split; [exact Hc|]. split; [exact K|].
    split; [exact K'|].
    split.
    { unfold Jobs.complete_job.
      rewrite JobsFacts.get_job_updated by reflexivity.
      unfold Jobs.get_job in *. rewrite E2.
      now rewrite (find_app_found _ _ _ _ G1). }
    split; [reflexivity|]. split; [reflexivity|]. split; [reflexivity|].
    split; [reflexivity|]. split; [discriminate|].
    intros x Hx Hne. apply JobsFacts.update_job_other; [|exact Hne].
    rewrite E2. apply in_or_app. left. now apply O1.
  - exists sel.
    unfold Jobs.fail_job. rewrite G1.
    cbn [Jobs.mark_claimed attempts max_attempts].
    destruct (Z.of_N (N.succ (attempts sel)) <? max_attempts sel) eqn:A.
    + exists (Jobs.mark_retry now e (Jobs.backoff_seconds (N.succ (attempts sel)))
                (Jobs.mark_claimed now 300 sel)).
      split; [exact Hin|]. split; [exact Hc|]. split; [exact K|].
    split; [exact K'|].
      split.
      { rewrite JobsFacts.get_job_updated by reflexivity. now rewrite G1. }
      split; [reflexivity|]. split; [reflexivity|]. split; [reflexivity|].
      split; [discriminate|]. split.
      * intros _. left. split; [reflexivity|]. cbn. now apply Z.ltb_lt.
      * intros x Hx Hne. apply JobsFacts.update_job_other; [|exact Hne].
        now apply O1.
    + exists (Jobs.mark_failed now e (Jobs.mark_claimed now 300 sel)).
      split; [exact Hin|]. split; [exact Hc|]. split; [exact K|].
    split; [exact K'|].
      split.
      { rewrite JobsFacts.get_job_updated by reflexivity. now rewrite G1. }
      split; [reflexivity|]. split; [reflexivity|]. split; [reflexivity|].
      split; [discriminate|]. split.
      * intros _. right. split; [reflexivity|]. cbn. now apply Z.ltb_ge.
      * intros x Hx Hne. apply JobsFacts.update_job_other; [|exact Hne].
        now apply O1.
Qed.

End LoopFacts.

Lemma no_handler_ok : enqueues_only no_handler.
Proof.
  intros env db now job db' H. inversion H; subst. now apply appended_refl.
Qed.

Lemma work_once_settles_witness :
  exists j',
    Jobs.get_job
      (fst (work_once no_handler no_handler no_handler
                      Sample.sample_env queued_db 5)) 0%N = Some j'
    /\ status j' = Done /\ attempts j' = 1%N.
Proof.
  assert (Out : snd (work_once no_handler no_handler no_handler
                               Sample.sample_env queued_db 5) = Completed)
    by (vm_compute; reflexivity).
  assert (PK : Jobs.jobs_pk queued_db).
  { unfold Jobs.jobs_pk. cbn. constructor; [intros []|constructor]. }
  destruct (work_once no_handler no_handler no_handler
                      Sample.sample_env queued_db 5) as [db' out] eqn:E.
  cbn [snd] in Out. subst out.
  destruct (work_once_settles no_handler no_handler no_handler
              no_handler_ok no_handler_ok no_handler_ok
              Sample.sample_env queued_db 5 db' Completed PK E)
    as (j & j' & Hin & _ & _ & _ & G & A & _ & _ & D & _).
  destruct Hin as [<-|[]]. exists j'. cbn [fst].
  split; [exact G|]. split; [now apply D | exact A].
Defined.

Lemma insert_turn_In t u l : In t (insert_turn u l) <-> t = u \/ In t l.
Proof.
  induction l as [|a l IH]; cbn [insert_turn].
  - simpl. intuition.
  - destruct (turn_number u <=? turn_number a)%nat; simpl in *;
      rewrite ?IH; intuition.
Qed.

Lemma sorted_turns_In t l : In t (sorted_turns l) <-> In t l.
Proof.
  induction l as [|a l IH]; cbn [sorted_turns fold_right]; [reflexivity|].
  fold (sorted_turns l). rewrite insert_turn_In, IH. simpl. intuition.
Qed.

Lemma summary_part_nil t :
  summary_part t = []
  <-> Py.otruthy (turn_title t) = false
      /\ Py.otruthy (user_message t) = false.
Proof.
  unfold summary_part.
  destruct (Py.otruthy (turn_title t)); [split; [|intros [H _]]; discriminate|].
  destruct (Py.otruthy (user_message t));
    [split; [|intros [_ H]]; discriminate|].
  split; auto.
Qed.

(** A session has no parts exactly when none of its turns has a title
    or a user message. *)
Lemma session_parts_nil db sid :
  session_parts db sid = []
  <-> forall t, In t (turns db) -> turn_session t = sid ->
                Py.otruthy (turn_title t) = false
                /\ Py.otruthy (user_message t) = false.
Proof.
  unfold session_parts. split.
  - intros H t Hin Hs. apply summary_part_nil.
    destruct (summary_part t) as [|p ps] eqn:E; [reflexivity|].
    assert (Hp : In p []).
    { rewrite <- H. apply in_flat_map. exists t. split.
      - apply sorted_turns_In. apply filter_In. split; [exact Hin|].
        now apply N.eqb_eq.
      - rewrite E. now left. }
    destruct Hp.
  - intros H.
    destruct (flat_map _ _) as [|p ps] eqn:E; [reflexivity|].
    assert (Hp : In p (p :: ps)) by now left.
    rewrite <- E in Hp. apply in_flat_map in Hp as (t & Ht & Hp).
    apply (proj1 (sorted_turns_In _ _)) in Ht.
    apply filter_In in Ht as [Hin Hs].
    apply N.eqb_eq in Hs. destruct (H t Hin Hs) as [H1 H2].
    assert (N : summary_part t = []) by (apply summary_part_nil; now split).
    rewrite N in Hp. destruct Hp.
Qed.

(** X25. The session_summary handler stores nothing. Whenever it
    returns, the database is as it was. With a [session_id] in the
    payload it returns when the session is unknown and when none of the
    session's turns has a title or a user message; when some turn of the
    session has one, it raises [NameError], since [enqueue_job] is not
    bound where the handler calls it: the title and the summary it has
    built are lost with the transaction, the session is not marked
    processed, and no skill_extract job is enqueued. *)
Theorem session_summary_handler env db now job sid :
  payload_get "session_id" (payload job) = Some sid ->
  (forall db', process_session_summary_job env db now job = OK db' ->
               db' = db)
  /\ match find_session db sid with
     | None => process_session_summary_job env db now job = OK db
     | Some s =>
         ((forall t, In t (turns db) -> turn_session t = sess_id s ->
                     Py.otruthy (turn_title t) = false
                     /\ Py.otruthy (user_message t) = false) ->
          process_session_summary_job env db now job = OK db)
         /\ ((exists t, In t (turns db) /\ turn_session t = sess_id s
                        /\ (Py.otruthy (turn_title t) = true
                            \/ Py.otruthy (user_message t) = true)) ->
             process_session_summary_job env db now job = Raise "NameError")
     end.
Proof.
  intros P. unfold process_session_summary_job. rewrite P.
  destruct (find_session db sid) as [s|] eqn:F.
  2:{ split; [intros db' H; now inversion H | reflexivity]. }
  cbv zeta.
  destruct (session_parts db (sess_id s)) as [|first rest] eqn:Parts;
    cbn [negb].
  - split; [intros db' H; now inversion H|]. split; [reflexivity|].
    intros (t & Hin & Hs & Ht).
    destruct (proj1 (session_parts_nil db (sess_id s)) Parts t Hin Hs)
      as [H1 H2].
    rewrite H1, H2 in Ht. destruct Ht; discriminate.
  - split; [intros db' H; discriminate H|]. split; [|reflexivity].
    intros H. apply (proj2 (session_parts_nil db (sess_id s))) in H.
    rewrite H in Parts. discriminate Parts.
Qed.

Lemma session_summary_handler_witness :
  process_session_summary_job Sample.sample_env summarized_db 9
    (job_for_summary "S") = Raise "NameError".
Proof.
  destruct (session_summary_handler Sample.sample_env summarized_db 9
              (job_for_summary "S") "S" eq_refl) as [_ H].
  assert (F : find_session summarized_db "S"
              = Some (mkSession 7%N "S" None None None None None None None
                                2 false)) by reflexivity.
  rewrite F in H. destruct H as [_ H]. apply H.
  exists (Models.mkTurn 2%N 7%N 1 (Some "and deploy it"%string) None None
                        "h2" None [] None None).
  split; [left; reflexivity|]. split; [reflexivity|]. right. reflexivity.
Defined.

End WorkerFacts.

Module MatchingFacts.
Import World ProjectStateStore Classifier Matching.

Lemma add_unique_In x l y : In y (add_unique x l) <-> In y l \/ y = x.
Proof.
  unfold add_unique. destruct (existsb (String.eqb x) l) eqn:E.
  - split; [auto|]. intros [H| ->]; [exact H|].
    apply existsb_exists in E as (z & Hz & Ez).
    apply String.eqb_eq in Ez. now subst.
  - rewrite in_app_iff. simpl. intuition.
Qed.

Lemma add_unique_NoDup x l : List.NoDup l -> List.NoDup (add_unique x l).
Proof.
  intros H. unfold add_unique. destruct (existsb (String.eqb x) l) eqn:E;
    [exact H|].
  apply List.NoDup_app; [exact H | constructor; [intros []|constructor]|].
  intros a Ha [Ea|[]]. subst a.
  assert (T : existsb (String.eqb x) l = true).
  { apply existsb_exists. exists x. split; [exact Ha | apply String.eqb_refl]. }
  congruence.
Qed.

Lemma add_unique_hd x l : l <> [] -> hd_error (add_unique x l) = hd_error l.
Proof.
  intros H. unfold add_unique. destruct (existsb _ l); [reflexivity|].
  destruct l; [contradiction | reflexivity].
Qed.

Lemma add_unique_nonempty x l : l <> [] -> add_unique x l <> [].
Proof.
  intros H. unfold add_unique. destruct (existsb _ l); [exact H|].
  destruct l; [contradiction | discriminate].
Qed.

Lemma match_projects_step pl acc p :
  (let '(slug, name) := p in
   if _word_match slug pl then add_unique slug acc
   else if Py.truthy name && _word_match (Py.lower name) pl
        then add_unique slug acc else acc)
  = if project_matches pl p then add_unique (fst p) acc else acc.
Proof.
  destruct p as [slug name]. unfold project_matches. cbn [fst snd].
  destruct (_word_match slug pl); [reflexivity|]. reflexivity.
Qed.

Lemma match_projects_spec pl projects : forall init,
  List.NoDup init ->
  let out := match_projects projects pl init in
  List.NoDup out
  /\ (forall s, In s out <->
                In s init
                \/ exists p, In p projects /\ fst p = s
                             /\ project_matches pl p = true)
  /\ (init <> [] -> hd_error out = hd_error init).
Proof.
  unfold match_projects.
  induction projects as [|p projects IH]; intros init ND; cbv zeta.
  - cbn [fold_left]. split; [exact ND|]. split; [|reflexivity].
    intros s. split; [auto|]. intros [H|(p & [] & _)]. exact H.
  - cbn [fold_left]. rewrite match_projects_step.
    destruct (project_matches pl p) eqn:M.
    + destruct (IH (add_unique (fst p) init) (add_unique_NoDup _ _ ND))
        as (I1 & I2 & I3).
      split; [exact I1|]. split.
      * intros s. rewrite I2, add_unique_In. split.
        -- intros [[H| ->]|(q & Hq & Efst & Mq)]; [now left | |].
           ++ right. exists p. split; [now left|]. now split.
           ++ right. exists q. split; [now right|]. now split.
        -- intros [H|(q & [-> |Hq] & Efst & Mq)]; [left; now left | |].
           ++ left. right. now symmetry.
           ++ right. exists q. now repeat split.
      * intros Hne. rewrite I3 by now apply add_unique_nonempty.
        now apply add_unique_hd.
    + destruct (IH init ND) as (I1 & I2 & I3).
      split; [exact I1|]. split; [|exact I3].
      intros s. rewrite I2. split.
      * intros [H|(q & Hq & Efst & Mq)]; [now left|].
        right. exists q. split; [now right|]. now split.
      * intros [H|(q & [-> |Hq] & Efst & Mq)]; [now left | congruence|].
        right. exists q. now repeat split.
Qed.

Lemma match_people_spec pl people : forall init,
  List.NoDup init ->
  let out :=
    fold_left
      (fun acc p =>
         let name := fst p in
         if (2 <? String.length name)%nat
            && _word_match (Py.lower name) pl
         then add_unique name acc else acc)
      people init in
  List.NoDup out
  /\ (forall n, In n out <->
                In n init
                \/ exists p, In p people /\ fst p = n
                             /\ person_matches pl p = true).
Proof.
  induction people as [|p people IH]; intros init ND; cbv zeta.
  - cbn [fold_left]. split; [exact ND|].
    intros s. split; [auto|]. intros [H|(p & [] & _)]. exact H.
  - cbn [fold_left]. fold (person_matches pl p).
    destruct (person_matches pl p) eqn:M.
    + destruct (IH (add_unique (fst p) init) (add_unique_NoDup _ _ ND))
        as (I1 & I2).
      split; [exact I1|].
      intros s. rewrite I2, add_unique_In. split.
      * intros [[H| ->]|(q & Hq & Efst & Mq)]; [now left | |].
        -- right. exists p. split; [now left|]. now split.
        -- right. exists q. split; [now right|]. now split.
      * intros [H|(q & [-> |Hq] & Efst & Mq)]; [left; now left | |].
        -- left. right. now symmetry.
        -- right. exists q. now repeat split.
    + destruct (IH init ND) as (I1 & I2).
      split; [exact I1|].
      intros s. rewrite I2. split.
      * intros [H|(q & Hq & Efst & Mq)]; [now left|].
        right. exists q. split; [now right|]. now split.
      * intros [H|(q & [-> |Hq] & Efst & Mq)]; [now left | congruence|].
        right. exists q. now repeat split.
Qed.

(** X26. What [classify] lists. For a prompt of at least 3 characters,
    [project_slugs] and [person_names] hold no entry twice; a slug is
    listed exactly when it is the explicit project or the slug of a
    project whose slug, or whose non-empty name in lower case, matches
    the lowered prompt; a name is listed exactly when it is the name of a
    person, longer than 2 characters, that matches; the explicit project,
    when there is one, is the first slug; and [query_type] is one of
    code, email, task, meta, general. *)
Theorem classify_matches env self prompt cwd :
  ~ short_prompt prompt ->
  let r := classify env self prompt cwd in
  let pl := Py.lower prompt in
  List.NoDup (project_slugs r)
  /\ List.NoDup (person_names r)
  /\ (forall s, In s (project_slugs r) <->
                explicit_project r = Some s
                \/ exists p, In p (_projects self) /\ fst p = s
                             /\ project_matches pl p = true)
  /\ (forall n, In n (person_names r) <->
                exists p, In p (_people self) /\ fst p = n
                          /\ person_matches pl p = true)
  /\ (forall e, explicit_project r = Some e ->
                hd_error (project_slugs r) = Some e)
  /\ In (query_type r) query_types.
Proof.
  intros Hlong. cbv zeta. unfold classify.
  rewrite ClassifierFacts.classify_long by exact Hlong.
  cbn [project_slugs person_names explicit_project query_type].
  set (ex := get_active_project env cwd).
  set (init := if Py.otruthy ex then [default EmptyString ex] else []).
  assert (ND : List.NoDup init).
  { subst init. destruct (Py.otruthy ex); repeat constructor. intros []. }
  destruct (match_projects_spec (Py.lower prompt) (_projects self) init ND)
    as (P1 & P2 & P3).
  destruct (match_people_spec (Py.lower prompt) (_people self) []
              (List.NoDup_nil _)) as (Q1 & Q2).
  cbv zeta in P1, P2, P3, Q1, Q2.
  split; [exact P1|]. split; [exact Q1|]. split; [|split; [|split]].
  - intros s. rewrite P2.
    assert (Init : In s init <-> (if Py.otruthy ex then ex else None) = Some s).
    { subst init. destruct ex as [[|c e]|]; cbn; unfold id;
        intuition congruence. }
    rewrite Init. reflexivity.
  - intros n. unfold match_people. rewrite Q2. cbn [In]. tauto.
  - intros e He. subst init.
    destruct ex as [[|c e']|]; cbn in He; try discriminate He.
    rewrite P3 by discriminate. cbn. unfold id. exact He.
  - unfold _detect_query_type, query_types.
    repeat (destruct (pattern_search _ _); [simpl; tauto|]). simpl; tauto.
Qed.


Lemma classify_matches_witness :
  In "apollo"%string
     (project_slugs (classify Sample.sample_env apollo_classifier
                              "ask the apollo team" None))
  /\ query_type (classify Sample.sample_env apollo_classifier
                          "ask the apollo team" None) = "general"%string.
Proof.
  assert (L : ~ short_prompt "ask the apollo team").
  { intros [H|H]; [discriminate H | vm_compute in H; lia]. }
  destruct (classify_matches Sample.sample_env apollo_classifier
              "ask the apollo team" None L) as (_ & _ & H & _).
  split; [|reflexivity].
  apply H. right. exists ("apollo", "Apollo Program")%string.
  split; [now left|]. split; reflexivity.
Defined.

Lemma startswith_prefix p t :
  Py.startswith p t = true <-> exists rest, t = p +:+ rest.
Proof.
  revert t. induction p as [|a p IH]; intros t; cbn [Py.startswith].
  - split; [intros _; now exists t | reflexivity].
  - destruct t as [|b t].
    + split; [discriminate | intros [rest H]; discriminate H].
    + rewrite andb_true_iff, IH. split.
      * intros [E [rest ->]]. apply Ascii.eqb_eq in E. subst. now exists rest.
      * intros [rest H]. cbn in H. inversion H; subst.
        split; [apply Ascii.eqb_refl | now exists rest].
Qed.

Lemma search_from_sound prefix suffix p t : forall prev,
  search_from prefix suffix p prev t = true -> substring p t.
Proof.
  induction t as [|c t IH]; intros prev H; cbn [search_from] in H;
    apply orb_true_iff in H as [H|H]; try discriminate.
  - apply andb_true_iff in H as [H _]. apply andb_true_iff in H as [H _].
    apply startswith_prefix in H as [rest ->]. now exists EmptyString, rest.
  - apply andb_true_iff in H as [H _]. apply andb_true_iff in H as [H _].
    apply startswith_prefix in H as [rest ->]. now exists EmptyString, rest.
  - apply IH in H as (before & after & ->).
    now exists (String c before), after.
Qed.

Lemma search_from_here p prev t :
  Py.startswith p t = true -> search_from false false p prev t = true.
Proof.
  intros H. destruct t; cbn [search_from negb orb andb]; rewrite H; reflexivity.
Qed.

Lemma search_from_plain p t : forall prev,
  substring p t -> search_from false false p prev t = true.
Proof.
  intros prev (before & after & ->). revert prev.
  induction before as [|c before IH]; intros prev.
  - apply search_from_here. apply startswith_prefix. now exists after.
  - change (String c before +:+ p +:+ after)
      with (String c (before +:+ p +:+ after)).
    cbn [search_from]. rewrite IH. apply orb_true_r.
Qed.

(** X27. [_word_match] only finds what is there: when it is true, the
    pattern occurs in the text. For a pattern that neither starts nor
    ends with a letter or a digit (the empty pattern included) it is
    plain substring search. *)
Theorem word_match_substring pattern text :
  (_word_match pattern text = true -> substring pattern text)
  /\ (match head_char pattern with Some c => Py.isalnum c | None => false end
      = false ->
      match last_char None pattern with Some c => Py.isalnum c | None => false end
      = false ->
      (_word_match pattern text = true <-> substring pattern text)).
Proof.
  unfold _word_match. split.
  - apply search_from_sound.
  - intros -> ->. split; [apply search_from_sound | apply search_from_plain].
Qed.


Lemma slug_set_same w v m : workspace_slug w (dict_set w v m) = Some v.
Proof.
  induction m as [|[k u] m IH]; cbn [dict_set workspace_slug].
  - now rewrite String.eqb_refl.
  - destruct (String.eqb w k) eqn:E; cbn [workspace_slug].
    + now rewrite String.eqb_refl.
    + now rewrite E.
Qed.

Lemma slug_set_other w w' v m :
  w' <> w -> workspace_slug w' (dict_set w v m) = workspace_slug w' m.
Proof.
  intros Hne. induction m as [|[k u] m IH]; cbn [dict_set workspace_slug].
  - apply String.eqb_neq in Hne. now rewrite Hne.
  - destruct (String.eqb w k) eqn:E; cbn [workspace_slug].
    + apply String.eqb_eq in E. subst k. apply String.eqb_neq in Hne.
      now rewrite Hne.
    + now rewrite IH.
Qed.

Lemma slug_absent w m : ~ In w (map fst m) -> workspace_slug w m = None.
Proof.
  induction m as [|[k u] m IH]; cbn [workspace_slug map fst In]; [reflexivity|].
  intros H. destruct (String.eqb_spec w k) as [->|Hne]; [tauto|].
  apply IH. tauto.
Qed.

Lemma slug_pop_same w m : is_dict m -> workspace_slug w (dict_pop w m) = None.
Proof.
  unfold is_dict. induction m as [|[k u] m IH]; cbn [dict_pop]; intros ND;
    [reflexivity|].
  inversion ND as [|? ? Hn Hm]; subst.
  destruct (String.eqb_spec w k) as [->|Hne].
  - now apply slug_absent.
  - cbn [workspace_slug]. apply String.eqb_neq in Hne. rewrite Hne. now apply IH.
Qed.

Lemma slug_pop_other w w' m :
  w' <> w -> workspace_slug w' (dict_pop w m) = workspace_slug w' m.
Proof.
  intros Hne. induction m as [|[k u] m IH]; cbn [dict_pop workspace_slug];
    [reflexivity|].
  destruct (String.eqb_spec w k) as [->|Hk]; cbn [workspace_slug].
  - apply String.eqb_neq in Hne. now rewrite Hne.
  - now rewrite IH.
Qed.

Lemma keys_set w v m :
  forall k, In k (map fst (dict_set w v m)) <-> k = w \/ In k (map fst m).
Proof.
  induction m as [|[k' u] m IH]; intros k; cbn [dict_set map fst In].
  - intuition.
  - destruct (String.eqb_spec w k') as [->|Hne]; cbn [map fst In].
    + intuition.
    + rewrite IH. intuition.
Qed.

Lemma is_dict_set w v m : is_dict m -> is_dict (dict_set w v m).
Proof.
  unfold is_dict. induction m as [|[k u] m IH]; cbn [dict_set map fst];
    intros ND.
  - constructor; [intros []|constructor].
  - inversion ND as [|? ? Hn Hm]; subst.
    destruct (String.eqb_spec w k) as [->|Hne]; cbn [map fst].
    + now constructor.
    + constructor; [|now apply IH].
      rewrite keys_set. intros [->|H]; [now apply Hne | now apply Hn].
Qed.

Lemma keys_pop w m k : In k (map fst (dict_pop w m)) -> In k (map fst m).
Proof.
  induction m as [|[k' u] m IH]; cbn [dict_pop map fst In]; [auto|].
  destruct (String.eqb w k'); cbn [map fst In]; intuition.
Qed.

Lemma is_dict_pop w m : is_dict m -> is_dict (dict_pop w m).
Proof.
  unfold is_dict. induction m as [|[k u] m IH]; cbn [dict_pop map fst];
    intros ND; [constructor|].
  inversion ND as [|? ? Hn Hm]; subst.
  destruct (String.eqb w k); cbn [map fst]; [exact Hm|].
  constructor; [|now apply IH]. intros H. apply Hn. now apply keys_pop in H.
Qed.

(** X28. Selecting a project. With the state file a dict and a
    non-empty workspace [ws]: after [set_active_project(slug, ws)],
    [get_active_project(ws)] is [slug], or the global project when [slug]
    is empty; after [clear_active_project(ws)] it is the global project;
    neither changes the answer for another workspace or for no workspace.
    After [set_active_project(slug)] the answer without workspace is
    [slug], after [clear_active_project()] it is [None], and a workspace
    with a non-empty override keeps its override. *)
Theorem project_selection env slug c w :
  is_dict (state_workspaces (project_state env)) ->
  let st := project_state env in
  let ws := String c w in
  let set_w := written env (set_active_project st slug (Some ws)) in
  let set_g := written env (set_active_project st slug None) in
  let clear_w := written env (clear_active_project st (Some ws)) in
  let clear_g := written env (clear_active_project st None) in
  get_active_project set_w (Some ws)
  = (if Py.truthy slug then Some slug else state_global st)
  /\ get_active_project clear_w (Some ws) = state_global st
  /\ (forall other, other <> Some ws ->
        get_active_project set_w other = get_active_project env other
        /\ get_active_project clear_w other = get_active_project env other)
  /\ get_active_project set_g None = Some slug
  /\ get_active_project clear_g None = None
  /\ (forall other,
        other <> EmptyString ->
        Py.otruthy (workspace_slug other (state_workspaces st)) = true ->
        get_active_project set_g (Some other)
        = get_active_project env (Some other)
        /\ get_active_project clear_g (Some other)
           = get_active_project env (Some other))
  /\ is_dict (state_workspaces (project_state set_w))
  /\ is_dict (state_workspaces (project_state clear_w)).
Proof.
  intros D. cbv zeta.
  unfold get_active_project, set_active_project, clear_active_project, written.
  cbn [project_state Py.otruthy Py.truthy default state_workspaces
       state_global].
  split; [|split; [|split; [|split; [|split; [|split; [|split]]]]]].
  - rewrite slug_set_same. cbn [Py.otruthy]. reflexivity.
  - rewrite slug_pop_same by exact D. reflexivity.
  - intros [o|] Hne; cbn [Py.otruthy]; [|split; reflexivity].
    destruct (Py.truthy o); [|split; reflexivity]. cbn [default].
    assert (o <> String c w) by congruence.
    rewrite slug_set_other, slug_pop_other by assumption. split; reflexivity.
  - reflexivity.
  - reflexivity.
  - intros other Hne H.
    destruct other as [|c' o]; [contradiction|]. cbn [Py.truthy].
    unfold default, id in *. rewrite H. split; reflexivity.
  - now apply is_dict_set.
  - now apply is_dict_pop.
Qed.

Lemma project_selection_witness :
  get_active_project
    (written selected_env
       (set_active_project (project_state selected_env) "zeus" (Some "/w"%string)))
    (Some "/w"%string) = Some "zeus"%string
  /\ get_active_project
       (written selected_env
          (clear_active_project (project_state selected_env) (Some "/w"%string)))
       (Some "/w"%string) = Some "apollo"%string.
Proof.
  assert (D : is_dict (state_workspaces (project_state selected_env))).
  { unfold is_dict. cbn. constructor; [intros []|constructor]. }
  destruct (project_selection selected_env "zeus" "/" "w" D) as (H1 & H2 & _).
  split; [exact H1 | exact H2].
Defined.

End MatchingFacts.

Module BudgetFacts.
Import Formatter.

Lemma greedy_fit_nil budget bs :
  greedy_fit budget bs = [] <-> forall b, In b bs -> budget < cost b.
Proof.
  induction bs as [|a bs IH]; cbn [greedy_fit].
  - split; [intros _ b [] | reflexivity].
  - destruct (Z.leb_spec (cost a) budget) as [H|H].
    + split; [discriminate|]. intros Hall.
      specialize (Hall a (or_introl eq_refl)). lia.
    + rewrite IH. split.
      * intros Hall b [<-|Hb]; [exact H | now apply Hall].
      * intros Hall b Hb. apply Hall. now right.
Qed.

Lemma append_assoc (a b c : string) : (a +:+ b) +:+ c = a +:+ (b +:+ c).
Proof.
  induction a as [|x a IH]; [reflexivity|].
  change (String x ((a +:+ b) +:+ c) = String x (a +:+ (b +:+ c))).
  now rewrite IH.
Qed.

Lemma append_empty (a : string) : a +:+ EmptyString = a.
Proof.
  induction a as [|x a IH]; [reflexivity|].
  change (String x (a +:+ EmptyString) = String x a). now rewrite IH.
Qed.

(** A non-empty output is the header, the first block kept, and more. *)
Lemma render_head note total b kept :
  exists tail,
    render note total (b :: kept)
    = (header +:+ _format_single_block b) +:+ tail.
Proof.
  unfold render.
  assert (J : exists t, Py.join Py.nl (map _format_single_block (b :: kept))
                        = _format_single_block b +:+ t).
  { cbn [map Py.join]. destruct (map _format_single_block kept) as [|k ks].
    - exists EmptyString. now rewrite append_empty.
    - eexists. reflexivity. }
  destruct J as [t ->].
  destruct (_ <? _)%nat; eexists; rewrite ?append_assoc; reflexivity.
Qed.

(** X29. When the formatter says nothing. The output is empty exactly
    when no block fits the budget left after the header, each block taken
    alone; a non-empty output starts with the header; and when the most
    relevant block fits, the output starts with the header and that
    block. *)
Theorem format_empty_iff blocks max_tokens :
  (format_context_blocks blocks max_tokens = EmptyString
   <-> forall b, In b blocks -> max_tokens - header_cost < cost b)
  /\ (format_context_blocks blocks max_tokens = EmptyString
      \/ Py.startswith header (format_context_blocks blocks max_tokens) = true)
  /\ (forall top rest,
        sorted_desc blocks = top :: rest ->
        cost top <= max_tokens - header_cost ->
        Py.startswith (header +:+ _format_single_block top)
                      (format_context_blocks blocks max_tokens) = true).
Proof.
  rewrite FormatterFacts.format_is_render. split; [|split].
  - destruct (greedy_fit _ _) as [|k kept] eqn:E.
    + split; [intros _|reflexivity]. intros b Hb.
      apply (proj1 (greedy_fit_nil _ _) E).
      now apply (Permutation_in _ (Permutation_sym
                                     (FormatterFacts.sorted_desc_perm blocks))).
    + split.
      * intros H. destruct (render_head overflow_note (List.length blocks) k kept)
          as [tail T]. rewrite T in H. unfold header in H. discriminate H.
      * intros H. assert (N : greedy_fit (max_tokens - header_cost)
                                (sorted_desc blocks) = []).
        { apply greedy_fit_nil. intros b Hb. apply H.
          now apply (Permutation_in _ (FormatterFacts.sorted_desc_perm blocks)). }
        congruence.
  - destruct (greedy_fit _ _) as [|k kept] eqn:E; [now left|]. right.
    destruct (render_head overflow_note (List.length blocks) k kept)
      as [tail ->].
    apply MatchingFacts.startswith_prefix. eexists. apply append_assoc.
  - intros top rest Hs Hc. rewrite Hs. cbn [greedy_fit].
    apply Z.leb_le in Hc. rewrite Hc.
    destruct (render_head overflow_note (List.length blocks) top
                (greedy_fit (max_tokens - header_cost - cost top) rest))
      as [tail ->].
    apply MatchingFacts.startswith_prefix. now exists tail.
Qed.

End BudgetFacts.

Module RetryFacts.
Import Models Jobs Retry.

Lemma get_job_elsewhere f jid db i :
  (forall j, job_id (f j) = job_id j) ->
  i <> jid -> get_job (update_job f jid db) i = get_job db i.
Proof.
  intros Hid Hne. unfold get_job, update_job. simpl.
  induction (jobs db) as [|a l IH]; simpl; [reflexivity|].
  destruct (N.eqb_spec (job_id a) jid) as [E|E].
  - rewrite Hid. destruct (N.eqb_spec (job_id a) i) as [E'|E'];
      [congruence | exact IH].
  - destruct (N.eqb (job_id a) i); [reflexivity | exact IH].
Qed.

Lemma update_job_pk f jid db :
  (forall j, job_id (f j) = job_id j) ->
  jobs_pk db -> jobs_pk (update_job f jid db).
Proof.
  intros Hid. unfold jobs_pk, update_job. simpl.
  rewrite map_map.
  replace (map (fun x => job_id (if N.eqb (job_id x) jid then f x else x))
               (jobs db)) with (map job_id (jobs db)); [trivial|].
  apply map_ext. intros a. destruct (N.eqb (job_id a) jid); [|reflexivity].
  now rewrite Hid.
Qed.

Lemma get_job_row db j :
  jobs_pk db -> In j (jobs db) -> get_job db (job_id j) = Some j.
Proof.
  intros PK Hin. apply in_split in Hin as (before & after & Hs).
  exact (JobsFacts.get_job_unique db before j after Hs PK).
Qed.

Lemma claimable_status now kinds j :
  claimable now kinds j = true -> status j = Queued \/ status j = Retry.
Proof.
  unfold claimable. intros H.
  apply andb_prop in H as [H _]. apply andb_prop in H as [H _].
  apply orb_prop in H as [H|H]; apply JobsFacts.status_eqb_eq in H; auto.
Qed.

(** One failed run: the job was claimable, and is left with one attempt
    more, in status retry or failed. *)
Lemma failed_run_step kinds lease msg jid db t db1 j :
  jobs_pk db ->
  get_job db jid = Some j ->
  failed_run kinds lease msg jid db t = Some db1 ->
  jobs_pk db1
  /\ claimable (fst t) kinds j = true
  /\ (forall i, i <> jid -> get_job db1 i = get_job db i)
  /\ exists j1,
       get_job db1 jid = Some j1
       /\ attempts j1 = N.succ (attempts j)
       /\ max_attempts j1 = max_attempts j
       /\ error_message j1 = Some msg
       /\ (Z.of_N (attempts j1) < max_attempts j ->
           status j1 = Retry
           /\ locked_until j1
              = Some (snd t + backoff_seconds (attempts j1)))
       /\ (max_attempts j <= Z.of_N (attempts j1) -> status j1 = Failed).
Proof.
  intros PK G H. unfold failed_run, claim_job in H.
  destruct (first_in_order _) as [sel|] eqn:F; [|discriminate].
  apply JobsFacts.first_in_order_In in F. apply filter_In in F as [Hin Hc].
  pose proof (get_job_row db sel PK Hin) as Gs.
  rewrite JobsFacts.get_job_updated in H by reflexivity.
  rewrite Gs in H. cbn [option_map mark_claimed job_id] in H.
  destruct (N.eqb_spec (job_id sel) jid) as [E|E]; [|discriminate].
  rewrite E in Gs. rewrite G in Gs. inversion Gs; subst sel; clear Gs.
  inversion H; subst db1; clear H. rewrite E.
  set (dbc := update_job (mark_claimed (fst t) lease) jid db).
  assert (PKc : jobs_pk dbc) by (now apply update_job_pk).
  assert (Gc : get_job dbc jid = Some (mark_claimed (fst t) lease j)).
  { subst dbc. rewrite JobsFacts.get_job_updated by reflexivity.
    now rewrite G. }
  unfold fail_job. rewrite Gc. cbn [mark_claimed attempts max_attempts].
  destruct (Z.ltb_spec (Z.of_N (N.succ (attempts j))) (max_attempts j))
    as [L|L].
  - split; [now apply update_job_pk|]. split; [exact Hc|]. split.
    { intros i Hi. rewrite get_job_elsewhere by (trivial || reflexivity).
      subst dbc. now rewrite get_job_elsewhere by (trivial || reflexivity). }
    eexists. split.
    { rewrite JobsFacts.get_job_updated by reflexivity. rewrite Gc.
      reflexivity. }
    cbn [mark_retry mark_claimed attempts max_attempts error_message status
         locked_until].
    repeat split; try reflexivity. intros L'. lia.
  - split; [now apply update_job_pk|]. split; [exact Hc|]. split.
    { intros i Hi. rewrite get_job_elsewhere by (trivial || reflexivity).
      subst dbc. now rewrite get_job_elsewhere by (trivial || reflexivity). }
    eexists. split.
    { rewrite JobsFacts.get_job_updated by reflexivity. rewrite Gc.
      reflexivity. }
    cbn [mark_failed mark_claimed attempts max_attempts error_message status
         locked_until].
    split; [reflexivity|]. split; [reflexivity|]. split; [reflexivity|].
    split; [intros L'; lia | reflexivity].
Qed.

(** A failed job is never returned by [claim_job]. *)
Lemma failed_not_claimed db jid j now kinds lease r :
  jobs_pk db -> get_job db jid = Some j -> status j = Failed ->
  snd (claim_job db now kinds lease) = Some r -> job_id r <> jid.
Proof.
  intros PK G St H E.
  apply QueueFacts.claim_job_selected in H as (sel & Hin & Hc & Hid).
  pose proof (get_job_row db sel PK Hin) as Gs.
  rewrite <- Hid, E, G in Gs. inversion Gs; subst sel.
  apply claimable_status in Hc. rewrite St in Hc.
  destruct Hc; discriminate.
Qed.

Lemma failed_runs_spec kinds lease msg jid times :
  forall db db' j,
  jobs_pk db ->
  get_job db jid = Some j ->
  failed_runs kinds lease msg jid db times = Some db' ->
  times <> [] ->
  jobs_pk db'
  /\ (status j = Queued \/ status j = Retry)
  /\ (forall i, i <> jid -> get_job db' i = get_job db i)
  /\ Z.of_nat (List.length times)
     <= Z.max 1 (max_attempts j - Z.of_N (attempts j))
  /\ exists j',
       get_job db' jid = Some j'
       /\ attempts j' = (attempts j + N.of_nat (List.length times))%N
       /\ max_attempts j' = max_attempts j
       /\ error_message j' = Some msg
       /\ (Z.of_N (attempts j') < max_attempts j -> status j' = Retry)
       /\ (max_attempts j <= Z.of_N (attempts j') -> status j' = Failed).
Proof.
  induction times as [|t rest IH]; intros db db' j PK G H Hne;
    [contradiction|].
  cbn [failed_runs] in H.
  destruct (failed_run kinds lease msg jid db t) as [db1|] eqn:R;
    [|discriminate].
  destruct (failed_run_step kinds lease msg jid db t db1 j PK G R)
    as (PK1 & Hc & Ho & j1 & G1 & A1 & M1 & E1 & Re1 & Fa1).
  apply claimable_status in Hc.
  destruct rest as [|t2 rest].
  - cbn [failed_runs] in H. inversion H; subst db'; clear H.
    split; [exact PK1|]. split; [exact Hc|]. split; [exact Ho|].
    split; [simpl; lia|].
    exists j1. split; [exact G1|]. split; [simpl; lia|].
    split; [exact M1|]. split; [exact E1|].
    split; [intros L; now apply Re1 | exact Fa1].
  - destruct (IH db1 db' j1 PK1 G1 H ltac:(discriminate))
      as (PK' & Hc1 & Ho' & B & j' & G' & A' & M' & E' & Re' & Fa').
    assert (L1 : Z.of_N (attempts j1) < max_attempts j).
    { destruct (Z.lt_ge_cases (Z.of_N (attempts j1)) (max_attempts j))
        as [L|L]; [exact L|].
      apply Fa1 in L. rewrite L in Hc1. destruct Hc1; discriminate. }
    split; [exact PK'|]. split; [exact Hc|]. split.
    { intros i Hi. rewrite Ho' by exact Hi. now apply Ho. }
    split.
    { rewrite M1, A1 in B. cbn [List.length] in *. lia. }
    exists j'. split; [exact G'|]. split.
    { rewrite A', A1. cbn [List.length]. lia. }
    split; [congruence|]. split; [exact E'|].
    rewrite M1 in Re', Fa'. split; [exact Re' | exact Fa'].
Qed.

(** X30. A job that keeps failing gives up. Take a queue with unique ids
    and a job of it, and let the worker fail on that job one or more
    times: each time [claim_job] returns the job and [fail_job] is called
    on it. Then the job had at most [max (1, max_attempts - attempts)]
    such runs; each of them added one attempt; the row keeps the last
    error message and is in status retry while its attempts are below
    [max_attempts], and failed otherwise, after which no [claim_job]
    returns it, whatever the time, the kinds and the lease, so that no
    further run on it exists; and every other row is as it was. *)
Theorem failing_job_gives_up kinds lease msg jid times db db' j :
  jobs_pk db ->
  get_job db jid = Some j ->
  failed_runs kinds lease msg jid db times = Some db' ->
  times <> [] ->
  Z.of_nat (List.length times)
  <= Z.max 1 (max_attempts j - Z.of_N (attempts j))
  /\ (forall i, i <> jid -> get_job db' i = get_job db i)
  /\ exists j',
       get_job db' jid = Some j'
       /\ attempts j' = (attempts j + N.of_nat (List.length times))%N
       /\ max_attempts j' = max_attempts j
       /\ error_message j' = Some msg
       /\ (Z.of_N (attempts j') < max_attempts j -> status j' = Retry)
       /\ (max_attempts j <= Z.of_N (attempts j') ->
           status j' = Failed
           /\ (forall now ks ls r,
                  snd (claim_job db' now ks ls) = Some r -> job_id r <> jid)
           /\ (forall ks ls m t, failed_run ks ls m jid db' t = None)).
Proof.
  intros PK G H Hne.
  destruct (failed_runs_spec kinds lease msg jid times db db' j PK G H Hne)
    as (PK' & _ & Ho & B & j' & G' & A' & M' & E' & Re' & Fa').
  split; [exact B|]. split; [exact Ho|].
  exists j'. split; [exact G'|]. split; [exact A'|]. split; [exact M'|].
  split; [exact E'|]. split; [exact Re'|].
  intros L. pose proof (Fa' L) as St. split; [exact St|]. split.
  - intros now ks ls r. now apply (failed_not_claimed db' jid j').
  - intros ks ls m t. unfold failed_run.
    destruct (claim_job db' (fst t) ks ls) as [db1 [r|]] eqn:C;
      [|reflexivity].
    destruct (N.eqb_spec (job_id r) jid) as [E|E]; [|reflexivity].
    exfalso. revert E.
    apply (failed_not_claimed db' jid j' (fst t) ks ls r PK' G' St).
    now rewrite C.
Qed.

Lemma failing_job_gives_up_witness :
  exists db' j',
    failed_runs None 300 "boom" 0%N db_two_tries [(100, 101); (200, 201)]
    = Some db'
    /\ get_job db' 0%N = Some j'
    /\ attempts j' = 2%N
    /\ status j' = Failed
    /\ failed_run None 300 "boom" 0%N db' (300, 301) = None.
Proof.
  destruct (failed_runs None 300 "boom" 0%N db_two_tries
              [(100, 101); (200, 201)]) as [db'|] eqn:E;
    [|vm_compute in E; discriminate E].
  destruct (failing_job_gives_up None 300 "boom" 0%N
              [(100, 101); (200, 201)] db_two_tries db' _
              ltac:(repeat constructor; simpl; tauto) eq_refl E
              ltac:(discriminate))
    as (_ & _ & j' & G & A & _ & _ & _ & F).
  cbn [attempts max_attempts] in A, F.
  destruct F as (St & _ & Hno); [rewrite A; vm_compute; discriminate|].
  exists db', j'. split; [reflexivity|]. split; [exact G|].
  split; [exact A|]. split; [exact St|]. apply Hno.
Defined.

End RetryFacts.
